(** * Trace-context propagation and RabbitMQ instrumentation

    A shallow embedding of
      - [src/opentelemetry/instrumentation/rabbitmq_instrumentation.py]
        (class [RabbitMQInstrumentation]),
      - [src/opentelemetry/instrumentation/python_instrumentation.py]
        (classes [HomelabTelemetry] and [TelemetryTestMixin]),
      - [src/opentelemetry/pipelines/context-propagation.py]
        (class [TracingHelper]).

    The Python code is effectful: it mutates the tracer's spans, the meter's
    instruments, the [metrics_by_queue] dictionary and the caller's
    [BasicProperties] object, and it raises.  It is embedded as functions
    over an explicit [world], returning an [outcome] (a value or a raised
    exception) together with the new world.

    The OpenTelemetry SDK and the AMQP broker are external collaborators.
    What the code needs from the SDK is gathered in the class [SDK]; the
    parts of the OpenTelemetry API whose behaviour the code relies on are
    written out next to the function that calls them. *)

From Stdlib Require Import ZArith String Ascii List Lia.
From stdpp Require Import base option list gmap strings.

Set Default Proof Using "Type".
Set Warnings "-clear-no-such-hyp".

(* ===================================================================== *)
(** ** Python values: exceptions, outcomes, bytes                         *)
(* ===================================================================== *)

(** A raised Python exception: its class name, its value, and whether the
    class derives from [Exception] (what [except Exception] tests).
    [KeyboardInterrupt], [SystemExit] and [GeneratorExit] derive from
    [BaseException] only. *)
Record exn := Exn {
  exc_type : string;
  exc_value : string;
  exc_is_Exception : bool
}.

Global Instance exn_eq_dec : EqDecision exn.
Proof. solve_decision. Defined.

Inductive outcome (A : Type) : Type :=
  | Return (a : A)
  | Raise (e : exn).
Arguments Return {A} a.
Arguments Raise {A} e.

Definition TypeError (msg : string) : exn := Exn "TypeError" msg true.
Definition KeyError (msg : string) : exn := Exn "KeyError" msg true.
Definition ValueError (msg : string) : exn := Exn "ValueError" msg true.
Definition KeyboardInterrupt : exn := Exn "KeyboardInterrupt" "" false.

Abbreviation bytes := (list Byte.byte).

(** [len(body)] *)
Definition len (body : bytes) : Z := Z.of_nat (length body).

(** Python truthiness of an optional string: [None] and [""] are falsy. *)
Definition truthy (s : option string) : bool :=
  match s with
  | None => false
  | Some s => negb (String.eqb s "")
  end.

(* ===================================================================== *)
(** ** [format(n, "016x")]                                                *)
(* ===================================================================== *)

Definition hex_digit (d : Z) : ascii :=
  match d with
  | 0 => "0" | 1 => "1" | 2 => "2" | 3 => "3" | 4 => "4" | 5 => "5"
  | 6 => "6" | 7 => "7" | 8 => "8" | 9 => "9" | 10 => "a" | 11 => "b"
  | 12 => "c" | 13 => "d" | 14 => "e" | _ => "f"
  end%Z%char.

(** The hexadecimal digits of a non-negative [n], most significant first,
    pushed in front of [acc]; every step divides by 16, so
    [S (log2 n)] steps are always enough. *)
Fixpoint hex_digits (fuel : nat) (n : Z) (acc : list ascii) : list ascii :=
  match fuel with
  | O => acc
  | S fuel' =>
      if (n <? 16)%Z then hex_digit n :: acc
      else hex_digits fuel' (n / 16)%Z (hex_digit (n mod 16)%Z :: acc)
  end.

Definition hex (n : Z) : list ascii :=
  hex_digits (S (Z.to_nat (Z.log2 n))) n [].

(** [format(n, "0<width>x")] for [0 <= n]: lower-case hexadecimal, padded
    with zeros on the left to at least [width] characters. *)
Definition format_hex (width : nat) (n : Z) : string :=
  let ds := hex n in
  string_of_list_ascii (repeat "0"%char (width - length ds) ++ ds).

(* ===================================================================== *)
(** ** Spans and contexts (opentelemetry.trace, opentelemetry.context)    *)
(* ===================================================================== *)

Inductive SpanKind := INTERNAL | SERVER | CLIENT | PRODUCER | CONSUMER.
Inductive StatusCode := UNSET | OK | ERROR.

Global Instance SpanKind_eq_dec : EqDecision SpanKind.
Proof. solve_decision. Defined.
Global Instance StatusCode_eq_dec : EqDecision StatusCode.
Proof. solve_decision. Defined.

Record SpanContext := {
  trace_id : Z;       (* 128 bit *)
  span_id : Z;        (* 64 bit *)
  trace_flags : Z;    (* bit 0: sampled *)
  trace_state : string;  (* the tracestate header value, "" when empty *)
  is_remote : bool
}.

(** [SpanContext.is_valid]: both ids are non-zero. *)
Definition is_valid (sc : SpanContext) : bool :=
  negb (trace_id sc =? 0)%Z && negb (span_id sc =? 0)%Z.

Definition sampled (sc : SpanContext) : bool := Z.testbit (trace_flags sc) 0.

(** An OpenTelemetry [Context]: the span it carries (if any) and its
    baggage entries. *)
Record Context := {
  ctx_span : option SpanContext;
  ctx_baggage : gmap string string
}.

Definition empty_context : Context :=
  {| ctx_span := None; ctx_baggage := ∅ |}.

(** The sampled flag of the span a context carries; a context without a
    span yields the invalid span, whose flags are 0. *)
Definition context_sampled (c : Context) : bool :=
  match ctx_span c with
  | Some sc => sampled sc
  | None => false
  end.

Record Span := {
  sp_name : string;
  sp_kind : SpanKind;
  sp_context : SpanContext;
  sp_parent : option SpanContext;
  sp_attributes : list (string * option string);
  sp_status : StatusCode;
  sp_exceptions : list exn;   (* exception events, oldest first *)
  sp_ended : bool
}.

(* ===================================================================== *)
(** ** Instruments (opentelemetry.metrics) and [QueueMetrics]             *)
(* ===================================================================== *)

Inductive InstrumentKind := CounterKind | HistogramKind.

(** An instrument object of the meter.  [inst_points] keeps every
    measurement handed to it, oldest first: the amounts added to a
    counter, the values recorded on a histogram. *)
Record Instrument := {
  inst_kind : InstrumentKind;
  inst_name : string;
  inst_description : string;
  inst_unit : string;
  inst_points : list Z
}.

Definition add_point (v : Z) (i : Instrument) : Instrument :=
  {| inst_kind := inst_kind i; inst_name := inst_name i;
     inst_description := inst_description i; inst_unit := inst_unit i;
     inst_points := inst_points i ++ [v] |}.

(** The value of a counter: the sum of the amounts added. *)
Definition total (pts : list Z) : Z := foldr Z.add 0%Z pts.

(** The dataclass [QueueMetrics]; an instrument object is referred to by
    its index in the meter's list of instruments. *)
Record QueueMetrics := {
  published_counter : nat;
  consumed_counter : nat;
  processing_time : nat;
  queue_time : nat;
  message_size : nat;
  retry_counter : nat
}.

Global Instance QueueMetrics_eq_dec : EqDecision QueueMetrics.
Proof. solve_decision. Defined.

Definition handles (m : QueueMetrics) : list nat :=
  [published_counter m; consumed_counter m; processing_time m;
   queue_time m; message_size m; retry_counter m].

(* ===================================================================== *)
(** ** The world                                                          *)
(* ===================================================================== *)

(** The meter's instruments together with the dictionary
    [self.metrics_by_queue] of the instrumentation object. *)
Record metrics_state := Metrics {
  instruments : list Instrument;
  metrics_by_queue : gmap string QueueMetrics
}.

Record world := World {
  w_spans : list Span;        (* the tracer's spans *)
  w_metrics : metrics_state;  (* the meter and [metrics_by_queue] *)
  w_current : Context;        (* context.get_current() *)
  w_draws : nat;              (* ids generated so far *)
  w_log : list string         (* records sent to [logger] *)
}.

(** The world after [RabbitMQInstrumentation.__init__] in a fresh process:
    [_setup_metrics] sets [metrics_by_queue] to the empty dict. *)
Definition initial_metrics : metrics_state := Metrics [] ∅.

Definition initial_world : world :=
  World [] initial_metrics empty_context 0 [].

Definition with_instruments (f : list Instrument → list Instrument)
    (ms : metrics_state) : metrics_state :=
  Metrics (f (instruments ms)) (metrics_by_queue ms).

Definition with_metrics_by_queue
    (f : gmap string QueueMetrics → gmap string QueueMetrics)
    (ms : metrics_state) : metrics_state :=
  Metrics (instruments ms) (f (metrics_by_queue ms)).

Definition with_spans (f : list Span → list Span) (w : world) : world :=
  World (f (w_spans w)) (w_metrics w) (w_current w) (w_draws w) (w_log w).

Definition with_metrics (ms : metrics_state) (w : world) : world :=
  World (w_spans w) ms (w_current w) (w_draws w) (w_log w).

Definition with_current (c : Context) (w : world) : world :=
  World (w_spans w) (w_metrics w) c (w_draws w) (w_log w).

Definition with_draw (w : world) : world :=
  World (w_spans w) (w_metrics w) (w_current w) (S (w_draws w)) (w_log w).

Definition with_log (line : string) (w : world) : world :=
  World (w_spans w) (w_metrics w) (w_current w) (w_draws w)
        (w_log w ++ [line]).

(* ===================================================================== *)
(** ** The monad of effectful Python code                                 *)
(* ===================================================================== *)

(** A computation over a state [S]: it returns or raises, and leaves a
    new state either way. *)
Definition M (S A : Type) : Type := S → outcome A * S.

Definition ret {S A} (a : A) : M S A := λ s, (Return a, s).

Definition raise {S A} (e : exn) : M S A := λ s, (Raise e, s).

Definition bind {S A B} (m : M S A) (k : A → M S B) : M S B :=
  λ s, match m s with
       | (Return a, s') => k a s'
       | (Raise e, s') => (Raise e, s')
       end.

(** A call to a function that does not touch the state. *)
Definition call {S A} (o : outcome A) : M S A := λ s, (o, s).

(** Reading the state. *)
Definition gets {S A} (f : S → A) : M S A := λ s, (Return (f s), s).

(** A total state update. *)
Definition modify {S} (f : S → S) : M S unit := λ s, (Return tt, f s).

(** A computation on the meter, run inside the world. *)
Definition on_metrics {A} (m : M metrics_state A) : M world A :=
  λ w, let '(o, ms) := m (w_metrics w) in (o, with_metrics ms w).

Declare Scope py_scope.
Delimit Scope py_scope with py.
Notation "x <- m ;; k" := (bind m (λ x, k))
  (at level 100, m at next level, right associativity) : py_scope.
Notation "m ;; k" := (bind m (λ _, k))
  (at level 100, right associativity) : py_scope.
Local Open Scope py_scope.

(** [try: body  except Exception as e: handler e].  An exception whose
    class does not derive from [Exception] is not caught. *)
Definition try_except_Exception {S A} (body : M S A) (handler : exn → M S A)
    : M S A :=
  λ s, match body s with
       | (Return a, s') => (Return a, s')
       | (Raise e, s') =>
           if exc_is_Exception e then handler e s' else (Raise e, s')
       end.
(* ===================================================================== *)
(** ** The OpenTelemetry SDK, as far as the code depends on it            *)
(* ===================================================================== *)

(** The calls the code makes on the meter and on its instruments. *)
Inductive meter_call :=
  | CreateCounter (name : string)
  | CreateHistogram (name : string)
  | CounterAdd (name : string) (amount : Z)
  | HistogramRecord (name : string) (value : Z).

(** What the SDK decides on its own:
    - whether a call on the meter raises ([None]: it does not); the SDK
      raises, for instance, when asked for an instrument whose name is not
      a valid instrument name;
    - the ids its generator draws;
    - whether [Span.__exit__] records an exception that leaves a
      [with tracer.start_span(...)] block;
    - the encoding and decoding of the [baggage] header and the parser of
      the [traceparent] header. *)
Class SDK := {
  meter_fault : meter_call → option exn;
  generate_trace_id : nat → Z;
  generate_span_id : nat → Z;
  span_exit_records : exn → bool;
  encode_baggage : gmap string string → string;
  decode_baggage : string → gmap string string;
  parse_traceparent : string → option SpanContext
}.

(** A meter none of whose calls raises. *)
Definition healthy `{SDK} : Prop := ∀ c, meter_fault c = None.

Section Model.
Context `{sdk : SDK}.

(** *** The meter *)

(** [meter.create_counter] and [meter.create_histogram].  Every call
    that returns hands out a new instrument object, as the meter that
    [metrics.get_meter] returns by default does (the proxy meter of the
    API).  A meter of the SDK asked for a name it has registered returns
    the instrument it holds; the two differ only where a name is created
    a second time, that is after a creation that stopped half-way and
    under concurrent first access. *)
Definition create_instrument (kind : InstrumentKind) (name description unit : string)
    : M metrics_state nat :=
  λ ms,
    let c := match kind with
             | CounterKind => CreateCounter name
             | HistogramKind => CreateHistogram name
             end in
    match meter_fault c with
    | Some e => (Raise e, ms)
    | None =>
        (Return (length (instruments ms)),
         with_instruments
           (λ l, l ++ [{| inst_kind := kind; inst_name := name;
                          inst_description := description;
                          inst_unit := unit; inst_points := [] |}]) ms)
    end.

(** [meter.create_counter(name=..., description=...)]; the unit defaults
    to the empty string. *)
Definition create_counter (name description : string)
    : M metrics_state nat :=
  create_instrument CounterKind name description "".

(** [meter.create_histogram(name=..., description=..., unit=...)] *)
Definition create_histogram (name description unit : string)
    : M metrics_state nat :=
  create_instrument HistogramKind name description unit.

Definition instrument_name (h : nat) (ms : metrics_state) : string :=
  match instruments ms !! h with
  | Some i => inst_name i
  | None => ""
  end.

(** [counter.add(amount)] on the instrument object [h]. *)
Definition counter_add (h : nat) (amount : Z) : M metrics_state unit :=
  λ ms,
    match meter_fault (CounterAdd (instrument_name h ms) amount) with
    | Some e => (Raise e, ms)
    | None => (Return tt, with_instruments (alter (add_point amount) h) ms)
    end.

(** [histogram.record(value)] on the instrument object [h]. *)
Definition histogram_record (h : nat) (value : Z)
    : M metrics_state unit :=
  λ ms,
    match meter_fault (HistogramRecord (instrument_name h ms) value) with
    | Some e => (Raise e, ms)
    | None => (Return tt, with_instruments (alter (add_point value) h) ms)
    end.

(** The measurements held by the instrument object [h]. *)
Definition points (h : nat) (ms : metrics_state) : list Z :=
  match instruments ms !! h with
  | Some i => inst_points i
  | None => []
  end.

(** *** [RabbitMQInstrumentation._get_queue_metrics] *)

(** Line 45: [queue_name not in self.metrics_by_queue]. *)
Definition not_in_metrics_by_queue (queue_name : string)
    : M metrics_state bool :=
  gets (λ ms, bool_decide (metrics_by_queue ms !! queue_name = None)).

(** Lines 46-74: the six instruments are created in the order of the
    keyword arguments, then the new [QueueMetrics] is stored. *)
Definition create_queue_metrics (queue_name : string)
    : M metrics_state unit :=
  published <- create_counter
    ("rabbitmq." +:+ queue_name +:+ ".published")
    ("Number of messages published to " +:+ queue_name) ;;
  consumed <- create_counter
    ("rabbitmq." +:+ queue_name +:+ ".consumed")
    ("Number of messages consumed from " +:+ queue_name) ;;
  processing <- create_histogram
    ("rabbitmq." +:+ queue_name +:+ ".processing_time")
    ("Time taken to process messages from " +:+ queue_name) "ms" ;;
  queue <- create_histogram
    ("rabbitmq." +:+ queue_name +:+ ".queue_time")
    ("Time messages spend in " +:+ queue_name) "ms" ;;
  size <- create_histogram
    ("rabbitmq." +:+ queue_name +:+ ".message_size")
    ("Size of messages in " +:+ queue_name) "bytes" ;;
  retries <- create_counter
    ("rabbitmq." +:+ queue_name +:+ ".retries")
    ("Number of message retries in " +:+ queue_name) ;;
  modify (with_metrics_by_queue
            (insert queue_name
               {| published_counter := published;
                  consumed_counter := consumed;
                  processing_time := processing; queue_time := queue;
                  message_size := size; retry_counter := retries |})).

(** Line 75: [self.metrics_by_queue[queue_name]]. *)
Definition lookup_queue_metrics (queue_name : string)
    : M metrics_state QueueMetrics :=
  λ ms,
    match metrics_by_queue ms !! queue_name with
    | Some metrics => (Return metrics, ms)
    | None => (Raise (KeyError queue_name), ms)
    end.

Definition _get_queue_metrics (queue_name : string)
    : M metrics_state QueueMetrics :=
  absent <- not_in_metrics_by_queue queue_name ;;
  (if absent : bool then create_queue_metrics queue_name else ret tt) ;;
  lookup_queue_metrics queue_name.

(** *** Concurrent callers of [_get_queue_metrics]

    The method takes no lock.  A thread that runs it is at one of its
    three statements; the interpreter may switch threads between any two
    of them (it may switch between any two bytecodes). *)

Inductive gqm_pc :=
  | AtCheck                                (* before line 45 *)
  | AtCreate                               (* before lines 46-74 *)
  | AtReturn                               (* before line 75 *)
  | Finished (o : outcome QueueMetrics).

Record thread := Thread {
  th_queue_name : string;
  th_pc : gqm_pc
}.

(** The thread runs its next statement. *)
Definition thread_step (t : thread) (w : metrics_state)
    : thread * metrics_state :=
  let q := th_queue_name t in
  match th_pc t with
  | AtCheck =>
      match not_in_metrics_by_queue q w with
      | (Return true, w') => (Thread q AtCreate, w')
      | (Return false, w') => (Thread q AtReturn, w')
      | (Raise e, w') => (Thread q (Finished (Raise e)), w')
      end
  | AtCreate =>
      match create_queue_metrics q w with
      | (Return _, w') => (Thread q AtReturn, w')
      | (Raise e, w') => (Thread q (Finished (Raise e)), w')
      end
  | AtReturn =>
      let '(o, w') := lookup_queue_metrics q w in
      (Thread q (Finished o), w')
  | Finished _ => (t, w)
  end.

(** A schedule names, step by step, the thread that runs next. *)
Fixpoint run_schedule (schedule : list nat) (threads : list thread)
    (w : metrics_state) : list thread * metrics_state :=
  match schedule with
  | [] => (threads, w)
  | i :: schedule' =>
      match threads !! i with
      | None => run_schedule schedule' threads w
      | Some t =>
          let '(t', w') := thread_step t w in
          run_schedule schedule' (<[i := t']> threads) w'
      end
  end.

(** Sequential calls, one after the other, with their outcomes. *)
Fixpoint run_calls (names : list string) (w : metrics_state)
    : list (outcome QueueMetrics) * metrics_state :=
  match names with
  | [] => ([], w)
  | q :: names' =>
      let '(o, w') := _get_queue_metrics q w in
      let '(os, w'') := run_calls names' w' in
      (o :: os, w'')
  end.

(** *** The tracer *)

Definition span_set_status (code : StatusCode) (sp : Span) : Span :=
  if sp_ended sp then sp
  else match sp_status sp, code with
       | OK, _ => sp          (* OK is final *)
       | _, UNSET => sp       (* UNSET is never assigned *)
       | _, _ =>
           {| sp_name := sp_name sp; sp_kind := sp_kind sp;
              sp_context := sp_context sp; sp_parent := sp_parent sp;
              sp_attributes := sp_attributes sp; sp_status := code;
              sp_exceptions := sp_exceptions sp; sp_ended := false |}
       end.

Definition span_record_exception (e : exn) (sp : Span) : Span :=
  if sp_ended sp then sp
  else {| sp_name := sp_name sp; sp_kind := sp_kind sp;
          sp_context := sp_context sp; sp_parent := sp_parent sp;
          sp_attributes := sp_attributes sp; sp_status := sp_status sp;
          sp_exceptions := sp_exceptions sp ++ [e]; sp_ended := false |}.

Definition span_end (sp : Span) : Span :=
  {| sp_name := sp_name sp; sp_kind := sp_kind sp;
     sp_context := sp_context sp; sp_parent := sp_parent sp;
     sp_attributes := sp_attributes sp; sp_status := sp_status sp;
     sp_exceptions := sp_exceptions sp; sp_ended := true |}.

(** [span.set_status(Status(code))] on the span object [s]. *)
Definition set_status (s : nat) (code : StatusCode) : M world unit :=
  modify (with_spans (alter (span_set_status code) s)).

(** [span.record_exception(e)] *)
Definition record_exception (s : nat) (e : exn) : M world unit :=
  modify (with_spans (alter (span_record_exception e) s)).

(** [span.end()] *)
Definition end_span (s : nat) (w : world) : world :=
  with_spans (alter span_end s) w.

(** The context of a new span: the trace id is the parent's, or a fresh
    one for a root span; the span id is fresh.  The span is sampled (the
    tracer provider is set up with [sample_rate = 1.0]). *)
Definition child_context (parent : option SpanContext) (draw : nat)
    : SpanContext :=
  {| trace_id := match parent with
                 | Some p => trace_id p
                 | None => generate_trace_id draw
                 end;
     span_id := generate_span_id draw;
     trace_flags := 1;
     trace_state := match parent with
                    | Some p => trace_state p
                    | None => ""
                    end;
     is_remote := false |}.

(** A span as it is started: recording, status [UNSET], no event. *)
Definition new_span (name : string) (kind : SpanKind) (sc : SpanContext)
    (parent : option SpanContext)
    (attributes : list (string * option string)) : Span :=
  {| sp_name := name; sp_kind := kind; sp_context := sc;
     sp_parent := parent; sp_attributes := attributes;
     sp_status := UNSET; sp_exceptions := []; sp_ended := false |}.

(** [tracer.start_span(name, context, kind, attributes)].  The parent is
    the span of [context], or of the current context when [context] is
    [None]. *)
Definition start_span (name : string) (context : option Context)
    (kind : SpanKind) (attributes : list (string * option string))
    (w : world) : nat * world :=
  let parent := ctx_span (default (w_current w) context) in
  let sp :=
    new_span name kind (child_context parent (w_draws w)) parent attributes in
  (length (w_spans w), with_draw (with_spans (λ l, l ++ [sp]) w)).

(** The span context of the span object [s]. *)
Definition get_span_context (s : nat) (w : world) : option SpanContext :=
  sp_context <$> (w_spans w !! s).

(** Entering [with tracer.start_as_current_span(name, kind, attributes)]:
    the span is started as a child of the current span and made the
    current span. *)
Definition start_as_current_span (name : string) (kind : SpanKind)
    (attributes : list (string * option string)) (w : world) : nat * world :=
  let '(s, w1) := start_span name None kind attributes w in
  (s, with_current {| ctx_span := get_span_context s w1;
                      ctx_baggage := ctx_baggage (w_current w) |} w1).

(** Leaving [with tracer.start_as_current_span(...)] with outcome [o]
    ([opentelemetry.trace.use_span] with its defaults): the previous
    current context is restored; an exception deriving from [Exception] is
    recorded on the span and sets its status to [ERROR]; the span is
    ended. *)
Definition use_span_exit {A} (s : nat) (saved : Context) (o : outcome A)
    (w : world) : world :=
  let w1 := with_current saved w in
  let w2 :=
    match o with
    | Raise e =>
        if exc_is_Exception e
        then with_spans (alter (λ sp, span_set_status ERROR
                                        (span_record_exception e sp)) s) w1
        else w1
    | Return _ => w1
    end in
  end_span s w2.

(** Leaving [with tracer.start_span(...)] with outcome [o]
    ([Span.__exit__]): the SDK may record the exception and set the status
    to [ERROR]; the span is ended. *)
Definition span_exit {A} (s : nat) (o : outcome A) (w : world) : world :=
  let w1 :=
    match o with
    | Raise e =>
        if span_exit_records e
        then with_spans (alter (λ sp, span_set_status ERROR
                                        (span_record_exception e sp)) s) w
        else w
    | Return _ => w
    end in
  end_span s w1.

(** *** The propagators (opentelemetry.propagate) *)

(** The [traceparent] header value: [00-<trace id>-<span id>-<flags>]. *)
Definition traceparent (sc : SpanContext) : string :=
  "00-" +:+ format_hex 32 (trace_id sc) +:+ "-" +:+
  format_hex 16 (span_id sc) +:+ "-" +:+ format_hex 2 (trace_flags sc).

(** [TraceContextTextMapPropagator.inject(carrier, context)]: nothing is
    written when the context carries no span. *)
Definition tracecontext_inject (c : Context) (carrier : gmap string string)
    : gmap string string :=
  match ctx_span c with
  | None => carrier
  | Some sc =>
      let carrier' := <["traceparent" := traceparent sc]> carrier in
      if String.eqb (trace_state sc) "" then carrier'
      else <["tracestate" := trace_state sc]> carrier'
  end.

(** [W3CBaggagePropagator.inject(carrier, context)]: nothing is written
    when there is no baggage. *)
Definition baggage_inject (c : Context) (carrier : gmap string string)
    : gmap string string :=
  if decide (ctx_baggage c = ∅) then carrier
  else <["baggage" := encode_baggage (ctx_baggage c)]> carrier.

(** [TraceContextTextMapPropagator.extract(carrier, context)]; with
    [context=None] the result is built on an empty [Context()].  A missing
    or unparsable header, or one with an all-zero id, leaves the context
    as it is. *)
Definition tracecontext_extract (carrier : gmap string string)
    (context : option Context) : Context :=
  let base := default empty_context context in
  match carrier !! "traceparent" with
  | None => base
  | Some header =>
      match parse_traceparent header with
      | None => base
      | Some sc =>
          if is_valid sc
          then {| ctx_span :=
                    Some {| trace_id := trace_id sc; span_id := span_id sc;
                            trace_flags := trace_flags sc;
                            trace_state :=
                              default "" (carrier !! "tracestate");
                            is_remote := true |};
                  ctx_baggage := ctx_baggage base |}
          else base
      end
  end.

(** [W3CBaggagePropagator.extract(carrier, context)]; with [context=None]
    the result is built on the current context.  The entries of the header
    are set on top of those of the context. *)
Definition baggage_extract (carrier : gmap string string)
    (context : option Context) (w : world) : Context :=
  let base := default (w_current w) context in
  match carrier !! "baggage" with
  | None => base
  | Some header =>
      {| ctx_span := ctx_span base;
         ctx_baggage := decode_baggage header ∪ ctx_baggage base |}
  end.

(** [opentelemetry.propagate.inject(carrier)]: the global propagator is
    the composite of the trace-context and the baggage propagator, applied
    to the current context. *)
Definition inject (carrier : gmap string string) (w : world)
    : gmap string string :=
  baggage_inject (w_current w) (tracecontext_inject (w_current w) carrier).

(** [opentelemetry.propagate.extract(carrier)]: the composite hands the
    context returned by one propagator to the next. *)
Definition extract (carrier : gmap string string) (w : world) : Context :=
  baggage_extract carrier (Some (tracecontext_extract carrier None)) w.

(** *** [pika.BasicProperties] *)

Record BasicProperties := {
  content_type : option string;
  content_encoding : option string;
  headers : option (gmap string string);
  delivery_mode : option Z;
  priority : option Z;
  correlation_id : option string;
  reply_to : option string;
  expiration : option string;
  message_id : option string;
  timestamp : option Z;
  type : option string;
  user_id : option string;
  app_id : option string;
  cluster_id : option string
}.

(** [pika.BasicProperties()]: every field is [None]. *)
Definition BasicProperties_new : BasicProperties :=
  {| content_type := None; content_encoding := None; headers := None;
     delivery_mode := None; priority := None; correlation_id := None;
     reply_to := None; expiration := None; message_id := None;
     timestamp := None; type := None; user_id := None; app_id := None;
     cluster_id := None |}.

(** [properties.headers = h] *)
Definition set_headers (h : option (gmap string string))
    (p : BasicProperties) : BasicProperties :=
  {| content_type := content_type p; content_encoding := content_encoding p;
     headers := h;
     delivery_mode := delivery_mode p; priority := priority p;
     correlation_id := correlation_id p; reply_to := reply_to p;
     expiration := expiration p; message_id := message_id p;
     timestamp := timestamp p; type := type p; user_id := user_id p;
     app_id := app_id p; cluster_id := cluster_id p |}.

(** [properties.correlation_id = c] *)
Definition set_correlation_id (c : option string)
    (p : BasicProperties) : BasicProperties :=
  {| content_type := content_type p; content_encoding := content_encoding p;
     headers := headers p;
     delivery_mode := delivery_mode p; priority := priority p;
     correlation_id := c; reply_to := reply_to p;
     expiration := expiration p; message_id := message_id p;
     timestamp := timestamp p; type := type p; user_id := user_id p;
     app_id := app_id p; cluster_id := cluster_id p |}.

(** [properties.headers or {}] *)
Definition headers_or_empty (p : BasicProperties) : gmap string string :=
  match headers p with
  | None => ∅
  | Some h => if decide (h = ∅) then ∅ else h
  end.

(** *** [RabbitMQInstrumentation.instrument_publisher] *)

(** The type of [channel.basic_publish]: exchange, routing key, body,
    properties, mandatory.  Line 83 takes whatever callable the channel
    holds: pika's method, which acts on the broker, or code of this
    process, such as the function [instrument_publisher] installed
    before.  The call may start spans, record metrics, change the current
    context and mutate the properties object it is handed; it returns or
    raises, and leaves the properties object and the world. *)
Definition basic_publish_t (R : Type) : Type :=
  string → string → bytes → BasicProperties → bool → world →
  outcome R * BasicProperties * world.

(** Lines 127-130: the metrics recorded after the delegate returned. *)
Definition record_published (routing_key : string) (body : bytes)
    : M metrics_state unit :=
  metrics <- _get_queue_metrics routing_key ;;
  counter_add (published_counter metrics) 1 ;;
  histogram_record (message_size metrics) (len body).

(** The handler of both wrappers:
    [except Exception as e: span.set_status(Status(StatusCode.ERROR));
     span.record_exception(e); raise]. *)
Definition mark_error_and_reraise {A} (span : nat) (e : exn) : M world A :=
  set_status span ERROR ;;
  record_exception span e ;;
  raise e.

(** Lines 93-96: a properties object with a headers map. *)
Definition ensure_headers (properties : option BasicProperties)
    : BasicProperties :=
  let properties := default BasicProperties_new properties in
  match headers properties with
  | None => set_headers (Some ∅) properties
  | Some _ => properties
  end.

(** The attributes of the publish span. *)
Definition publish_attributes (routing_key : string)
    (properties : BasicProperties) : list (string * option string) :=
  [("messaging.system", Some "rabbitmq");
   ("messaging.destination", Some routing_key);
   ("messaging.destination_kind", Some "queue");
   ("messaging.protocol", Some "AMQP");
   ("messaging.message_id", message_id properties)].

(** Lines 110-115, inside the span: the context is injected into the
    headers, and the correlation id is set when it is falsy. *)
Definition prepare_properties (span : nat) (properties : BasicProperties)
    (w : world) : BasicProperties :=
  let properties :=
    set_headers (Some (inject (default ∅ (headers properties)) w))
      properties in
  if truthy (correlation_id properties) then properties
  else set_correlation_id
         (Some (format_hex 16
                  (default 0%Z (span_id <$> get_span_context span w))))
         properties.

(** A computation on the world, run beside the properties object. *)
Definition on_world {A} (m : M world A) : M (BasicProperties * world) A :=
  λ pw, let '(o, w) := m pw.2 in (o, (pw.1, w)).

(** The call of the delegate on the properties object. *)
Definition call_publish {R} (original_basic_publish : basic_publish_t R)
    (exchange routing_key : string) (body : bytes) (mandatory : bool)
    : M (BasicProperties * world) R :=
  λ pw, let '(o, p, w) :=
          original_basic_publish exchange routing_key body pw.1 mandatory
            pw.2 in
        (o, (p, w)).

(** Lines 117-136: the delegate and the metrics, in the [try]. *)
Definition publish_and_record {R} (original_basic_publish : basic_publish_t R)
    (exchange routing_key : string) (body : bytes) (mandatory : bool)
    (span : nat) : M (BasicProperties * world) R :=
  try_except_Exception
    (result <- call_publish original_basic_publish exchange routing_key body
                 mandatory ;;
     on_world (on_metrics (record_published routing_key body)) ;;
     ret result)
    (λ e, on_world (mark_error_and_reraise span e)).

(** [instrumented_publish], the function installed as
    [channel.basic_publish].  Besides the outcome and the world, the
    result holds the properties object as the call leaves it: the
    caller's object or the one created on line 94, mutated in place by
    the wrapper and then by the delegate. *)
Definition instrumented_publish {R} (original_basic_publish : basic_publish_t R)
    (exchange routing_key : string) (body : bytes)
    (properties : option BasicProperties) (mandatory : bool) (w : world)
    : outcome R * BasicProperties * world :=
  let properties := ensure_headers properties in
  let saved := w_current w in
  let '(span, w) :=
    start_as_current_span ("publish " +:+ routing_key) PRODUCER
      (publish_attributes routing_key properties) w in
  let properties := prepare_properties span properties w in
  let '(o, (properties, w)) :=
    publish_and_record original_basic_publish exchange routing_key body
      mandatory span (properties, w) in
  (o, properties, use_span_exit span saved o w).

(** [instrument_publisher(channel)]: the new [channel.basic_publish],
    put in the place of [original_basic_publish] (line 138). *)
Definition instrument_publisher {R} (original_basic_publish : basic_publish_t R)
    : basic_publish_t R :=
  λ exchange routing_key body properties mandatory w,
    instrumented_publish original_basic_publish exchange routing_key body
      (Some properties) mandatory w.

(** *** [RabbitMQInstrumentation.instrument_consumer] *)

(** The type of a consumer callback: channel, method frame, properties,
    body.  Line 196 runs whatever callable was given: it may publish on
    the channel, start spans, record metrics and change the current
    context; it returns or raises and leaves the world. *)
Definition callback_t (Ch Method R : Type) : Type :=
  Ch → Method → BasicProperties → bytes → M world R.

(** Lines 181-187: the metrics recorded before the callback runs. *)
Definition record_consumed (queue : string) (hdrs : gmap string string)
    (body : bytes) : M metrics_state unit :=
  metrics <- _get_queue_metrics queue ;;
  counter_add (consumed_counter metrics) 1 ;;
  histogram_record (message_size metrics) (len body) ;;
  if decide (is_Some (hdrs !! "x-first-death-exchange"))
  then counter_add (retry_counter metrics) 1
  else ret tt.

(** Lines 189-196: the callback inside its [process <queue>] span. *)
Definition process {Ch Method R} (queue : string)
    (callback : callback_t Ch Method R) (ch : Ch) (method : Method)
    (properties : BasicProperties) (body : bytes) : M world R :=
  λ w,
    let '(inner, w) :=
      start_span ("process " +:+ queue) None INTERNAL
        [("messaging.operation", Some "process")] w in
    let '(o, w) := callback ch method properties body w in
    (o, span_exit inner o w).

(** The attributes of the consume span. *)
Definition consume_attributes (queue : string) (properties : BasicProperties)
    : list (string * option string) :=
  [("messaging.system", Some "rabbitmq");
   ("messaging.destination", Some queue);
   ("messaging.destination_kind", Some "queue");
   ("messaging.protocol", Some "AMQP");
   ("messaging.message_id", message_id properties);
   ("messaging.correlation_id", correlation_id properties)].

(** Lines 180-202: the metrics and the callback, in the [try]. *)
Definition record_and_process {Ch Method R} (queue : string)
    (callback : callback_t Ch Method R) (ch : Ch) (method : Method)
    (properties : BasicProperties) (body : bytes)
    (hdrs : gmap string string) (span : nat) : M world R :=
  try_except_Exception
    (on_metrics (record_consumed queue hdrs body) ;;
     process queue callback ch method properties body)
    (mark_error_and_reraise span).

Definition instrumented_callback {Ch Method R} (queue : string)
    (callback : callback_t Ch Method R) (ch : Ch) (method : Method)
    (properties : BasicProperties) (body : bytes) (w : world)
    : outcome R * world :=
  let hdrs := headers_or_empty properties in
  let ctx := extract hdrs w in
  let '(span, w) :=
    start_span ("consume " +:+ queue) (Some ctx) CONSUMER
      (consume_attributes queue properties) w in
  let '(o, w) :=
    record_and_process queue callback ch method properties body hdrs span w in
  (o, span_exit span o w).

(** *** [HomelabTelemetry.inject_context] and [extract_context] *)

(** The carrier after [inject_context(carrier)]: the trace-context
    propagator, then the baggage propagator, both on the current
    context. *)
Definition inject_context (carrier : gmap string string) (w : world)
    : gmap string string :=
  baggage_inject (w_current w) (tracecontext_inject (w_current w) carrier).

(** A positional argument of a Python call. *)
Inductive pyval :=
  | PyStr (s : string)
  | PyContext (c : Context).

(** What Python raises when [set_baggage] is called with one argument. *)
Definition set_baggage_arity_error : exn :=
  TypeError "set_baggage() missing 1 required positional argument: 'value'".

(** [opentelemetry.baggage.set_baggage(name, value, context=None)]
    returns a new context holding the entry; the current context is not
    touched.  [name] and [value] are required: a call that binds fewer
    than two positional arguments, or more than three, raises
    [TypeError]. *)
Definition set_baggage (args : list pyval) : M world Context :=
  λ w,
    match args with
    | [] =>
        (Raise (TypeError
           "set_baggage() missing 2 required positional arguments: 'name' and 'value'"), w)
    | [_] => (Raise set_baggage_arity_error, w)
    | [PyStr name; PyStr value] =>
        (Return {| ctx_span := ctx_span (w_current w);
                   ctx_baggage := <[name := value]> (ctx_baggage (w_current w)) |},
         w)
    | [PyStr name; PyStr value; PyContext c] =>
        (Return {| ctx_span := ctx_span c;
                   ctx_baggage := <[name := value]> (ctx_baggage c) |}, w)
    | [_; _] | [_; _; _] =>
        (Raise (TypeError "unhashable type: 'Context'"), w)
    | _ =>
        (Raise (TypeError
           "set_baggage() takes from 2 to 3 positional arguments"), w)
    end.

Definition extract_context (carrier : gmap string string)
    : M world Context :=
  context <- ret (tracecontext_extract carrier None) ;;
  extracted <- gets (baggage_extract carrier None) ;;
  set_baggage [PyContext extracted] ;;
  ret context.

(** *** [TracingHelper.extract_context_from_rabbitmq] *)

Definition extract_context_from_rabbitmq (properties : BasicProperties)
    : M world Context :=
  let hdrs := headers_or_empty properties in
  ctx <- gets (extract hdrs) ;;
  modify (with_log "DEBUG Extracted context from RabbitMQ headers") ;;
  ret ctx.

End Model.

(* ===================================================================== *)
(** ** The channel and the retry topology                                 *)
(* ===================================================================== *)

Inductive arg_value :=
  | ArgInt (n : Z)
  | ArgStr (s : string).

Global Instance arg_value_eq_dec : EqDecision arg_value.
Proof. solve_decision. Defined.

(** What has been declared on a channel: the exchanges with their type,
    the queues with their arguments, the bindings (queue, exchange,
    routing key) in the order they were made. *)
Record channel := Channel {
  exchanges : gmap string string;
  queues : gmap string (gmap string arg_value);
  bindings : list (string * string * string)
}.

Definition fresh_channel : channel := Channel ∅ ∅ [].

(** [channel.exchange_declare(exchange, exchange_type)] *)
Definition exchange_declare (exchange exchange_type : string)
    (ch : channel) : channel :=
  Channel (<[exchange := exchange_type]> (exchanges ch)) (queues ch)
          (bindings ch).

(** [channel.queue_declare(queue, arguments=...)] *)
Definition queue_declare (queue : string)
    (arguments : gmap string arg_value) (ch : channel) : channel :=
  Channel (exchanges ch) (<[queue := arguments]> (queues ch)) (bindings ch).

(** [channel.queue_bind(queue, exchange, routing_key)] *)
Definition queue_bind (queue exchange routing_key : string)
    (ch : channel) : channel :=
  Channel (exchanges ch) (queues ch)
          (bindings ch ++ [(queue, exchange, routing_key)]).

(** [RabbitMQInstrumentation.create_dlq_policy]; the body does not use
    [max_retries]. *)
Definition create_dlq_policy (ch : channel) (queue : string)
    (max_retries : Z) : channel :=
  let dlx_exchange := queue +:+ ".dlx" in
  let dlq := queue +:+ ".dlq" in
  let ch := exchange_declare dlx_exchange "direct" ch in
  let ch :=
    queue_declare dlq
      (<["x-message-ttl" := ArgInt 30000]>
         (<["x-dead-letter-exchange" := ArgStr ""]>
            (<["x-dead-letter-routing-key" := ArgStr queue]> ∅))) ch in
  let ch := queue_bind dlq dlx_exchange queue ch in
  queue_declare queue
    (<["x-dead-letter-exchange" := ArgStr dlx_exchange]>
       (<["x-dead-letter-routing-key" := ArgStr queue]> ∅)) ch.

(** *** The broker

    Modelled from the spec: the external broker that enforces the retry
    topology (section 4.5 and the broker collaborator of section 6): a
    message a consumer fails on, or whose time-to-live expires, is
    dead-lettered to the dead-letter exchange of the queue it sits in,
    with that queue's dead-letter routing key. *)

(** Where one message is. *)
Inductive location :=
  | Queued (queue : string)
  | Discarded.

Global Instance location_eq_dec : EqDecision location.
Proof. solve_decision. Defined.

(** Modelled from the spec: routing by the broker.  The default exchange
    (the empty name) delivers to the queue named by the routing key; a
    declared direct exchange delivers to the queue bound with that key. *)
Definition route (ch : channel) (exchange routing_key : string)
    : location :=
  if String.eqb exchange "" then
    match queues ch !! routing_key with
    | Some _ => Queued routing_key
    | None => Discarded
    end
  else
    match exchanges ch !! exchange with
    | None => Discarded
    | Some _ =>
        match filter (λ b, b.1.2 = exchange ∧ b.2 = routing_key)
                     (bindings ch) with
        | b :: _ => Queued b.1.1
        | [] => Discarded
        end
    end.

(** Modelled from the spec: dead-lettering of a message that sits in
    [queue] and was published with [routing_key].  Without a dead-letter
    exchange the message is discarded. *)
Definition dead_letter (ch : channel) (queue routing_key : string)
    : location :=
  match queues ch !! queue with
  | None => Discarded
  | Some args =>
      match args !! "x-dead-letter-exchange" with
      | Some (ArgStr dlx) =>
          route ch dlx
            match args !! "x-dead-letter-routing-key" with
            | Some (ArgStr k) => k
            | _ => routing_key
            end
      | _ => Discarded
      end
  end.

(** The state of a message whose consumer always fails: where it is, and
    how many times it has been redelivered to the primary queue. *)
Record delivery := Delivery {
  dl_location : location;
  dl_redeliveries : nat
}.

(** Modelled from the spec: one step of the broker on such a message.
    [READY -> DELAYED]: in the primary queue the consumer fails and the
    message is dead-lettered.  [DELAYED -> READY]: in a queue with a
    time-to-live the message expires and is dead-lettered.  In any other
    queue, or once discarded, the message stays where it is: that is a
    terminal state. *)
Definition broker_step (ch : channel) (primary : string) (d : delivery)
    : delivery :=
  match dl_location d with
  | Discarded => d
  | Queued q =>
      if String.eqb q primary
      then Delivery (dead_letter ch q primary) (dl_redeliveries d)
      else
        match queues ch !! q with
        | Some args =>
            match args !! "x-message-ttl" with
            | Some _ =>
                let l := dead_letter ch q primary in
                Delivery l
                  (if decide (l = Queued primary)
                   then S (dl_redeliveries d) else dl_redeliveries d)
            | None => d
            end
        | None => d
        end
  end.

Fixpoint broker_steps (n : nat) (ch : channel) (primary : string)
    (d : delivery) : delivery :=
  match n with
  | O => d
  | S n' => broker_steps n' ch primary (broker_step ch primary d)
  end.

(** A message is in a terminal state when no step moves it. *)
Definition terminal (ch : channel) (primary : string) (d : delivery)
    : Prop :=
  broker_step ch primary d = d.

(* ===================================================================== *)
(** ** Two SDKs and sample inputs, to run the model                       *)
(* ===================================================================== *)

(** An SDK whose meter never raises.  Ids are drawn as 1, 2, 3, ...;
    [Span.__exit__] records every exception that leaves the block; the
    baggage header lists [key=value] pairs. *)
Definition plain_sdk : SDK :=
  {| meter_fault := λ _, None;
     generate_trace_id := λ n, Z.of_nat (S n);
     generate_span_id := λ n, Z.of_nat (S n);
     span_exit_records := λ _, true;
     encode_baggage :=
       λ b, String.concat ","
              ((λ kv, kv.1 +:+ "=" +:+ kv.2) <$> map_to_list b);
     decode_baggage := λ _, ∅;
     parse_traceparent := λ _, None |}.

Definition is_alpha (c : ascii) : bool :=
  let n := nat_of_ascii c in
  ((65 <=? n) && (n <=? 90)) || ((97 <=? n) && (n <=? 122)).

Definition is_name_char (c : ascii) : bool :=
  let n := nat_of_ascii c in
  is_alpha c || ((48 <=? n) && (n <=? 57)) ||
  (n =? 45) || (n =? 95) || (n =? 46) || (n =? 47).

(** The instrument names the SDK accepts: a letter, then up to 254
    letters, digits and [-_./]. *)
Definition valid_instrument_name (name : string) : bool :=
  match name with
  | EmptyString => false
  | String c rest =>
      is_alpha c && forallb is_name_char (list_ascii_of_string rest)
      && (String.length rest <=? 254)
  end.

Definition invalid_name_error (name : string) : exn :=
  Exn "Exception"
      ("Expected ASCII string of maximum length 255 characters but got "
         +:+ name) true.

(** An SDK whose meter raises when asked for an instrument with an invalid
    name, and is otherwise like [plain_sdk]. *)
Definition strict_sdk : SDK :=
  {| meter_fault :=
       λ c, match c with
            | CreateCounter name | CreateHistogram name =>
                if valid_instrument_name name then None
                else Some (invalid_name_error name)
            | _ => None
            end;
     generate_trace_id := λ n, Z.of_nat (S n);
     generate_span_id := λ n, Z.of_nat (S n);
     span_exit_records := λ _, true;
     encode_baggage :=
       λ b, String.concat ","
              ((λ kv, kv.1 +:+ "=" +:+ kv.2) <$> map_to_list b);
     decode_baggage := λ _, ∅;
     parse_traceparent := λ _, None |}.

(** An SDK whose meter raises when 1 is added to the counter
    [rabbitmq.orders.published], and is otherwise like [plain_sdk]. *)
Definition add_refusing_sdk : SDK :=
  {| meter_fault :=
       λ c, match c with
            | CounterAdd name _ =>
                if String.eqb name "rabbitmq.orders.published"
                then Some (Exn "RuntimeError" "exporter shut down" true)
                else None
            | _ => None
            end;
     generate_trace_id := λ n, Z.of_nat (S n);
     generate_span_id := λ n, Z.of_nat (S n);
     span_exit_records := λ _, true;
     encode_baggage :=
       λ b, String.concat ","
              ((λ kv, kv.1 +:+ "=" +:+ kv.2) <$> map_to_list b);
     decode_baggage := λ _, ∅;
     parse_traceparent := λ _, None |}.

(** A body of 120 bytes. *)
Definition body_120 : bytes := repeat Byte.x00 120.

(** A [basic_publish] that acts on the broker only: it returns or raises,
    and leaves the properties object and the world as they are. *)
Definition broker_publish {R} (o : outcome R) : basic_publish_t R :=
  λ _ _ _ properties _ w, (o, properties, w).

(** Delegates and callbacks that return, and that raise. *)
Definition publish_ok : basic_publish_t unit := broker_publish (Return tt).

Definition publish_interrupted : basic_publish_t unit :=
  broker_publish (Raise KeyboardInterrupt).

Definition publish_fails : basic_publish_t unit :=
  broker_publish (Raise (Exn "AMQPConnectionError" "connection lost" true)).

Definition callback_ok : callback_t unit unit unit := λ _ _ _ _, ret tt.

Definition callback_fails : callback_t unit unit unit :=
  λ _ _ _ _, raise (ValueError "bad payload").

Definition callback_interrupted : callback_t unit unit unit :=
  λ _ _ _ _, raise KeyboardInterrupt.


Definition first_delivery_properties : BasicProperties :=
  set_headers (Some (<["content-language" := "en"]> ∅)) BasicProperties_new.

(** Properties a caller passes to a publish. *)
Definition caller_properties : BasicProperties :=
  set_correlation_id (Some "request-42")
    (set_headers (Some (<["tenant" := "blue"]> ∅)) BasicProperties_new).

(* ===================================================================== *)
(** ** Observations on the metrics, used to state the properties          *)
(* ===================================================================== *)

(** The [QueueMetrics] built from six instruments created in a row, the
    first of them being instrument number [n]. *)
Definition queue_metrics_at (n : nat) : QueueMetrics :=
  {| published_counter := n; consumed_counter := n + 1;
     processing_time := n + 2; queue_time := n + 3;
     message_size := n + 4; retry_counter := n + 5 |}.

(** The six instruments of a queue, as created, without measurements. *)
Definition new_instruments (queue_name : string) : list Instrument :=
  [ {| inst_kind := CounterKind;
       inst_name := "rabbitmq." +:+ queue_name +:+ ".published";
       inst_description := "Number of messages published to " +:+ queue_name;
       inst_unit := ""; inst_points := [] |};
    {| inst_kind := CounterKind;
       inst_name := "rabbitmq." +:+ queue_name +:+ ".consumed";
       inst_description := "Number of messages consumed from " +:+ queue_name;
       inst_unit := ""; inst_points := [] |};
    {| inst_kind := HistogramKind;
       inst_name := "rabbitmq." +:+ queue_name +:+ ".processing_time";
       inst_description :=
         "Time taken to process messages from " +:+ queue_name;
       inst_unit := "ms"; inst_points := [] |};
    {| inst_kind := HistogramKind;
       inst_name := "rabbitmq." +:+ queue_name +:+ ".queue_time";
       inst_description := "Time messages spend in " +:+ queue_name;
       inst_unit := "ms"; inst_points := [] |};
    {| inst_kind := HistogramKind;
       inst_name := "rabbitmq." +:+ queue_name +:+ ".message_size";
       inst_description := "Size of messages in " +:+ queue_name;
       inst_unit := "bytes"; inst_points := [] |};
    {| inst_kind := CounterKind;
       inst_name := "rabbitmq." +:+ queue_name +:+ ".retries";
       inst_description := "Number of message retries in " +:+ queue_name;
       inst_unit := ""; inst_points := [] |} ].

(** The instrument objects a [QueueMetrics] refers to exist and are six
    different objects. *)
Definition queue_metrics_ok (n : nat) (m : QueueMetrics) : Prop :=
  NoDup (handles m) ∧ Forall (λ h, h < n) (handles m).

(** Every [QueueMetrics] in the dictionary is of that kind; this holds of
    the initial state and is kept by every operation of the code. *)
Definition metrics_wf (ms : metrics_state) : Prop :=
  map_Forall (λ _ m, queue_metrics_ok (length (instruments ms)) m)
             (metrics_by_queue ms).

(** The measurements of one instrument of a queue; none when the queue
    has no instruments yet. *)
Definition queue_points (sel : QueueMetrics → nat) (queue_name : string)
    (ms : metrics_state) : list Z :=
  match metrics_by_queue ms !! queue_name with
  | Some m =>
      match instruments ms !! sel m with
      | Some i => inst_points i
      | None => []
      end
  | None => []
  end.

Definition published_total (q : string) (ms : metrics_state) : Z :=
  total (queue_points published_counter q ms).

Definition consumed_total (q : string) (ms : metrics_state) : Z :=
  total (queue_points consumed_counter q ms).

Definition retry_total (q : string) (ms : metrics_state) : Z :=
  total (queue_points retry_counter q ms).

Definition size_observations (q : string) (ms : metrics_state) : list Z :=
  queue_points message_size q ms.


(** A lower-case hexadecimal digit. *)
Definition is_hex_char (c : ascii) : bool :=
  bool_decide (c ∈ list_ascii_of_string "0123456789abcdef").

(** The header keys the propagators write. *)
Definition propagation_keys : list string :=
  ["traceparent"; "tracestate"; "baggage"].

Section Stages.
Context `{sdk : SDK}.

(** The span a publish starts, and the world its body runs in. *)
Definition publish_span (rk : string) (p0 : BasicProperties) (w : world)
    : Span :=
  new_span ("publish " +:+ rk) PRODUCER
    (child_context (ctx_span (w_current w)) (w_draws w))
    (ctx_span (w_current w)) (publish_attributes rk p0).

Definition publish_world (rk : string) (p0 : BasicProperties) (w : world)
    : world :=
  World (w_spans w ++ [publish_span rk p0 w]) (w_metrics w)
    {| ctx_span := Some (sp_context (publish_span rk p0 w));
       ctx_baggage := ctx_baggage (w_current w) |}
    (S (w_draws w)) (w_log w).

(** The properties object as the delegate receives it (lines 93-115). *)
Definition sent_properties (rk : string) (props : option BasicProperties)
    (w : world) : BasicProperties :=
  prepare_properties (length (w_spans w)) (ensure_headers props)
    (publish_world rk (ensure_headers props) w).

(** The call of the delegate (lines 119-125), with what it leaves. *)
Definition delegate_call {R} (f : basic_publish_t R) (exchange rk : string)
    (body : bytes) (props : option BasicProperties) (mandatory : bool)
    (w : world) : outcome R * BasicProperties * world :=
  f exchange rk body (sent_properties rk props w) mandatory
    (publish_world rk (ensure_headers props) w).

(** What the publish raises or returns, and the metrics it leaves, once
    the delegate has left [d] (lines 127-136). *)
Definition publish_outcome {R} (rk : string) (body : bytes)
    (d : outcome R * BasicProperties * world) : outcome R * metrics_state :=
  match d.1.1 with
  | Return x =>
      match record_published rk body (w_metrics d.2) with
      | (Return _, ms) => (Return x, ms)
      | (Raise e, ms) => (Raise e, ms)
      end
  | Raise e => (Raise e, w_metrics d.2)
  end.

(** What the handler [except Exception] of a wrapper does to the spans
    when the [try] is left with [o]. *)
Definition handler_marks {A} (s : nat) (o : outcome A) (spans : list Span)
    : list Span :=
  match o with
  | Raise e =>
      if exc_is_Exception e
      then alter (span_record_exception e) s
             (alter (span_set_status ERROR) s spans)
      else spans
  | Return _ => spans
  end.

(** What leaving [with tracer.start_as_current_span(...)] with [o] does
    to the spans, before the span is ended. *)
Definition use_span_marks {A} (s : nat) (o : outcome A) (spans : list Span)
    : list Span :=
  match o with
  | Raise e =>
      if exc_is_Exception e
      then alter (λ sp, span_set_status ERROR (span_record_exception e sp)) s
             spans
      else spans
  | Return _ => spans
  end.

(** What leaving [with tracer.start_span(...)] with [o] does to the
    spans, before the span is ended. *)
Definition span_exit_marks {A} (s : nat) (o : outcome A) (spans : list Span)
    : list Span :=
  match o with
  | Raise e =>
      if span_exit_records e
      then alter (λ sp, span_set_status ERROR (span_record_exception e sp)) s
             spans
      else spans
  | Return _ => spans
  end.

(** The span a delivery starts, and the world its body runs in. *)
Definition consume_span (queue : string) (properties : BasicProperties)
    (w : world) : Span :=
  let parent := ctx_span (extract (headers_or_empty properties) w) in
  new_span ("consume " +:+ queue) CONSUMER
    (child_context parent (w_draws w)) parent
    (consume_attributes queue properties).

Definition consume_world (queue : string) (properties : BasicProperties)
    (w : world) : world :=
  World (w_spans w ++ [consume_span queue properties w]) (w_metrics w)
    (w_current w) (S (w_draws w)) (w_log w).

(** The span around the callback. *)
Definition process_span (queue : string) (w : world) : Span :=
  new_span ("process " +:+ queue) INTERNAL
    (child_context (ctx_span (w_current w)) (w_draws w))
    (ctx_span (w_current w)) [("messaging.operation", Some "process")].

(** The world the callback runs in, once the metric calls have returned
    and have left the metrics [ms] (line 196): the consume span and the
    process span are started, neither is current. *)
Definition callback_world (queue : string) (properties : BasicProperties)
    (ms : metrics_state) (w : world) : world :=
  World (w_spans w ++ [consume_span queue properties w;
                       process_span queue (consume_world queue properties w)])
    ms (w_current w) (S (S (w_draws w))) (w_log w).

(** The call of the callback, with what it leaves. *)
Definition callback_call {Ch Method R} (cb : callback_t Ch Method R)
    (ch : Ch) (method : Method) (properties : BasicProperties) (body : bytes)
    (queue : string) (ms : metrics_state) (w : world) : outcome R * world :=
  cb ch method properties body (callback_world queue properties ms w).

End Stages.

(* ===================================================================== *)
(** ** The rest of the three modules                                      *)
(* ===================================================================== *)

Section MoreModel.
Context `{sdk : SDK}.

(** *** [opentelemetry.trace.use_span] and the current span *)

(** Leaving [with trace.use_span(span, end_on_exit)]: the previous
    current context is restored; an exception deriving from [Exception]
    is recorded on the span and sets its status to [ERROR]; the span is
    ended only when [end_on_exit] is set.  [use_span]'s own default is
    [end_on_exit=False]; [tracer.start_as_current_span] passes [True]. *)
Definition use_span_leave {A} (end_on_exit : bool) (s : nat)
    (saved : Context) (o : outcome A) (w : world) : world :=
  let w1 := with_current saved w in
  let w2 :=
    match o with
    | Raise e =>
        if exc_is_Exception e
        then with_spans (alter (λ sp, span_set_status ERROR
                                        (span_record_exception e sp)) s) w1
        else w1
    | Return _ => w1
    end in
  if end_on_exit then end_span s w2 else w2.

(** [INVALID_SPAN_CONTEXT], the context of [trace.get_current_span()]
    when no span is current. *)
Definition INVALID_SPAN_CONTEXT : SpanContext :=
  {| trace_id := 0; span_id := 0; trace_flags := 0; trace_state := "";
     is_remote := false |}.

(** [trace.get_current_span().get_span_context()] *)
Definition current_span_context (w : world) : SpanContext :=
  default INVALID_SPAN_CONTEXT (ctx_span (w_current w)).

(** Truthiness of a [Context], which is a dict: it is falsy when it
    holds nothing, neither a span nor baggage. *)
Definition context_truthy (c : Context) : bool :=
  bool_decide (ctx_span c ≠ None ∨ ctx_baggage c ≠ ∅).

(** The attributes of a dict, as the list handed to the span. *)
Definition attributes_of (d : gmap string string)
    : list (string * option string) :=
  (λ kv, (kv.1, Some kv.2)) <$> map_to_list d.

(** *** [HomelabTelemetry]: spans and the [instrument] decorator *)

(** [HomelabTelemetry.create_span(name, context, kind, attributes)] *)
Definition create_span (name : string) (context : option Context)
    (kind : SpanKind) (attributes : option (gmap string string))
    (w : world) : nat * world :=
  start_span name context kind
    (default [] (attributes_of <$> attributes)) w.

(** [HomelabTelemetry.span_in_context]: the span is created, then made
    current by [trace.use_span(span)], which does not end it. *)
Definition span_in_context {A} (name : string) (kind : SpanKind)
    (attributes : option (gmap string string)) (body : nat → M world A)
    : M world A :=
  λ w,
    let '(span, w1) := create_span name None kind attributes w in
    let saved := w_current w1 in
    let w2 :=
      with_current {| ctx_span := get_span_context span w1;
                      ctx_baggage := ctx_baggage saved |} w1 in
    let '(o, w3) := body span w2 in
    (o, use_span_leave false span saved o w3).

(** [name or func.__name__] *)
Definition span_name_or (name : option string) (func_name : string)
    : string :=
  if truthy name then default "" name else func_name.

(** The [wrapper] that [HomelabTelemetry.instrument(name, kind,
    attributes)] puts around [func]. *)
Definition instrument {R} (name : option string) (kind : SpanKind)
    (attributes : option (gmap string string)) (func_name : string)
    (func : M world R) : M world R :=
  span_in_context (span_name_or name func_name) kind attributes
    (λ span,
       try_except_Exception func
         (λ e, record_exception span e ;;
               set_status span ERROR ;;
               raise e)).

(** [HomelabTelemetry._setup_auto_instrumentation]: each instrumentor is
    given by its class name and by what its [instrument()] does. *)
Fixpoint _setup_auto_instrumentation
    (instrumentors : list (string * outcome unit)) : M world unit :=
  match instrumentors with
  | [] => ret tt
  | (class_name, instrument_call) :: rest =>
      try_except_Exception (call instrument_call)
        (λ e, modify (with_log ("DEBUG Failed to initialize " +:+ class_name
                                  +:+ ": " +:+ exc_value e))) ;;
      _setup_auto_instrumentation rest
  end.

(** [TelemetryTestMixin.get_spans(name)] over the recorded spans. *)
Definition get_spans (spans : list Span) (name : option string)
    : list Span :=
  if truthy name
  then filter (λ span, sp_name span = default "" name) spans
  else spans.

(** *** [TracingHelper] *)

(** [TracingHelper.extract_context_from_request(headers)] *)
Definition extract_context_from_request (hdrs : gmap string string)
    : M world Context :=
  ctx <- gets (extract hdrs) ;;
  modify (with_log "DEBUG Extracted context from headers") ;;
  ret ctx.

(** The attributes [TracingHelper.create_span] hands to the tracer:
    [attributes or {}] with ["service.name"] set. *)
Definition helper_span_attributes (service_name : string)
    (attributes : option (gmap string string)) : gmap string string :=
  <["service.name" := service_name]> (default ∅ attributes).

(** [TracingHelper.create_span(name, kind, attributes, parent_context)] *)
Definition helper_create_span (service_name name : string) (kind : SpanKind)
    (attributes : option (gmap string string))
    (parent_context : option Context) : M world nat :=
  λ w,
    let ctx :=
      match parent_context with
      | Some c => if context_truthy c then c else w_current w
      | None => w_current w
      end in
    let '(span, w1) :=
      start_span name (Some ctx) kind
        (attributes_of (helper_span_attributes service_name attributes)) w in
    (Return span, with_log "DEBUG Created span" w1).

(** [TracingHelper.inject_context_to_headers(headers)]: [headers or {}],
    then the injection. *)
Definition inject_context_to_headers (hdrs : option (gmap string string))
    : M world (gmap string string) :=
  injected <- gets (inject (default ∅ hdrs)) ;;
  modify (with_log "DEBUG Injected context to headers") ;;
  ret injected.

(** [TracingHelper.propagate_context_to_rabbitmq(properties)] *)
Definition propagate_context_to_rabbitmq (properties : BasicProperties)
    : M world BasicProperties :=
  let properties :=
    match headers properties with
    | None => set_headers (Some ∅) properties
    | Some _ => properties
    end in
  injected <- gets (inject (default ∅ (headers properties))) ;;
  modify (with_log "DEBUG Injected context to RabbitMQ headers") ;;
  ret (set_headers (Some injected) properties).

(** The [wrapper] that [TracingHelper.instrument_function(span_name,
    kind, attributes)] puts around [func]. *)
Definition instrument_function {R} (span_name : string) (kind : SpanKind)
    (attributes : option (gmap string string)) (func : M world R)
    : M world R :=
  λ w,
    let saved := w_current w in
    let '(span, w1) :=
      start_as_current_span span_name kind
        (default [] (attributes_of <$> attributes)) w in
    let '(o, w2) :=
      try_except_Exception func (mark_error_and_reraise span) w1 in
    (o, use_span_exit span saved o w2).

(** A value of the dictionaries the two [correlate_with_*] methods
    build. *)
Inductive json_value :=
  | JStr (s : string)
  | JInt (n : Z).

(** [TracingHelper.correlate_with_logs(log_message,
    additional_attributes)]; [json_dumps] is [json.dumps]. *)
Definition correlate_with_logs (json_dumps : gmap string json_value → string)
    (service_name log_message : string)
    (additional_attributes : option (gmap string json_value))
    : M world (gmap string json_value) :=
  span_context <- gets current_span_context ;;
  let log_context :=
    <["service.name" := JStr service_name]>
      (<["trace_flags" := JInt (trace_flags span_context)]>
         (<["span_id" := JStr (format_hex 16 (span_id span_context))]>
            (<["trace_id" := JStr (format_hex 32 (trace_id span_context))]>
               (<["message" := JStr log_message]>
                  (default ∅ additional_attributes))))) in
  modify (with_log ("INFO " +:+ json_dumps log_context)) ;;
  ret log_context.

(** [TracingHelper.correlate_with_metrics(metric_name, attributes)] *)
Definition correlate_with_metrics (service_name metric_name : string)
    (attributes : option (gmap string json_value))
    : M world (gmap string json_value) :=
  span_context <- gets current_span_context ;;
  let metric_attributes :=
    <["service.name" := JStr service_name]>
      (<["span_id" := JStr (format_hex 16 (span_id span_context))]>
         (<["trace_id" := JStr (format_hex 32 (trace_id span_context))]>
            (default ∅ attributes))) in
  modify (with_log ("DEBUG Added trace context to metric: " +:+ metric_name)) ;;
  ret metric_attributes.

(** The span a decorator starts around [func], and the world [func]
    runs in: the span is the current one. *)
Definition decorated_span (name : string) (kind : SpanKind)
    (attributes : option (gmap string string)) (w : world) : Span :=
  new_span name kind (child_context (ctx_span (w_current w)) (w_draws w))
    (ctx_span (w_current w)) (default [] (attributes_of <$> attributes)).

Definition decorated_world (name : string) (kind : SpanKind)
    (attributes : option (gmap string string)) (w : world) : world :=
  World (w_spans w ++ [decorated_span name kind attributes w]) (w_metrics w)
    {| ctx_span := Some (sp_context (decorated_span name kind attributes w));
       ctx_baggage := ctx_baggage (w_current w) |}
    (S (w_draws w)) (w_log w).

End MoreModel.

(* ===================================================================== *)
(** ** More observations, and an SDK that parses [traceparent]            *)
(* ===================================================================== *)

(** The log lines of the instrumentors whose [instrument()] raises, in
    the order of the list. *)
Definition failure_lines (instrumentors : list (string * outcome unit))
    : list string :=
  omap (λ i, match i.2 with
             | Raise e => Some ("DEBUG Failed to initialize " +:+ i.1
                                  +:+ ": " +:+ exc_value e)
             | Return _ => None
             end) instrumentors.

(** No instrument object belongs to two queues. *)
Definition metrics_disjoint (ms : metrics_state) : Prop :=
  ∀ q q' m m' h,
    q ≠ q' →
    metrics_by_queue ms !! q = Some m →
    metrics_by_queue ms !! q' = Some m' →
    h ∈ handles m → h ∉ handles m'.

(** An update of a span object that keeps what the span was started
    with: name, kind, parent, context and attributes. *)
Definition span_update (g : Span → Span) : Prop :=
  ∀ sp, sp_name (g sp) = sp_name sp ∧ sp_kind (g sp) = sp_kind sp ∧
        sp_parent (g sp) = sp_parent sp ∧
        sp_context (g sp) = sp_context sp ∧
        sp_attributes (g sp) = sp_attributes sp.

(** The instrument objects of a [QueueMetrics] are of the kinds its
    fields are given on lines 47-73: the published, the consumed and the
    retry counter are counters, the three others histograms. *)
Definition queue_metrics_kinds (ins : list Instrument) (m : QueueMetrics)
    : Prop :=
  inst_kind <$> ins !! published_counter m = Some CounterKind ∧
  inst_kind <$> ins !! consumed_counter m = Some CounterKind ∧
  inst_kind <$> ins !! processing_time m = Some HistogramKind ∧
  inst_kind <$> ins !! queue_time m = Some HistogramKind ∧
  inst_kind <$> ins !! message_size m = Some HistogramKind ∧
  inst_kind <$> ins !! retry_counter m = Some CounterKind.

Definition metrics_kinded (ms : metrics_state) : Prop :=
  map_Forall (λ _ m, queue_metrics_kinds (instruments ms) m)
             (metrics_by_queue ms).

(** The invariant of the metric registry. *)
Definition metrics_inv (ms : metrics_state) : Prop :=
  metrics_wf ms ∧ metrics_disjoint ms ∧ metrics_kinded ms.

(** [int(s, 16)] on lower-case hexadecimal digits. *)
Definition hex_char_value (c : ascii) : option Z :=
  let n := Z.of_nat (nat_of_ascii c) in
  if ((48 <=? n) && (n <=? 57))%Z then Some (n - 48)%Z
  else if ((97 <=? n) && (n <=? 102))%Z then Some (n - 87)%Z
  else None.

Fixpoint parse_hex_from (acc : Z) (s : list ascii) : option Z :=
  match s with
  | [] => Some acc
  | c :: s' =>
      match hex_char_value c with
      | Some d => parse_hex_from (16 * acc + d)%Z s'
      | None => None
      end
  end.

Definition parse_hex (s : string) : option Z :=
  match s with
  | EmptyString => None
  | _ => parse_hex_from 0 (list_ascii_of_string s)
  end.

(** A parser of [00-<32 hex>-<16 hex>-<2 hex>]. *)
Definition w3c_parse_traceparent (header : string) : option SpanContext :=
  if (String.length header =? 55)
     && String.eqb (substring 0 3 header) "00-"
     && String.eqb (substring 35 1 header) "-"
     && String.eqb (substring 52 1 header) "-"
  then
    match parse_hex (substring 3 32 header),
          parse_hex (substring 36 16 header),
          parse_hex (substring 53 2 header) with
    | Some tid, Some sid, Some flags =>
        Some {| trace_id := tid; span_id := sid; trace_flags := flags;
                trace_state := ""; is_remote := true |}
    | _, _, _ => None
    end
  else None.

(** An SDK like [plain_sdk] that parses the [traceparent] header. *)
Definition w3c_sdk : SDK :=
  {| meter_fault := λ _, None;
     generate_trace_id := λ n, Z.of_nat (S n);
     generate_span_id := λ n, Z.of_nat (S n);
     span_exit_records := λ _, true;
     encode_baggage :=
       λ b, String.concat ","
              ((λ kv, kv.1 +:+ "=" +:+ kv.2) <$> map_to_list b);
     decode_baggage := λ _, ∅;
     parse_traceparent := w3c_parse_traceparent |}.

(** A world in which a span of trace [0xabc] is current. *)
Definition active_context : Context :=
  {| ctx_span := Some {| trace_id := 2748; span_id := 77; trace_flags := 1;
                         trace_state := ""; is_remote := false |};
     ctx_baggage := ∅ |}.

Definition active_world : world :=
  World [] initial_metrics active_context 0 [].

(** Functions to decorate: one that returns, one that raises. *)
Definition func_ok : M world Z := λ w, (Return 42%Z, w).

Definition func_fails : M world Z :=
  λ w, (Raise (ValueError "bad input"), w).

(** Instrumentors of which the second and the fourth fail. *)
Definition sample_instrumentors : list (string * outcome unit) :=
  [("RequestsInstrumentor", Return tt);
   ("FlaskInstrumentor", Raise (Exn "ImportError" "No module named flask" true));
   ("FastAPIInstrumentor", Return tt);
   ("DjangoInstrumentor",
    Raise (Exn "ImproperlyConfigured" "settings are not configured" true));
   ("PikaInstrumentor", Return tt)].

(** A queue name of 235 characters: with it the names of the two
    counters created first are valid instrument names, that of the
    processing-time histogram is too long. *)
Definition long_queue_name : string :=
  string_of_list_ascii (repeat "q"%char 235).

(* ===================================================================== *)
(** * Properties                                                          *)
(* ===================================================================== *)

(** ** Strings and hexadecimal formatting *)

Lemma string_length_app (s t : string) :
  String.length (s +:+ t) = String.length s + String.length t.
Proof. induction s as [|c s IH]; simpl; [done | by rewrite IH]. Qed.

(** A name with a suffix added differs from the name itself. *)
Lemma string_app_ne (s t : string) : t ≠ "" → s +:+ t ≠ s.
Proof.
  intros Ht Heq. apply (f_equal String.length) in Heq.
  rewrite string_length_app in Heq.
  destruct t; [done | simpl in Heq; lia].
Qed.

Lemma string_app_nonempty (s t : string) : t ≠ "" → s +:+ t ≠ "".
Proof. intros Ht. destruct s; simpl; [done | discriminate]. Qed.

Lemma string_eqb_false (s t : string) : s ≠ t → String.eqb s t = false.
Proof. intros Hne. by apply String.eqb_neq. Qed.

Lemma string_of_list_ascii_length (l : list ascii) :
  String.length (string_of_list_ascii l) = length l.
Proof. induction l as [|c l IH]; simpl; [done | by rewrite IH]. Qed.

Lemma hex_digit_is_hex (d : Z) : is_hex_char (hex_digit d) = true.
Proof.
  unfold hex_digit.
  destruct d as [|p|p]; try reflexivity;
    do 4 (try destruct p as [p|p|]; try reflexivity).
Qed.

Lemma hex_digits_all_hex (fuel : nat) (n : Z) (acc : list ascii) :
  Forall (λ c, is_hex_char c = true) acc →
  Forall (λ c, is_hex_char c = true) (hex_digits fuel n acc).
Proof.
  revert n acc. induction fuel as [|fuel IH]; intros n acc Hacc; simpl.
  - done.
  - destruct (n <? 16)%Z.
    + constructor; [apply hex_digit_is_hex | done].
    + apply IH. constructor; [apply hex_digit_is_hex | done].
Qed.

(** A number below [16 ^ k] has at most [k] digits. *)
Lemma hex_digits_length_le (fuel : nat) :
  ∀ (k : nat) (n : Z) (acc : list ascii),
    1 ≤ k → (0 ≤ n < 16 ^ Z.of_nat k)%Z →
    length (hex_digits fuel n acc) ≤ k + length acc.
Proof.
  induction fuel as [|fuel IH]; intros k n acc Hk Hn; simpl.
  - lia.
  - destruct (Z.ltb_spec n 16) as [Hlt|Hge]; simpl; [lia|].
    destruct k as [|[|k]];
      [lia | change (16 ^ Z.of_nat 1)%Z with 16%Z in Hn; lia |].
    specialize (IH (S k) (n / 16)%Z (hex_digit (n mod 16) :: acc)).
    simpl length in IH.
    assert (0 ≤ n / 16 < 16 ^ Z.of_nat (S k))%Z as Hdiv.
    { split; [apply Z.div_pos; lia|].
      apply Z.div_lt_upper_bound; [lia|].
      replace (Z.of_nat (S (S k))) with (Z.of_nat (S k) + 1)%Z in Hn by lia.
      rewrite Z.pow_add_r in Hn by lia. lia. }
    specialize (IH ltac:(lia) Hdiv). lia.
Qed.

(** [format(n, "0<width>x")] has exactly [width] characters when [n] fits
    in [width] digits, and they are hexadecimal digits. *)
Lemma format_hex_length (width : nat) (n : Z) :
  1 ≤ width → (0 ≤ n < 16 ^ Z.of_nat width)%Z →
  String.length (format_hex width n) = width.
Proof.
  intros Hw Hn.
  pose proof (hex_digits_length_le (S (Z.to_nat (Z.log2 n))) width n [] Hw Hn)
    as Hlen.
  unfold format_hex, hex. cbv zeta.
  set (ds := hex_digits _ n []) in *.
  rewrite string_of_list_ascii_length, length_app, repeat_length.
  change (length (@nil ascii)) with 0 in Hlen. lia.
Qed.

Lemma format_hex_all_hex (width : nat) (n : Z) :
  Forall (λ c, is_hex_char c = true)
         (list_ascii_of_string (format_hex width n)).
Proof.
  unfold format_hex. rewrite list_ascii_of_string_of_list_ascii.
  apply Forall_app. split.
  - apply Forall_forall. intros c Hc%list_elem_of_In%repeat_spec. by subst.
  - apply hex_digits_all_hex. constructor.
Qed.

(** ** Reading back what [format(n, "0<width>x")] writes *)

Lemma hex_char_value_digit (d : Z) :
  (0 ≤ d < 16)%Z → hex_char_value (hex_digit d) = Some d.
Proof.
  intros Hd.
  assert (d = 0 ∨ d = 1 ∨ d = 2 ∨ d = 3 ∨ d = 4 ∨ d = 5 ∨ d = 6 ∨ d = 7 ∨
          d = 8 ∨ d = 9 ∨ d = 10 ∨ d = 11 ∨ d = 12 ∨ d = 13 ∨ d = 14 ∨
          d = 15)%Z as Hcases by lia.
  repeat (destruct Hcases as [->|Hcases]; [reflexivity|]). by subst.
Qed.


Lemma parse_hex_from_zeros (k : nat) (l : list ascii) :
  parse_hex_from 0 (repeat "0"%char k ++ l) = parse_hex_from 0 l.
Proof. induction k as [|k IH]; simpl; [done|]. exact IH. Qed.

(** The digits [hex_digits] pushes in front of [acc] read back as [n]. *)
Lemma parse_hex_digits (fuel : nat) :
  ∀ (n : Z) (acc : list ascii) (a : Z),
    (0 ≤ n < 16 ^ Z.of_nat fuel)%Z →
    parse_hex_from a (hex_digits fuel n acc) =
      parse_hex_from
        (a * 16 ^ Z.of_nat (length (hex_digits fuel n acc) - length acc) + n)
        acc.
Proof.
  induction fuel as [|fuel IH]; intros n acc a Hn.
  - simpl in *. assert (n = 0)%Z as -> by lia.
    replace (length acc - length acc) with 0 by lia. simpl.
    f_equal. lia.
  - simpl. destruct (Z.ltb_spec n 16) as [Hlt|Hge].
    + simpl. rewrite hex_char_value_digit by lia.
      replace (S (length acc) - length acc) with 1 by lia.
      f_equal. change (16 ^ Z.of_nat 1)%Z with 16%Z. lia.
    + assert (0 ≤ n / 16 < 16 ^ Z.of_nat fuel)%Z as Hdiv.
      { split; [apply Z.div_pos; lia|].
        apply Z.div_lt_upper_bound; [lia|].
        replace (Z.of_nat (S fuel)) with (Z.of_nat fuel + 1)%Z in Hn by lia.
        rewrite Z.pow_add_r in Hn by lia. lia. }
      rewrite (IH _ _ _ Hdiv). simpl parse_hex_from at 1.
      rewrite hex_char_value_digit by (apply Z.mod_pos_bound; lia).
      assert (length (hex_digit (n mod 16) :: acc) ≤
              length (hex_digits fuel (n / 16) (hex_digit (n mod 16) :: acc)))
        as Hlen.
      { clear. generalize (hex_digit (n mod 16) :: acc) as l.
        generalize (n / 16)%Z as k.
        induction fuel as [|fuel IH]; intros k l; simpl; [lia|].
        destruct (k <? 16)%Z; simpl; [lia|].
        etransitivity; [|apply IH]. simpl. lia. }
      simpl length in Hlen.
      set (L := length (hex_digits fuel (n / 16) (hex_digit (n mod 16) :: acc)))
        in *.
      replace (L - length acc) with (S (L - S (length acc))) by lia.
      f_equal. rewrite Nat2Z.inj_succ, Z.pow_succ_r by lia.
      pose proof (Z.div_mod n 16 ltac:(lia)). lia.
Qed.

Lemma log2_fuel (n : Z) :
  (0 ≤ n)%Z → (n < 16 ^ Z.of_nat (S (Z.to_nat (Z.log2 n))))%Z.
Proof.
  intros Hn. destruct (Z.eq_dec n 0%Z) as [->|Hne]; [done|].
  pose proof (Z.log2_nonneg n) as Hnn.
  pose proof (Z.log2_spec n ltac:(lia)) as [_ Hlt].
  eapply Z.lt_le_trans; [exact Hlt|].
  rewrite Nat2Z.inj_succ, Z2Nat.id by lia.
  change 16%Z with (2 ^ 4)%Z. rewrite <- Z.pow_mul_r by lia.
  apply Z.pow_le_mono_r; lia.
Qed.

Lemma format_hex_roundtrip (width : nat) (n : Z) :
  (0 ≤ n)%Z →
  parse_hex_from 0 (list_ascii_of_string (format_hex width n)) = Some n.
Proof.
  intros Hn. unfold format_hex. cbv zeta.
  rewrite list_ascii_of_string_of_list_ascii, parse_hex_from_zeros.
  unfold hex. rewrite parse_hex_digits by (split; [done|by apply log2_fuel]).
  simpl. f_equal; lia.
Qed.


(** ** The metric registry *)

Section Registry.
Context `{sdk : SDK}.

Lemma total_snoc (pts : list Z) (v : Z) : total (pts ++ [v]) = (total pts + v)%Z.
Proof. unfold total. induction pts as [|p pts IH]; simpl; lia. Qed.

Lemma create_instrument_healthy kind name description unit ms :
  healthy →
  create_instrument kind name description unit ms =
    (Return (length (instruments ms)),
     with_instruments
       (λ l, l ++ [{| inst_kind := kind; inst_name := name;
                      inst_description := description; inst_unit := unit;
                      inst_points := [] |}]) ms).
Proof.
  intros Hh. unfold create_instrument.
  by destruct kind; rewrite Hh.
Qed.

(** A creation either stores nothing, or stores six instruments created in
    a row. *)
Lemma create_queue_metrics_spec q ms o ms' :
  create_queue_metrics q ms = (o, ms') →
  (∃ e extra, o = Raise e ∧
     ms' = Metrics (instruments ms ++ extra) (metrics_by_queue ms)) ∨
  (o = Return tt ∧
     ms' = Metrics (instruments ms ++ new_instruments q)
             (<[q := queue_metrics_at (length (instruments ms))]>
                (metrics_by_queue ms))).
Proof.
  unfold create_queue_metrics, create_counter, create_histogram,
    create_instrument, bind, modify, with_instruments, with_metrics_by_queue.
  destruct ms as [ins reg]. simpl.
  repeat
    (match goal with
     | |- context [meter_fault ?c] =>
         destruct (meter_fault c) as [?e|]; simpl;
         [intros [= <- <-]; left; eexists _, _; split; [done|];
          f_equal; rewrite <- ?(assoc_L (++)); first [by rewrite app_nil_r | done]
         |]
     end).
  intros [= <- <-]. right. split; [done|].
  rewrite !length_app. simpl.
  rewrite <- !(assoc_L (++)). simpl. unfold queue_metrics_at.
  f_equal. f_equal. f_equal; lia.
Qed.

Lemma create_queue_metrics_healthy q ms :
  healthy →
  create_queue_metrics q ms =
    (Return tt,
     Metrics (instruments ms ++ new_instruments q)
       (<[q := queue_metrics_at (length (instruments ms))]>
          (metrics_by_queue ms))).
Proof.
  intros Hh.
  destruct (create_queue_metrics q ms) as [o ms'] eqn:Hc.
  pose proof Hc as Hspec. apply create_queue_metrics_spec in Hspec.
  destruct Hspec as [(e & extra & -> & ->)|[-> ->]]; [|done].
  exfalso. revert Hc.
  unfold create_queue_metrics, create_counter, create_histogram,
    create_instrument, bind, modify. rewrite !Hh. simpl. discriminate.
Qed.

(** A call for a name that has its instruments returns them and changes
    nothing. *)
Lemma get_queue_metrics_hit q m ms :
  metrics_by_queue ms !! q = Some m →
  _get_queue_metrics q ms = (Return m, ms).
Proof.
  intros Hq.
  unfold _get_queue_metrics, bind, not_in_metrics_by_queue, gets,
    lookup_queue_metrics, ret.
  rewrite bool_decide_eq_false_2 by (rewrite Hq; discriminate).
  by rewrite Hq.
Qed.

Lemma get_queue_metrics_miss q ms :
  metrics_by_queue ms !! q = None →
  _get_queue_metrics q ms =
    match create_queue_metrics q ms with
    | (Return _, ms') => lookup_queue_metrics q ms'
    | (Raise e, ms') => (Raise e, ms')
    end.
Proof.
  intros Hq.
  unfold _get_queue_metrics, bind, not_in_metrics_by_queue, gets.
  rewrite bool_decide_eq_true_2 by done.
  by destruct (create_queue_metrics q ms) as [[[]|e] ms'].
Qed.

Lemma get_queue_metrics_miss_healthy q ms :
  healthy →
  metrics_by_queue ms !! q = None →
  _get_queue_metrics q ms =
    (Return (queue_metrics_at (length (instruments ms))),
     Metrics (instruments ms ++ new_instruments q)
       (<[q := queue_metrics_at (length (instruments ms))]>
          (metrics_by_queue ms))).
Proof.
  intros Hh Hq. rewrite get_queue_metrics_miss by done.
  rewrite create_queue_metrics_healthy by done.
  unfold lookup_queue_metrics. simpl. by rewrite lookup_insert_eq.
Qed.

(** What any call does to the state, whatever the meter does. *)
Lemma get_queue_metrics_spec q ms o ms' :
  _get_queue_metrics q ms = (o, ms') →
  (∃ extra, instruments ms' = instruments ms ++ extra) ∧
  (∀ q' m', metrics_by_queue ms !! q' = Some m' →
            metrics_by_queue ms' !! q' = Some m') ∧
  (∀ m, o = Return m → metrics_by_queue ms' !! q = Some m) ∧
  (∀ q', q' ≠ q → metrics_by_queue ms' !! q' = metrics_by_queue ms !! q').
Proof.
  destruct (metrics_by_queue ms !! q) as [m|] eqn:Hq.
  - rewrite (get_queue_metrics_hit q m) by done. intros [= <- <-].
    split; [exists []; by rewrite app_nil_r|].
    split; [done|]. split; [by intros ? [= <-]|done].
  - rewrite get_queue_metrics_miss by done.
    destruct (create_queue_metrics q ms) as [o1 ms1] eqn:Hc.
    apply create_queue_metrics_spec in Hc.
    destruct Hc as [(e & extra & -> & ->)|[-> ->]].
    + intros [= <- <-]. simpl.
      split; [by exists extra|]. split; [done|]. split; [discriminate|done].
    + unfold lookup_queue_metrics. simpl. rewrite lookup_insert_eq.
      intros [= <- <-]. simpl.
      split; [by eexists|]. split.
      { intros q' m' Hq'. rewrite lookup_insert_ne; [done|congruence]. }
      split; [intros ? [= <-]; by rewrite lookup_insert_eq|].
      intros q' Hne. by rewrite lookup_insert_ne.
Qed.

End Registry.

(** ** Sequential and concurrent callers of [_get_queue_metrics] *)

Section Callers.
Context `{sdk : SDK}.

(** Once a name has its instruments, later sequential calls keep them and
    return them. *)
Lemma run_calls_stable (names : list string) :
  ∀ ms os ms' q m,
    run_calls names ms = (os, ms') →
    metrics_by_queue ms !! q = Some m →
    metrics_by_queue ms' !! q = Some m ∧
    ∀ j mj, names !! j = Some q → os !! j = Some (Return mj) → mj = m.
Proof.
  induction names as [|q0 names IH]; intros ms os ms' q m Hrun Hq.
  - simpl in Hrun. injection Hrun as <- <-. by split.
  - simpl in Hrun.
    destruct (_get_queue_metrics q0 ms) as [o ms1] eqn:Hget.
    destruct (run_calls names ms1) as [os1 ms2] eqn:Hrest.
    injection Hrun as <- <-.
    pose proof (get_queue_metrics_spec _ _ _ _ Hget) as (_ & Hkeep & Hret & _).
    destruct (IH _ _ _ q m Hrest (Hkeep _ _ Hq)) as [Hfinal Hlater].
    split; [done|].
    intros [|j] mj Hj Ho; simpl in Hj, Ho.
    + injection Hj as ->. injection Ho as ->.
      specialize (Hret _ eq_refl). specialize (Hkeep _ _ Hq). congruence.
    + eauto.
Qed.

Lemma run_calls_same_instance (names : list string) :
  ∀ ms os ms' i j q mi mj,
    run_calls names ms = (os, ms') →
    names !! i = Some q → names !! j = Some q →
    os !! i = Some (Return mi) → os !! j = Some (Return mj) →
    mi = mj.
Proof.
  induction names as [|q0 names IH];
    intros ms os ms' i j q mi mj Hrun Hi Hj Hoi Hoj; [done|].
  simpl in Hrun.
  destruct (_get_queue_metrics q0 ms) as [o ms1] eqn:Hget.
  destruct (run_calls names ms1) as [os1 ms2] eqn:Hrest.
  injection Hrun as <- <-.
  pose proof (get_queue_metrics_spec _ _ _ _ Hget) as (_ & _ & Hret & _).
  destruct i as [|i], j as [|j]; simpl in *.
  - congruence.
  - injection Hi as ->. injection Hoi as ->.
    destruct (run_calls_stable _ _ _ _ q mi Hrest (Hret _ eq_refl))
      as [_ Hlater].
    symmetry. eauto.
  - injection Hj as ->. injection Hoj as ->.
    destruct (run_calls_stable _ _ _ _ q mj Hrest (Hret _ eq_refl))
      as [_ Hlater].
    eauto.
  - eauto.
Qed.

(** With a meter that does not raise every call returns, there are six
    instruments per name in the dictionary, and the names in the
    dictionary are those that were asked for. *)
Lemma run_calls_healthy (names : list string) :
  healthy →
  ∀ ms os ms',
    run_calls names ms = (os, ms') →
    length (instruments ms) = 6 * size (metrics_by_queue ms) →
    length (instruments ms') = 6 * size (metrics_by_queue ms') ∧
    dom (metrics_by_queue ms') =
      list_to_set names ∪ dom (metrics_by_queue ms) ∧
    Forall (λ o, ∃ m, o = Return m) os.
Proof.
  intros Hh. induction names as [|q names IH]; intros ms os ms' Hrun Hlen.
  - simpl in Hrun. injection Hrun as <- <-.
    split; [done|]. split; [set_solver|constructor].
  - simpl in Hrun.
    destruct (_get_queue_metrics q ms) as [o ms1] eqn:Hget.
    destruct (run_calls names ms1) as [os1 ms2] eqn:Hrest.
    injection Hrun as <- <-.
    destruct (metrics_by_queue ms !! q) as [m|] eqn:Hq.
    + rewrite (get_queue_metrics_hit q m) in Hget by done.
      injection Hget as <- <-.
      destruct (IH _ _ _ Hrest Hlen) as (Hlen' & Hdom & Hos).
      split; [done|]. split.
      * rewrite Hdom. simpl.
        assert (q ∈ dom (metrics_by_queue ms)) by (apply elem_of_dom; eauto).
        set_solver.
      * constructor; eauto.
    + rewrite get_queue_metrics_miss_healthy in Hget by done.
      injection Hget as <- <-.
      assert (length (instruments
                (Metrics (instruments ms ++ new_instruments q)
                   (<[q := queue_metrics_at (length (instruments ms))]>
                      (metrics_by_queue ms)))) =
              6 * size (metrics_by_queue
                (Metrics (instruments ms ++ new_instruments q)
                   (<[q := queue_metrics_at (length (instruments ms))]>
                      (metrics_by_queue ms))))) as Hlen1.
      { simpl. rewrite length_app, map_size_insert_None by done.
        simpl. lia. }
      destruct (IH _ _ _ Hrest Hlen1) as (Hlen' & Hdom & Hos).
      split; [done|]. split.
      * rewrite Hdom. simpl. rewrite dom_insert_L. set_solver.
      * constructor; eauto.
Qed.

(** A thread that runs alone does what the method does. *)
Lemma single_thread_refines q ms :
  run_schedule [0; 0; 0] [Thread q AtCheck] ms =
    let '(o, ms') := _get_queue_metrics q ms in
    ([Thread q (Finished o)], ms').
Proof.
  destruct (metrics_by_queue ms !! q) as [m|] eqn:Hq.
  - rewrite (get_queue_metrics_hit q m) by done.
    simpl. unfold thread_step at 1. simpl.
    unfold not_in_metrics_by_queue, gets.
    rewrite bool_decide_eq_false_2 by (rewrite Hq; discriminate).
    unfold thread_step, lookup_queue_metrics. simpl. by rewrite Hq.
  - rewrite get_queue_metrics_miss by done.
    simpl. unfold thread_step at 1. simpl.
    unfold not_in_metrics_by_queue, gets.
    rewrite bool_decide_eq_true_2 by done.
    unfold thread_step at 1. simpl.
    destruct (create_queue_metrics q ms) as [[[]|e] ms1]; simpl; [|done].
    unfold thread_step. simpl.
    by destruct (lookup_queue_metrics q ms1) as [o ms2].
Qed.

(** C2 (as amended).  When the calls to [_get_queue_metrics] run one after
    the other: all calls with the same name that return, return the same
    [QueueMetrics]; a call for a name that has its instruments creates
    nothing; and from the initial state, with a meter that does not raise,
    every call returns and the meter holds exactly one set of six
    instruments per distinct name. *)
Theorem get_queue_metrics_sequential (names : list string)
    (ms : metrics_state) (os : list (outcome QueueMetrics))
    (ms' : metrics_state) :
  run_calls names ms = (os, ms') →
  (∀ i j q mi mj,
     names !! i = Some q → names !! j = Some q →
     os !! i = Some (Return mi) → os !! j = Some (Return mj) → mi = mj) ∧
  (∀ q m, metrics_by_queue ms' !! q = Some m →
          _get_queue_metrics q ms' = (Return m, ms')) ∧
  (healthy → ms = initial_metrics →
     Forall (λ o, ∃ m, o = Return m) os ∧
     dom (metrics_by_queue ms') = list_to_set names ∧
     length (instruments ms') = 6 * size (metrics_by_queue ms')).
Proof.
  intros Hrun. split; [|split].
  - intros i j q mi mj. by apply run_calls_same_instance with ms ms'.
  - intros q m. apply get_queue_metrics_hit.
  - intros Hh ->.
    destruct (run_calls_healthy names Hh _ _ _ Hrun) as (Hlen & Hdom & Hos);
      [done|].
    split; [done|]. split; [|done].
    rewrite Hdom. simpl. rewrite dom_empty_L. set_solver.
Qed.

End Callers.

(** Three sequential calls on the initial state: ["queueA"] twice, then
    ["queueB"]. *)
Lemma get_queue_metrics_sequential_witness :
  let names := ["queueA"; "queueA"; "queueB"] in
  let r := @run_calls plain_sdk names initial_metrics in
  @healthy plain_sdk ∧
  r.1 !! 0 = Some (Return (queue_metrics_at 0)) ∧
  r.1 !! 1 = Some (Return (queue_metrics_at 0)) ∧
  dom (metrics_by_queue r.2) = list_to_set names ∧
  length (instruments r.2) = 6 * size (metrics_by_queue r.2).
Proof.
  intros names r.
  assert (@healthy plain_sdk) as Hh by (intros c; reflexivity).
  destruct (@get_queue_metrics_sequential plain_sdk names initial_metrics
              r.1 r.2 eq_refl) as (Hsame & _ & Hcount).
  destruct (Hcount Hh eq_refl) as (_ & Hdom & Hlen).
  assert (r.1 !! 0 = Some (Return (queue_metrics_at 0))) as H0
    by reflexivity.
  assert (∃ m, r.1 !! 1 = Some (Return m)) as [m H1]
    by (eexists; reflexivity).
  split; [exact Hh|]. split; [exact H0|]. split.
  - rewrite H1. do 2 f_equal. symmetry.
    apply (Hsame 0 1 "queueA"); [reflexivity|reflexivity|exact H0|exact H1].
  - split; [exact Hdom|exact Hlen].
Defined.

(** C2 (as stated) fails under concurrent first access: two threads ask
    for ["queueA"]; both pass the membership test before either stores its
    instruments.  Two sets of instruments are created and the two callers
    get different [QueueMetrics]. *)
Lemma concurrent_first_access_duplicates :
  let r := @run_schedule plain_sdk [0; 1; 0; 0; 1; 1]
             [Thread "queueA" AtCheck; Thread "queueA" AtCheck]
             initial_metrics in
  r.1 = [Thread "queueA" (Finished (Return (queue_metrics_at 0)));
         Thread "queueA" (Finished (Return (queue_metrics_at 6)))] ∧
  queue_metrics_at 0 ≠ queue_metrics_at 6 ∧
  length (instruments r.2) = 12 ∧
  size (metrics_by_queue r.2) = 1.
Proof.
  split; [vm_compute; reflexivity|].
  split; [discriminate|].
  split; vm_compute; reflexivity.
Qed.

(** ** Recording on the instruments of a queue *)

Section Recording.
Context `{sdk : SDK}.

Lemma initial_metrics_wf : metrics_wf initial_metrics.
Proof. unfold metrics_wf, initial_metrics. simpl. apply map_Forall_empty. Qed.

Lemma queue_metrics_at_ok (n k : nat) :
  n + 6 ≤ k → queue_metrics_ok k (queue_metrics_at n).
Proof.
  intros Hk. split; unfold handles, queue_metrics_at; simpl.
  - repeat (apply NoDup_cons; split; [set_solver by lia|]). apply NoDup_nil_2.
  - repeat (apply Forall_cons; split; [lia|]). apply Forall_nil_2.
Qed.

Lemma queue_metrics_ok_mono (n k : nat) (m : QueueMetrics) :
  n ≤ k → queue_metrics_ok n m → queue_metrics_ok k m.
Proof.
  intros Hle [Hnd Hlt]. split; [done|].
  eapply Forall_impl; [exact Hlt|]. simpl. lia.
Qed.

(** The six instrument objects of a well-formed [QueueMetrics] are
    pairwise different. *)
Lemma queue_metrics_ok_distinct (n : nat) (m : QueueMetrics) :
  queue_metrics_ok n m →
  published_counter m ≠ message_size m ∧
  published_counter m ≠ consumed_counter m ∧
  published_counter m ≠ retry_counter m ∧
  consumed_counter m ≠ message_size m ∧
  consumed_counter m ≠ retry_counter m ∧
  message_size m ≠ retry_counter m.
Proof.
  intros [Hnd _]. unfold handles in Hnd.
  rewrite !NoDup_cons in Hnd. set_solver.
Qed.

Lemma queue_metrics_ok_in_range (n : nat) (m : QueueMetrics) :
  queue_metrics_ok n m →
  published_counter m < n ∧ consumed_counter m < n ∧
  message_size m < n ∧ retry_counter m < n.
Proof.
  intros [_ Hlt]. unfold handles in Hlt.
  rewrite !Forall_cons in Hlt. tauto.
Qed.

(** [_get_queue_metrics] keeps the dictionary well formed, whatever the
    meter does. *)
Lemma get_queue_metrics_wf q ms o ms' :
  metrics_wf ms → _get_queue_metrics q ms = (o, ms') → metrics_wf ms'.
Proof.
  intros Hwf.
  destruct (metrics_by_queue ms !! q) as [m|] eqn:Hq.
  - rewrite (get_queue_metrics_hit q m) by done. by intros [= <- <-].
  - rewrite get_queue_metrics_miss by done.
    destruct (create_queue_metrics q ms) as [o1 ms1] eqn:Hc.
    apply create_queue_metrics_spec in Hc.
    destruct Hc as [(e & extra & -> & ->)|[-> ->]].
    + intros [= <- <-]. unfold metrics_wf in *. simpl.
      eapply map_Forall_impl; [exact Hwf|]. simpl. intros _ m Hm.
      eapply queue_metrics_ok_mono; [|exact Hm]. rewrite length_app. lia.
    + unfold lookup_queue_metrics. simpl. rewrite lookup_insert_eq.
      intros [= <- <-]. unfold metrics_wf in *. simpl.
      apply map_Forall_insert_2.
      * apply queue_metrics_at_ok. rewrite length_app. simpl. lia.
      * eapply map_Forall_impl; [exact Hwf|]. simpl. intros _ m Hm.
        eapply queue_metrics_ok_mono; [|exact Hm]. rewrite length_app. lia.
Qed.


(** Adding a measurement to the instrument [sel0 m] of queue [q]. *)
Lemma queue_points_alter (sel0 sel : QueueMetrics → nat) q m ms v :
  metrics_by_queue ms !! q = Some m →
  sel0 m < length (instruments ms) →
  queue_points sel q (with_instruments (alter (add_point v) (sel0 m)) ms) =
    if decide (sel m = sel0 m)
    then queue_points sel q ms ++ [v]
    else queue_points sel q ms.
Proof.
  intros Hq Hlt. unfold queue_points. simpl. rewrite Hq.
  destruct (decide (sel m = sel0 m)) as [->|Hne].
  - rewrite list_lookup_alter_eq.
    destruct (lookup_lt_is_Some_2 _ _ Hlt) as [i ->]. done.
  - by rewrite list_lookup_alter_ne.
Qed.

Lemma alter_wf h v ms :
  metrics_wf ms → metrics_wf (with_instruments (alter (add_point v) h) ms).
Proof.
  unfold metrics_wf. simpl. by rewrite length_alter.
Qed.



(** *** Calls that return, with any meter *)

(** A call that returns, returns the entry of the dictionary, and the
    instruments of the queue hold what they held. *)
Lemma get_queue_metrics_returns q ms m ms1 :
  metrics_wf ms →
  _get_queue_metrics q ms = (Return m, ms1) →
  metrics_by_queue ms1 !! q = Some m ∧
  metrics_wf ms1 ∧
  queue_points published_counter q ms1 = queue_points published_counter q ms ∧
  queue_points consumed_counter q ms1 = queue_points consumed_counter q ms ∧
  queue_points message_size q ms1 = queue_points message_size q ms ∧
  queue_points retry_counter q ms1 = queue_points retry_counter q ms.
Proof.
  intros Hwf Hget.
  pose proof (get_queue_metrics_wf _ _ _ _ Hwf Hget) as Hwf1.
  destruct (metrics_by_queue ms !! q) as [m0|] eqn:Hq.
  - rewrite (get_queue_metrics_hit q m0) in Hget by done.
    injection Hget as <- <-. done.
  - rewrite get_queue_metrics_miss in Hget by done.
    destruct (create_queue_metrics q ms) as [o1 ms2] eqn:Hc.
    apply create_queue_metrics_spec in Hc.
    destruct Hc as [(e & extra & -> & ->)|[-> ->]]; [discriminate|].
    unfold lookup_queue_metrics in Hget. simpl in Hget.
    rewrite lookup_insert_eq in Hget. injection Hget as <- <-.
    split; [simpl; by rewrite lookup_insert_eq|]. split; [done|].
    unfold queue_points. simpl. rewrite Hq, lookup_insert_eq. simpl.
    repeat split.
    + rewrite lookup_app_r by lia.
      by replace (length (instruments ms) - length (instruments ms)) with 0
        by lia.
    + rewrite lookup_app_r by lia.
      by replace (length (instruments ms) + 1 - length (instruments ms))
        with 1 by lia.
    + rewrite lookup_app_r by lia.
      by replace (length (instruments ms) + 4 - length (instruments ms))
        with 4 by lia.
    + rewrite lookup_app_r by lia.
      by replace (length (instruments ms) + 5 - length (instruments ms))
        with 5 by lia.
Qed.

Lemma counter_add_returns h v ms ms' :
  counter_add h v ms = (Return tt, ms') →
  ms' = with_instruments (alter (add_point v) h) ms.
Proof.
  unfold counter_add. destruct (meter_fault _); [discriminate|].
  by intros [= <-].
Qed.

Lemma histogram_record_returns h v ms ms' :
  histogram_record h v ms = (Return tt, ms') →
  ms' = with_instruments (alter (add_point v) h) ms.
Proof.
  unfold histogram_record. destruct (meter_fault _); [discriminate|].
  by intros [= <-].
Qed.

(** The metric calls of a publish, when they return: the published
    counter has got 1, the size histogram the length of the body, nothing
    else of the queue has changed. *)
Lemma record_published_returns rk body ms ms' :
  metrics_wf ms →
  record_published rk body ms = (Return tt, ms') →
  metrics_wf ms' ∧
  published_total rk ms' = (published_total rk ms + 1)%Z ∧
  size_observations rk ms' = size_observations rk ms ++ [len body] ∧
  consumed_total rk ms' = consumed_total rk ms ∧
  retry_total rk ms' = retry_total rk ms.
Proof.
  intros Hwf. unfold record_published, bind.
  destruct (_get_queue_metrics rk ms) as [[m|e] ms1] eqn:Hget;
    [|discriminate].
  destruct (get_queue_metrics_returns _ _ _ _ Hwf Hget)
    as (Hq & Hwf1 & Hp & Hc & Hs & Hr).
  pose proof (Hwf1 _ _ Hq) as Hok. simpl in Hok.
  destruct (queue_metrics_ok_distinct _ _ Hok) as (? & ? & ? & ? & ? & ?).
  destruct (queue_metrics_ok_in_range _ _ Hok) as (? & ? & ? & ?).
  destruct (counter_add (published_counter m) 1 ms1) as [[[]|e] ms2] eqn:Hadd;
    [|discriminate].
  apply counter_add_returns in Hadd as ->.
  intros Hrec. apply histogram_record_returns in Hrec as ->.
  split; [by do 2 apply alter_wf|].
  unfold published_total, consumed_total, retry_total, size_observations.
  rewrite !(queue_points_alter message_size _ rk m)
    by (simpl; rewrite ?length_alter; done).
  rewrite !(queue_points_alter published_counter _ rk m) by done.
  repeat (case_decide; try (exfalso; congruence)).
  rewrite Hp, Hc, Hs, Hr. by rewrite total_snoc.
Qed.

(** The metric calls of a delivery, when they return: the consumed
    counter has got 1, the size histogram the length of the body, the
    retry counter 1 when the headers hold the marker and nothing
    otherwise. *)
Lemma record_consumed_returns q hdrs body ms ms' :
  metrics_wf ms →
  record_consumed q hdrs body ms = (Return tt, ms') →
  metrics_wf ms' ∧
  consumed_total q ms' = (consumed_total q ms + 1)%Z ∧
  size_observations q ms' = size_observations q ms ++ [len body] ∧
  published_total q ms' = published_total q ms ∧
  retry_total q ms' =
    (retry_total q ms +
     if decide (is_Some (hdrs !! "x-first-death-exchange")) then 1 else 0)%Z.
Proof.
  intros Hwf. unfold record_consumed, bind.
  destruct (_get_queue_metrics q ms) as [[m|e] ms1] eqn:Hget;
    [|discriminate].
  destruct (get_queue_metrics_returns _ _ _ _ Hwf Hget)
    as (Hq & Hwf1 & Hp & Hc & Hs & Hr).
  pose proof (Hwf1 _ _ Hq) as Hok. simpl in Hok.
  destruct (queue_metrics_ok_distinct _ _ Hok) as (? & ? & ? & ? & ? & ?).
  destruct (queue_metrics_ok_in_range _ _ Hok) as (? & ? & ? & ?).
  destruct (counter_add (consumed_counter m) 1 ms1) as [[[]|e] ms2] eqn:Hadd;
    [|discriminate].
  apply counter_add_returns in Hadd as ->.
  destruct (histogram_record (message_size m) (len body) _)
    as [[[]|e] ms3] eqn:Hrec; [|discriminate].
  apply histogram_record_returns in Hrec as ->.
  unfold published_total, consumed_total, retry_total, size_observations.
  destruct (decide (is_Some (hdrs !! "x-first-death-exchange"))).
  - intros Hadd. apply counter_add_returns in Hadd as ->.
    split; [by do 3 apply alter_wf|].
    rewrite !(queue_points_alter retry_counter _ q m)
      by (simpl; rewrite ?length_alter; done).
    rewrite !(queue_points_alter message_size _ q m)
      by (simpl; rewrite ?length_alter; done).
    rewrite !(queue_points_alter consumed_counter _ q m) by done.
    repeat (case_decide; try (exfalso; congruence)).
    rewrite Hp, Hc, Hs, Hr. rewrite !total_snoc. done.
  - intros [= <-].
    split; [by do 2 apply alter_wf|].
    rewrite !(queue_points_alter message_size _ q m)
      by (simpl; rewrite ?length_alter; done).
    rewrite !(queue_points_alter consumed_counter _ q m) by done.
    repeat (case_decide; try (exfalso; congruence)).
    rewrite Hp, Hc, Hs, Hr. rewrite !total_snoc. split; [done|].
    split; [done|]. split; [done|]. lia.
Qed.

(** The metric calls keep the dictionary well formed, whether they
    return or raise. *)
Lemma counter_add_wf h v ms o ms' :
  metrics_wf ms → counter_add h v ms = (o, ms') → metrics_wf ms'.
Proof.
  intros Hwf. unfold counter_add.
  destruct (meter_fault _); intros [= <- <-]; [done|by apply alter_wf].
Qed.

Lemma histogram_record_wf h v ms o ms' :
  metrics_wf ms → histogram_record h v ms = (o, ms') → metrics_wf ms'.
Proof.
  intros Hwf. unfold histogram_record.
  destruct (meter_fault _); intros [= <- <-]; [done|by apply alter_wf].
Qed.

Lemma record_published_wf rk body ms o ms' :
  metrics_wf ms → record_published rk body ms = (o, ms') → metrics_wf ms'.
Proof.
  intros Hwf. unfold record_published, bind.
  destruct (_get_queue_metrics rk ms) as [[m|e] ms1] eqn:Hget;
    pose proof (get_queue_metrics_wf _ _ _ _ Hwf Hget) as Hwf1;
    [|by intros [= <- <-]].
  destruct (counter_add (published_counter m) 1 ms1) as [[[]|e] ms2] eqn:Hadd;
    pose proof (counter_add_wf _ _ _ _ _ Hwf1 Hadd) as Hwf2;
    [|by intros [= <- <-]].
  intros Hrec. by eapply histogram_record_wf.
Qed.

Lemma record_consumed_wf q hdrs body ms o ms' :
  metrics_wf ms → record_consumed q hdrs body ms = (o, ms') → metrics_wf ms'.
Proof.
  intros Hwf. unfold record_consumed, bind.
  destruct (_get_queue_metrics q ms) as [[m|e] ms1] eqn:Hget;
    pose proof (get_queue_metrics_wf _ _ _ _ Hwf Hget) as Hwf1;
    [|by intros [= <- <-]].
  destruct (counter_add (consumed_counter m) 1 ms1) as [[[]|e] ms2] eqn:Hadd;
    pose proof (counter_add_wf _ _ _ _ _ Hwf1 Hadd) as Hwf2;
    [|by intros [= <- <-]].
  destruct (histogram_record (message_size m) (len body) ms2)
    as [[[]|e] ms3] eqn:Hrec;
    pose proof (histogram_record_wf _ _ _ _ _ Hwf2 Hrec) as Hwf3;
    [|by intros [= <- <-]].
  case_decide.
  - intros Hadd'. by eapply counter_add_wf.
  - by intros [= <- <-].
Qed.

End Recording.

(** ** The two wrappers, step by step *)

Section Wrappers.
Context `{sdk : SDK}.

(** What the handler leaves on the span [s]. *)
Lemma mark_error_and_reraise_eq {A} (s : nat) (e : exn) (w : world) :
  @mark_error_and_reraise A s e w =
    (Raise e,
     with_spans (alter (span_record_exception e) s)
       (with_spans (alter (span_set_status ERROR) s) w)).
Proof. reflexivity. Qed.

(** *** What leaving a [with] block does to the world *)

(** The update of the span on leaving
    [with tracer.start_as_current_span(...)]. *)
Lemma use_span_exit_eq {A} (s : nat) (saved : Context) (o : outcome A) w :
  use_span_exit s saved o w =
    World (alter span_end s (use_span_marks s o (w_spans w)))
      (w_metrics w) saved (w_draws w) (w_log w).
Proof.
  unfold use_span_exit, use_span_marks, end_span, with_spans, with_current.
  destruct o as [r|e]; [done|]. by destruct (exc_is_Exception e).
Qed.

(** The update of the span on leaving [with tracer.start_span(...)]. *)
Lemma span_exit_eq {A} (s : nat) (o : outcome A) w :
  span_exit s o w =
    World (alter span_end s (span_exit_marks s o (w_spans w)))
      (w_metrics w) (w_current w) (w_draws w) (w_log w).
Proof.
  unfold span_exit, span_exit_marks, end_span, with_spans.
  destruct o as [r|e]; [done|]. by destruct (span_exit_records e).
Qed.

(** *** The two wrappers as one step around the wrapped call *)

(** A publish: the delegate is called on the properties and in the world
    that [delegate_call] names; what it leaves decides the outcome and the
    metrics; the wrapper then marks and ends its span and restores the
    current context. *)
Lemma instrumented_publish_run {R} (f : basic_publish_t R) ex rk body props
    mandatory w :
  instrumented_publish f ex rk body props mandatory w =
    let s := length (w_spans w) in
    let d := delegate_call f ex rk body props mandatory w in
    let om := publish_outcome rk body d in
    (om.1, d.1.2,
     World
       (alter span_end s
          (use_span_marks s om.1 (handler_marks s om.1 (w_spans d.2))))
       om.2 (w_current w) (w_draws d.2) (w_log d.2)).
Proof.
  unfold instrumented_publish, start_as_current_span, start_span,
    get_span_context.
  cbv zeta. cbn [w_spans with_spans with_draw w_current].
  rewrite list_lookup_middle by done.
  change (with_current _ (with_draw _))
    with (publish_world rk (ensure_headers props) w).
  cbn [fmap option_fmap option_map sp_context new_span].
  change (prepare_properties (length (w_spans w)) (ensure_headers props)
            (publish_world rk (ensure_headers props) w))
    with (sent_properties rk props w).
  unfold publish_and_record, try_except_Exception, bind, call_publish,
    on_world, on_metrics, ret, publish_outcome, delegate_call.
  cbn [fst snd].
  destruct (f ex rk body (sent_properties rk props w) mandatory
              (publish_world rk (ensure_headers props) w))
    as [[[x|e] p2] w2]; cbn [fst snd].
  - destruct (record_published rk body (w_metrics w2)) as [[[]|e] ms];
      cbn [fst snd]; [by rewrite use_span_exit_eq|].
    destruct (exc_is_Exception e) eqn:He.
    + rewrite mark_error_and_reraise_eq. cbn [fst snd].
      rewrite use_span_exit_eq. unfold handler_marks. by rewrite He.
    + rewrite use_span_exit_eq. unfold handler_marks. by rewrite He.
  - destruct (exc_is_Exception e) eqn:He.
    + rewrite mark_error_and_reraise_eq. cbn [fst snd].
      rewrite use_span_exit_eq. unfold handler_marks. by rewrite He.
    + rewrite use_span_exit_eq. unfold handler_marks. by rewrite He.
Qed.

(** A delivery: the metric calls come first; when they raise, the
    callback is not called; when they return, the callback is called in
    the world that [callback_world] names, and the wrapper then marks and
    ends the process span and the consume span. *)
Lemma instrumented_callback_run {Ch Method R} (q : string)
    (cb : callback_t Ch Method R) ch method props body w :
  instrumented_callback q cb ch method props body w =
    let s := length (w_spans w) in
    match record_consumed q (headers_or_empty props) body (w_metrics w) with
    | (Raise e, ms) =>
        (Raise e,
         World
           (alter span_end s
              (span_exit_marks s (@Raise R e)
                 (handler_marks s (@Raise R e)
                    (w_spans w ++ [consume_span q props w]))))
           ms (w_current w) (S (w_draws w)) (w_log w))
    | (Return _, ms) =>
        let c := callback_call cb ch method props body q ms w in
        (c.1,
         World
           (alter span_end s
              (span_exit_marks s c.1
                 (handler_marks s c.1
                    (alter span_end (S s)
                       (span_exit_marks (S s) c.1 (w_spans c.2))))))
           (w_metrics c.2) (w_current c.2) (w_draws c.2) (w_log c.2))
    end.
Proof.
  unfold instrumented_callback, record_and_process, try_except_Exception,
    bind, on_metrics, process, start_span, callback_call, with_draw,
    with_spans, with_metrics.
  cbv zeta. cbn [w_spans w_metrics w_current w_draws w_log default].
  change (new_span ("consume " +:+ q) CONSUMER _ _ _)
    with (consume_span q props w).
  destruct (record_consumed q (headers_or_empty props) body (w_metrics w))
    as [[[]|e] ms].
  - cbn [fst snd w_spans w_metrics w_current w_draws w_log].
    rewrite length_app. cbn [length]. rewrite Nat.add_1_r.
    rewrite <- (assoc_L (++)). cbn [app].
    change (new_span ("process " +:+ q) INTERNAL _ _ _)
      with (process_span q (consume_world q props w)).
    change (World (w_spans w ++ _) ms (w_current w) (S (S (w_draws w)))
              (w_log w))
      with (callback_world q props ms w).
    destruct (cb ch method props body (callback_world q props ms w))
      as [[x|e] w3]; cbn [fst snd].
    + by rewrite !span_exit_eq.
    + destruct (exc_is_Exception e) eqn:He.
      * rewrite mark_error_and_reraise_eq, !span_exit_eq.
        unfold handler_marks. by rewrite He.
      * rewrite !span_exit_eq. unfold handler_marks. by rewrite He.
  - cbn [fst snd]. destruct (exc_is_Exception e) eqn:He.
    + rewrite mark_error_and_reraise_eq, !span_exit_eq.
      unfold handler_marks. by rewrite He.
    + rewrite !span_exit_eq. unfold handler_marks. by rewrite He.
Qed.


End Wrappers.
(** ** The messaging interceptor *)

Section Interceptor.
Context `{sdk : SDK}.

(** The span a wrapper started, marked by the handler and by the exit
    of the [with] block, and ended. *)
Lemma publish_span_marked {A} (rk : string) (p0 : BasicProperties)
    (w : world) (e : exn) (s : nat) (spans : list Span) :
  exc_is_Exception e = true →
  spans !! s = Some (publish_span rk p0 w) →
  ∃ sp,
    alter span_end s
      (use_span_marks s (@Raise A e) (handler_marks s (@Raise A e) spans))
      !! s = Some sp ∧
    sp_name sp = "publish " +:+ rk ∧ sp_kind sp = PRODUCER ∧
    sp_status sp = ERROR ∧ e ∈ sp_exceptions sp ∧ sp_ended sp = true.
Proof.
  intros He Hs. unfold use_span_marks, handler_marks. rewrite He.
  rewrite !list_lookup_alter_eq, Hs. simpl.
  eexists. split; [reflexivity|]. simpl. repeat split; try done. set_solver.
Qed.

Lemma consume_span_marked {A} (q : string) (props : BasicProperties)
    (w : world) (e : exn) (s : nat) (spans : list Span) :
  exc_is_Exception e = true ∨ span_exit_records e = true →
  spans !! s = Some (consume_span q props w) →
  ∃ sp,
    alter span_end s
      (span_exit_marks s (@Raise A e)
         (handler_marks s (@Raise A e) spans)) !! s = Some sp ∧
    sp_name sp = "consume " +:+ q ∧ sp_kind sp = CONSUMER ∧
    sp_status sp = ERROR ∧ e ∈ sp_exceptions sp ∧ sp_ended sp = true.
Proof.
  intros He Hs. unfold span_exit_marks, handler_marks.
  destruct (exc_is_Exception e) eqn:He1, (span_exit_records e) eqn:He2;
    [| | |by destruct He];
    rewrite !list_lookup_alter_eq, ?Hs; simpl;
    (eexists; split; [reflexivity|]); simpl; repeat split; try done;
    set_solver.
Qed.

(** C1 (as amended).  The wrappers hand on what the wrapped operation
    returns or raises.  On a publish, what the delegate raises is raised
    to the caller, and what it returns is returned when the metric calls
    that follow return.  On a delivery whose metric calls return, the
    outcome is the callback's; the consumed counter has got exactly 1
    when the callback starts, and the wrapper touches no metric after
    it.  A span that the wrapped operation has left as it was started
    ends with status [ERROR] and holds the exception: on a publish for an
    exception that derives from [Exception], on a delivery also for any
    other exception that the exit of the span records. *)
Theorem interceptor_transparent {Ch Method R R'}
    (f : basic_publish_t R) (exchange rk : string) (body : bytes)
    (props : option BasicProperties) (mandatory : bool)
    (q : string) (cb : callback_t Ch Method R') (ch : Ch) (method : Method)
    (cprops : BasicProperties) (cbody : bytes) (w : world)
    (ms : metrics_state) :
  let s := length (w_spans w) in
  let d := delegate_call f exchange rk body props mandatory w in
  let r1 := instrumented_publish f exchange rk body props mandatory w in
  let c := callback_call cb ch method cprops cbody q ms w in
  let r2 := instrumented_callback q cb ch method cprops cbody w in
  ((∀ x, d.1.1 = Return x →
      (record_published rk body (w_metrics d.2)).1 = Return tt →
      r1.1.1 = Return x) ∧
   (∀ e, d.1.1 = Raise e →
      r1.1.1 = Raise e ∧
      (exc_is_Exception e = true →
       w_spans d.2 !! s = Some (publish_span rk (ensure_headers props) w) →
       ∃ sp, w_spans r1.2 !! s = Some sp ∧
         sp_name sp = "publish " +:+ rk ∧ sp_kind sp = PRODUCER ∧
         sp_status sp = ERROR ∧ e ∈ sp_exceptions sp ∧
         sp_ended sp = true))) ∧
  (record_consumed q (headers_or_empty cprops) cbody (w_metrics w)
     = (Return tt, ms) →
   r2.1 = c.1 ∧
   (metrics_wf (w_metrics w) →
    consumed_total q ms = (consumed_total q (w_metrics w) + 1)%Z) ∧
   w_metrics (callback_world q cprops ms w) = ms ∧
   w_metrics r2.2 = w_metrics c.2 ∧
   ∀ e, c.1 = Raise e →
     exc_is_Exception e = true ∨ span_exit_records e = true →
     w_spans c.2 !! s = Some (consume_span q cprops w) →
     ∃ sp, w_spans r2.2 !! s = Some sp ∧
       sp_name sp = "consume " +:+ q ∧ sp_kind sp = CONSUMER ∧
       sp_status sp = ERROR ∧ e ∈ sp_exceptions sp ∧ sp_ended sp = true).
Proof.
  intros s d r1 c r2. split.
  - subst r1. rewrite instrumented_publish_run. cbv zeta. fold d s.
    cbn [fst snd w_spans]. unfold publish_outcome. split.
    + intros x Hx Hrec. rewrite Hx.
      destruct (record_published rk body (w_metrics d.2)) as [[[]|e] ms'];
        [done|discriminate].
    + intros e He. rewrite He. cbn [fst snd]. split; [done|].
      intros Hexc Hs.
      exact (publish_span_marked rk _ w e s _ Hexc Hs).
  - intros Hrec. subst r2. rewrite instrumented_callback_run. cbv zeta.
    rewrite Hrec. fold c s. cbn [fst snd w_spans w_metrics].
    split; [done|]. split.
    { intros Hwf.
      by destruct (record_consumed_returns _ _ _ _ _ Hwf Hrec)
        as (_ & Hcons & _). }
    split; [done|]. split; [done|].
    intros e He Hexc Hs. rewrite He.
    assert (alter span_end (S s) (span_exit_marks (S s) (@Raise R' e)
                                    (w_spans c.2)) !! s
            = Some (consume_span q cprops w)) as Hs'.
    { rewrite list_lookup_alter_ne by lia.
      unfold span_exit_marks. destruct (span_exit_records e); [|done].
      by rewrite list_lookup_alter_ne by lia. }
    exact (consume_span_marked q cprops w e s _ Hexc Hs').
Qed.

(** C3 (as amended).  The wrappers do not catch what their own metric
    calls raise, and they log nothing.  On a publish, when the delegate
    has returned and the metric calls then raise, the caller gets that
    exception instead of the delegate's result.  On a delivery, when the
    metric calls raise, the caller gets that exception and the callback
    is not run: the only span started is the consume span, and the
    outcome and the world are the same for every callback. *)
Theorem bookkeeping_failure_propagates {Ch Method R R'}
    (f : basic_publish_t R) (exchange rk : string) (body : bytes)
    (props : option BasicProperties) (mandatory : bool)
    (q : string) (cb : callback_t Ch Method R') (ch : Ch) (method : Method)
    (cprops : BasicProperties) (cbody : bytes) (w : world) :
  let d := delegate_call f exchange rk body props mandatory w in
  let r1 := instrumented_publish f exchange rk body props mandatory w in
  let r2 := instrumented_callback q cb ch method cprops cbody w in
  (∀ x e ms,
     d.1.1 = Return x →
     record_published rk body (w_metrics d.2) = (Raise e, ms) →
     r1.1.1 = Raise e ∧ w_metrics r1.2 = ms ∧ w_log r1.2 = w_log d.2) ∧
  (∀ e ms,
     record_consumed q (headers_or_empty cprops) cbody (w_metrics w)
       = (Raise e, ms) →
     r2.1 = Raise e ∧ w_metrics r2.2 = ms ∧ w_log r2.2 = w_log w ∧
     length (w_spans r2.2) = S (length (w_spans w)) ∧
     ∀ cb' : callback_t Ch Method R',
       instrumented_callback q cb' ch method cprops cbody w = r2).
Proof.
  intros d r1 r2. split.
  - intros x e ms Hx Hrec. subst r1.
    rewrite instrumented_publish_run. cbv zeta. fold d.
    unfold publish_outcome. rewrite Hx, Hrec. done.
  - intros e ms Hrec. subst r2.
    rewrite instrumented_callback_run. cbv zeta. rewrite Hrec.
    cbn [fst snd w_spans w_metrics w_log].
    split; [done|]. split; [done|]. split; [done|]. split.
    + rewrite length_alter. unfold span_exit_marks, handler_marks.
      destruct (span_exit_records e), (exc_is_Exception e);
        rewrite ?length_alter, length_app; simpl; lia.
    + intros cb'. rewrite instrumented_callback_run. cbv zeta.
      by rewrite Hrec.
Qed.

(** C4 (as amended).  When the delegate returns and the metric calls
    that follow return, the wrapper returns the delegate's result; the
    published counter of the routing key has got exactly 1 and the size
    histogram the length of the body, over what the delegate left.  The
    delegate runs under the span [publish <routing key>] of kind
    [PRODUCER]; left as it was started, that span is ended with its
    status left [UNSET] and without exception event. *)
Theorem publish_success_records {R} (f : basic_publish_t R)
    (exchange rk : string) (body : bytes) (props : option BasicProperties)
    (mandatory : bool) (w : world) (x : R) (ms : metrics_state) :
  let s := length (w_spans w) in
  let d := delegate_call f exchange rk body props mandatory w in
  let r := instrumented_publish f exchange rk body props mandatory w in
  d.1.1 = Return x →
  record_published rk body (w_metrics d.2) = (Return tt, ms) →
  r.1.1 = Return x ∧
  w_metrics r.2 = ms ∧
  (metrics_wf (w_metrics d.2) →
   published_total rk ms = (published_total rk (w_metrics d.2) + 1)%Z ∧
   size_observations rk ms =
     size_observations rk (w_metrics d.2) ++ [len body]) ∧
  (let sp := publish_span rk (ensure_headers props) w in
   let w1 := publish_world rk (ensure_headers props) w in
   w_spans w1 = w_spans w ++ [sp] ∧
   sp_name sp = "publish " +:+ rk ∧ sp_kind sp = PRODUCER ∧
   ctx_span (w_current w1) = Some (sp_context sp)) ∧
  (w_spans d.2 !! s = Some (publish_span rk (ensure_headers props) w) →
   ∃ sp, w_spans r.2 !! s = Some sp ∧
     sp_name sp = "publish " +:+ rk ∧ sp_kind sp = PRODUCER ∧
     sp_status sp = UNSET ∧ sp_exceptions sp = [] ∧ sp_ended sp = true).
Proof.
  intros s d r Hx Hrec. subst r.
  rewrite instrumented_publish_run. cbv zeta. fold d s.
  unfold publish_outcome. rewrite Hx, Hrec.
  cbn [fst snd w_spans w_metrics].
  split; [done|]. split; [done|]. split.
  { intros Hwf.
    by destruct (record_published_returns _ _ _ _ Hwf Hrec)
      as (_ & Hpub & Hsize & _). }
  split; [done|].
  intros Hs. unfold use_span_marks, handler_marks.
  rewrite list_lookup_alter_eq, Hs. simpl.
  eexists. split; [reflexivity|]. done.
Qed.



End Interceptor.

(** A publish whose delegate raises [AMQPConnectionError] and a delivery
    whose callback raises [KeyboardInterrupt], both on the initial
    world. *)
Lemma interceptor_transparent_witness :
  let r1 := @instrumented_publish plain_sdk unit publish_fails "" "orders"
              body_120 None false initial_world in
  let r2 := @instrumented_callback plain_sdk unit unit unit "orders"
              callback_interrupted tt tt first_delivery_properties body_120
              initial_world in
  let ms := (@record_consumed plain_sdk "orders"
               (headers_or_empty first_delivery_properties) body_120
               initial_metrics).2 in
  metrics_wf (w_metrics initial_world) ∧
  @record_consumed plain_sdk "orders"
    (headers_or_empty first_delivery_properties) body_120
    (w_metrics initial_world) = (Return tt, ms) ∧
  r1.1.1 = Raise (Exn "AMQPConnectionError" "connection lost" true) ∧
  sp_status <$> (w_spans r1.2 !! 0) = Some ERROR ∧
  r2.1 = Raise KeyboardInterrupt ∧
  consumed_total "orders" ms = 1%Z ∧
  sp_status <$> (w_spans r2.2 !! 0) = Some ERROR.
Proof.
  intros r1 r2 ms.
  assert (metrics_wf (w_metrics initial_world)) as Hwf
    by (unfold metrics_wf; simpl; apply map_Forall_empty).
  assert (@record_consumed plain_sdk "orders"
            (headers_or_empty first_delivery_properties) body_120
            (w_metrics initial_world) = (Return tt, ms)) as Hrec
    by (vm_compute; reflexivity).
  pose proof (@interceptor_transparent plain_sdk unit unit unit unit
                publish_fails "" "orders" body_120 None false
                "orders" callback_interrupted tt tt
                first_delivery_properties body_120 initial_world ms) as H.
  cbv zeta in H. destruct H as [[_ Hpub] Hdel].
  destruct (Hpub _ eq_refl) as [Ho1 Hspan1].
  destruct (Hspan1 eq_refl eq_refl) as (sp1 & Hl1 & _ & _ & Hst1 & _).
  destruct (Hdel Hrec) as (Ho2 & Hcount & _ & _ & Hspan2).
  destruct (Hspan2 KeyboardInterrupt eq_refl (or_intror eq_refl) eq_refl)
    as (sp2 & Hl2 & _ & _ & Hst2 & _).
  change (length (w_spans initial_world)) with 0 in Hl1, Hl2.
  split; [exact Hwf|]. split; [exact Hrec|]. split; [exact Ho1|].
  split; [unfold r1; rewrite Hl1; simpl; by rewrite Hst1|].
  split; [exact Ho2|]. split; [exact (Hcount Hwf)|].
  unfold r2. rewrite Hl2. simpl. by rewrite Hst2.
Defined.

(** C1 (as stated) fails for an exception that does not derive from
    [Exception]: the delegate raises [KeyboardInterrupt]; the exception
    reaches the caller, and the publish span ends with status [UNSET] and
    without exception event. *)
Lemma reraise_without_error_status :
  let d := @delegate_call plain_sdk unit publish_interrupted ""
             "orders" body_120 None false initial_world in
  let r := @instrumented_publish plain_sdk unit publish_interrupted ""
             "orders" body_120 None false initial_world in
  d.1.1 = Raise KeyboardInterrupt ∧
  r.1.1 = Raise KeyboardInterrupt ∧
  sp_status <$> (w_spans r.2 !! 0) = Some UNSET ∧
  sp_exceptions <$> (w_spans r.2 !! 0) = Some [] ∧
  sp_ended <$> (w_spans r.2 !! 0) = Some true.
Proof. vm_compute. repeat split. Qed.

(** A publish to ["orders"] with a meter that refuses the add on the
    published counter, and a delivery from ["orders created"] with a meter
    that refuses the name. *)
Lemma bookkeeping_failure_propagates_witness :
  let d := @delegate_call add_refusing_sdk unit publish_ok "" "orders"
             body_120 None false initial_world in
  let r1 := @instrumented_publish add_refusing_sdk unit publish_ok ""
              "orders" body_120 None false initial_world in
  let r2 := @instrumented_callback strict_sdk unit unit unit
              "orders created" callback_ok tt tt first_delivery_properties
              body_120 initial_world in
  d.1.1 = Return tt ∧
  (@record_published add_refusing_sdk "orders" body_120 (w_metrics d.2)).1
    = Raise (Exn "RuntimeError" "exporter shut down" true) ∧
  (@record_consumed strict_sdk "orders created"
     (headers_or_empty first_delivery_properties) body_120
     (w_metrics initial_world)).1
    = Raise (invalid_name_error "rabbitmq.orders created.published") ∧
  r1.1.1 = Raise (Exn "RuntimeError" "exporter shut down" true) ∧
  w_log r1.2 = [] ∧
  r2.1 = Raise (invalid_name_error "rabbitmq.orders created.published") ∧
  length (w_spans r2.2) = 1.
Proof.
  intros d r1 r2.
  pose proof (@bookkeeping_failure_propagates add_refusing_sdk unit unit unit
                unit publish_ok "" "orders" body_120 None false
                "orders" callback_ok tt tt first_delivery_properties
                body_120 initial_world) as H1.
  pose proof (@bookkeeping_failure_propagates strict_sdk unit unit unit
                unit publish_ok "" "orders created" body_120 None false
                "orders created" callback_ok tt tt first_delivery_properties
                body_120 initial_world) as H2.
  cbv zeta in H1, H2. destruct H1 as [Hpub _]. destruct H2 as [_ Hdel].
  destruct (Hpub tt (Exn "RuntimeError" "exporter shut down" true)
              (@record_published add_refusing_sdk "orders" body_120
                 (w_metrics d.2)).2 eq_refl ltac:(vm_compute; reflexivity))
    as (Ho1 & _ & Hlog1).
  destruct (Hdel (invalid_name_error "rabbitmq.orders created.published")
              (@record_consumed strict_sdk "orders created"
                 (headers_or_empty first_delivery_properties) body_120
                 (w_metrics initial_world)).2
              ltac:(vm_compute; reflexivity))
    as (Ho2 & _ & _ & Hlen & _).
  split; [reflexivity|]. split; [vm_compute; reflexivity|].
  split; [vm_compute; reflexivity|].
  split; [exact Ho1|]. split; [exact Hlog1|].
  split; [exact Ho2|exact Hlen].
Defined.

(** C3 (as stated) fails: the delegate returns, the meter then refuses
    the instrument name, and the caller of the publish gets the meter's
    exception; nothing is logged. *)
Lemma bookkeeping_failure_reaches_caller :
  let d := @delegate_call strict_sdk unit publish_ok ""
             "orders created" body_120 None false initial_world in
  let r := @instrumented_publish strict_sdk unit publish_ok ""
             "orders created" body_120 None false initial_world in
  d.1.1 = Return tt ∧
  r.1.1 = Raise (invalid_name_error "rabbitmq.orders created.published") ∧
  r.1.1 ≠ Return tt ∧
  w_log r.2 = [].
Proof. vm_compute. repeat split. discriminate. Qed.

(** A publish of 120 bytes to ["orders"] on the initial world. *)
Lemma publish_success_records_witness :
  let d := @delegate_call plain_sdk unit publish_ok "" "orders"
             body_120 None false initial_world in
  let r := @instrumented_publish plain_sdk unit publish_ok "" "orders"
             body_120 None false initial_world in
  d.1.1 = Return tt ∧ metrics_wf (w_metrics d.2) ∧
  (@record_published plain_sdk "orders" body_120 (w_metrics d.2)).1
    = Return tt ∧
  r.1.1 = Return tt ∧
  published_total "orders" (w_metrics r.2) = 1%Z ∧
  size_observations "orders" (w_metrics r.2) = [120%Z] ∧
  sp_ended <$> (w_spans r.2 !! 0) = Some true.
Proof.
  intros d r.
  assert (metrics_wf (w_metrics d.2)) as Hwf
    by (unfold metrics_wf; simpl; apply map_Forall_empty).
  pose proof (@publish_success_records plain_sdk unit publish_ok "" "orders"
                body_120 None false initial_world tt
                (@record_published plain_sdk "orders" body_120
                   (w_metrics d.2)).2) as H.
  cbv zeta in H.
  destruct (H eq_refl ltac:(vm_compute; reflexivity))
    as (Ho & Hms & Hcount & _ & Hspan).
  destruct (Hcount Hwf) as [Hpub Hsize].
  destruct (Hspan eq_refl) as (sp & Hl & _ & _ & _ & _ & Hended).
  split; [reflexivity|]. split; [exact Hwf|].
  split; [vm_compute; reflexivity|]. split; [exact Ho|].
  change (length (w_spans initial_world)) with 0 in Hl.
  fold r in Hms, Hl. rewrite Hms.
  split; [exact Hpub|]. split; [exact Hsize|].
  rewrite Hl. simpl. by rewrite Hended.
Defined.

(** C4 (as stated) fails on the status: after the publish of 120 bytes to
    ["orders"] the counter is 1 and the size 120 is recorded, and the span
    [publish orders] is ended with status [UNSET], not [OK]. *)
Lemma publish_success_status_unset :
  let r := @instrumented_publish plain_sdk unit publish_ok "" "orders"
             body_120 None false initial_world in
  r.1.1 = Return tt ∧
  sp_name <$> (w_spans r.2 !! 0) = Some "publish orders" ∧
  sp_ended <$> (w_spans r.2 !! 0) = Some true ∧
  sp_status <$> (w_spans r.2 !! 0) = Some UNSET ∧
  sp_status <$> (w_spans r.2 !! 0) ≠ Some OK.
Proof. vm_compute. repeat split. discriminate. Qed.



(** ** Context propagation *)

Section Propagation.
Context `{sdk : SDK}.

Lemma tracecontext_inject_frame (c : Context) (carrier : gmap string string)
    (k : string) :
  k ≠ "traceparent" → k ≠ "tracestate" →
  tracecontext_inject c carrier !! k = carrier !! k.
Proof.
  intros H1 H2. unfold tracecontext_inject.
  destruct (ctx_span c) as [sc|]; [|done].
  destruct (String.eqb (trace_state sc) "");
    by rewrite ?lookup_insert_ne by done.
Qed.

Lemma baggage_inject_frame (c : Context) (carrier : gmap string string)
    (k : string) :
  k ≠ "baggage" → baggage_inject c carrier !! k = carrier !! k.
Proof.
  intros H1. unfold baggage_inject.
  case_decide; by rewrite ?lookup_insert_ne by done.
Qed.

(** [inject] leaves every key other than its own as it was. *)
Lemma inject_frame (carrier : gmap string string) (w : world) (k : string) :
  k ∉ propagation_keys → inject carrier w !! k = carrier !! k.
Proof.
  intros Hk. unfold propagation_keys in Hk. unfold inject.
  rewrite baggage_inject_frame by set_solver.
  apply tracecontext_inject_frame; set_solver.
Qed.

(** [inject] writes the [traceparent] of the current span. *)
Lemma inject_traceparent (carrier : gmap string string) (w : world)
    (sc : SpanContext) :
  ctx_span (w_current w) = Some sc →
  inject carrier w !! "traceparent" = Some (traceparent sc).
Proof.
  intros Hsc. unfold inject.
  rewrite baggage_inject_frame by done.
  unfold tracecontext_inject. rewrite Hsc.
  destruct (String.eqb (trace_state sc) "").
  - by rewrite lookup_insert_eq.
  - rewrite lookup_insert_ne by done. by rewrite lookup_insert_eq.
Qed.

Lemma ensure_headers_fields (props : option BasicProperties) :
  let p := default BasicProperties_new props in
  let p0 := ensure_headers props in
  headers p0 = Some (default ∅ (headers p)) ∧
  correlation_id p0 = correlation_id p ∧
  content_type p0 = content_type p ∧
  content_encoding p0 = content_encoding p ∧
  delivery_mode p0 = delivery_mode p ∧ priority p0 = priority p ∧
  reply_to p0 = reply_to p ∧ expiration p0 = expiration p ∧
  message_id p0 = message_id p ∧ timestamp p0 = timestamp p ∧
  type p0 = type p ∧ user_id p0 = user_id p ∧ app_id p0 = app_id p ∧
  cluster_id p0 = cluster_id p.
Proof.
  unfold ensure_headers. cbv zeta.
  by destruct (headers (default BasicProperties_new props)) eqn:Hh;
    rewrite ?Hh.
Qed.

(** C10.  On every publish the delegate is called with a properties
    object that has a headers map; the map holds the [traceparent] of the
    PRODUCER span, written from its trace id and its span id, and every
    key other than the propagation keys has the value it had; the
    correlation id is kept when it was set (truthy), and is otherwise the
    span id of the PRODUCER span formatted by [format(_, "016x")]: 16
    hexadecimal digits for a 64-bit id, which read back as the span id;
    every other field of the properties is as the caller passed it.  The
    properties object is after the call as the delegate leaves it. *)
Theorem publish_properties_frame {R} (f : basic_publish_t R)
    (exchange rk : string) (body : bytes) (props : option BasicProperties)
    (mandatory : bool) (w : world) :
  let p := default BasicProperties_new props in
  let w1 := publish_world rk (ensure_headers props) w in
  let sc := sp_context (publish_span rk (ensure_headers props) w) in
  let p' := sent_properties rk props w in
  let d := f exchange rk body p' mandatory w1 in
  let r := instrumented_publish f exchange rk body props mandatory w in
  r.1.1 = (publish_outcome rk body d).1 ∧ r.1.2 = d.1.2 ∧
  (∃ h', headers p' = Some h' ∧
     h' !! "traceparent" =
       Some ("00-" +:+ format_hex 32 (trace_id sc) +:+ "-" +:+
             format_hex 16 (span_id sc) +:+ "-" +:+
             format_hex 2 (trace_flags sc)) ∧
     ∀ k, k ∉ propagation_keys → h' !! k = default ∅ (headers p) !! k) ∧
  correlation_id p' =
    (if truthy (correlation_id p) then correlation_id p
     else Some (format_hex 16 (span_id sc))) ∧
  ((0 ≤ trace_id sc)%Z →
     parse_hex_from 0 (list_ascii_of_string (format_hex 32 (trace_id sc)))
       = Some (trace_id sc)) ∧
  ((0 ≤ span_id sc)%Z →
     parse_hex_from 0 (list_ascii_of_string (format_hex 16 (span_id sc)))
       = Some (span_id sc)) ∧
  ((0 ≤ span_id sc < 2 ^ 64)%Z →
     String.length (format_hex 16 (span_id sc)) = 16 ∧
     Forall (λ c, is_hex_char c = true)
            (list_ascii_of_string (format_hex 16 (span_id sc)))) ∧
  content_type p' = content_type p ∧
  content_encoding p' = content_encoding p ∧
  delivery_mode p' = delivery_mode p ∧ priority p' = priority p ∧
  reply_to p' = reply_to p ∧ expiration p' = expiration p ∧
  message_id p' = message_id p ∧ timestamp p' = timestamp p ∧
  type p' = type p ∧ user_id p' = user_id p ∧ app_id p' = app_id p ∧
  cluster_id p' = cluster_id p.
Proof.
  intros p w1 sc p' d r.
  split; [subst r; by rewrite instrumented_publish_run|].
  split; [subst r; by rewrite instrumented_publish_run|].
  destruct (ensure_headers_fields props)
    as (Hh & Hc & ? & ? & ? & ? & ? & ? & ? & ? & ? & ? & ? & ?).
  fold p in Hh, Hc.
  set (p0 := ensure_headers props) in *.
  assert (get_span_context (length (w_spans w)) w1 = Some sc) as Hsc.
  { unfold get_span_context, w1, publish_world. simpl.
    by rewrite list_lookup_middle. }
  subst p'. unfold sent_properties. fold p0 w1.
  unfold prepare_properties. cbv zeta. rewrite Hsc. simpl.
  rewrite Hc, Hh. simpl.
  split.
  { exists (inject (default ∅ (headers p)) w1).
    split; [by destruct (truthy (correlation_id p))|].
    split; [exact (inject_traceparent _ w1 sc eq_refl)|].
    intros k Hk. by apply inject_frame. }
  split; [by destruct (truthy (correlation_id p))|].
  split; [apply format_hex_roundtrip|].
  split; [apply format_hex_roundtrip|].
  split.
  { intros Hrange. split.
    - apply format_hex_length; [lia|]. simpl. lia.
    - apply format_hex_all_hex. }
  destruct (truthy (correlation_id p)); simpl; by repeat split.
Qed.

(** *** Extraction *)

Lemma extract_context_TypeError (carrier : gmap string string) (w : world) :
  extract_context carrier w = (Raise set_baggage_arity_error, w).
Proof. reflexivity. Qed.

Lemma tracecontext_extract_baggage (carrier : gmap string string) :
  ctx_baggage (tracecontext_extract carrier None) = ∅.
Proof.
  unfold tracecontext_extract. simpl.
  destruct (carrier !! "traceparent") as [h|]; [|done].
  destruct (parse_traceparent h) as [sc|]; [|done].
  by destruct (is_valid sc).
Qed.

Lemma tracecontext_extract_degrades (carrier : gmap string string)
    (context : option Context) :
  (carrier !! "traceparent" = None ∨
   ∃ h, carrier !! "traceparent" = Some h ∧ parse_traceparent h = None) →
  tracecontext_extract carrier context = default empty_context context.
Proof.
  intros Htp. unfold tracecontext_extract. cbv zeta.
  by destruct Htp as [->|(h & -> & ->)].
Qed.

Lemma extract_degrades (carrier : gmap string string) (w : world) :
  (carrier !! "traceparent" = None ∨
   ∃ h, carrier !! "traceparent" = Some h ∧ parse_traceparent h = None) →
  (carrier !! "baggage" = None ∨
   ∃ h, carrier !! "baggage" = Some h ∧ decode_baggage h = ∅) →
  extract carrier w = empty_context ∧
  context_sampled (extract carrier w) = false ∧
  ctx_baggage (extract carrier w) = ∅.
Proof.
  intros Htp Hb.
  assert (extract carrier w = empty_context) as ->; [|done].
  unfold extract, baggage_extract.
  rewrite tracecontext_extract_degrades by done. simpl.
  destruct Hb as [->|(h & -> & ->)]; [done|].
  simpl. by rewrite (left_id_L ∅ (∪)).
Qed.

(** [extract_context_from_rabbitmq] returns what [extract] yields on
    the headers, and raises nothing. *)
Lemma extract_context_from_rabbitmq_eq (properties : BasicProperties)
    (w : world) :
  extract_context_from_rabbitmq properties w =
    (Return (extract (headers_or_empty properties) w),
     with_log "DEBUG Extracted context from RabbitMQ headers" w).
Proof. reflexivity. Qed.

(** The consume path starts its span from what [extract] yields on the
    headers: with nothing to extract the span has no parent. *)
Lemma consume_span_unparented (q : string) (properties : BasicProperties)
    (w : world) :
  extract (headers_or_empty properties) w = empty_context →
  sp_parent (consume_span q properties w) = None.
Proof. unfold consume_span. cbv zeta. by intros ->. Qed.

(** C6.  [extract_context] applied to the carrier that [inject_context]
    has filled raises [TypeError], whatever the active context and
    baggage were: [baggage.set_baggage] is called with one argument.  The
    context the method was about to return comes from the trace-context
    propagator alone and holds no baggage. *)
Theorem roundtrip_extract_context_raises (w w' : world) :
  extract_context (inject_context ∅ w) w' =
    (Raise set_baggage_arity_error, w') ∧
  ctx_baggage (tracecontext_extract (inject_context ∅ w) None) = ∅.
Proof.
  split; [apply extract_context_TypeError|apply tracecontext_extract_baggage].
Qed.

(** C7.  On the empty carrier [extract_context] raises [TypeError]; the
    two other entry points, [extract_context_from_rabbitmq] and the
    [extract] of the consume path, yield the empty context: not sampled,
    no baggage. *)
Theorem extract_context_empty_carrier_raises (w : world) :
  extract_context ∅ w = (Raise set_baggage_arity_error, w) ∧
  extract ∅ w = empty_context ∧
  context_sampled (extract ∅ w) = false ∧
  ctx_baggage (extract ∅ w) = ∅.
Proof.
  split; [apply extract_context_TypeError|].
  apply extract_degrades; left; apply lookup_empty.
Qed.

End Propagation.

(** A publish without properties, and one with properties that hold a
    header and a correlation id, both on the initial world: the trace id
    and the span id drawn for the PRODUCER span are 1. *)
Lemma publish_properties_frame_witness :
  let p1 := @sent_properties plain_sdk "orders" None initial_world in
  let p2 := @sent_properties plain_sdk "orders" (Some caller_properties)
              initial_world in
  (0 ≤ 1)%Z ∧ (0 ≤ 1 < 2 ^ 64)%Z ∧
  (∃ h', headers p1 = Some h' ∧
     h' !! "traceparent" =
       Some "00-00000000000000000000000000000001-0000000000000001-01") ∧
  correlation_id p1 = Some "0000000000000001" ∧
  parse_hex_from 0 (list_ascii_of_string "0000000000000001") = Some 1%Z ∧
  (∃ h', headers p2 = Some h' ∧ h' !! "tenant" = Some "blue") ∧
  correlation_id p2 = Some "request-42".
Proof.
  intros p1 p2.
  pose proof (@publish_properties_frame plain_sdk unit publish_ok "" "orders"
                body_120 None false initial_world) as H1.
  pose proof (@publish_properties_frame plain_sdk unit publish_ok "" "orders"
                body_120 (Some caller_properties) false initial_world) as H2.
  cbv zeta in H1, H2.
  destruct H1 as (_ & _ & (h1 & Hh1 & Htp1 & _) & Hcorr1 & _ & Hparse & _).
  destruct H2 as (_ & _ & (h2 & Hh2 & _ & Hframe2) & Hcorr2 & _).
  split; [lia|]. split; [lia|].
  split; [exists h1; split; [exact Hh1|exact Htp1]|].
  split; [exact Hcorr1|].
  split; [exact (Hparse ltac:(simpl; lia))|].
  split; [|exact Hcorr2].
  exists h2. split; [exact Hh2|].
  rewrite Hframe2; [reflexivity|].
  unfold propagation_keys. intros Hin.
  repeat (apply elem_of_cons in Hin as [Hin|Hin]; [discriminate|]).
  by apply elem_of_nil in Hin.
Defined.

(** ** The retry topology *)

(** C8.  For every queue name and every [max_retries],
    [create_dlq_policy] leaves on the channel: the exchange [<queue>.dlx]
    of type direct; the queue [<queue>.dlq] with a message time-to-live
    and the dead-letter routing key [<queue>], on the default exchange;
    the binding of [<queue>.dlq] to [<queue>.dlx]; the queue [<queue>]
    with dead-letter exchange [<queue>.dlx].  A message that expires in
    [<queue>.dlq] is routed back to [<queue>]. *)
Theorem create_dlq_policy_topology (ch : channel) (q : string)
    (max_retries : Z) :
  let ch' := create_dlq_policy ch q max_retries in
  exchanges ch' !! (q +:+ ".dlx") = Some "direct" ∧
  (∃ args, queues ch' !! (q +:+ ".dlq") = Some args ∧
     args !! "x-message-ttl" = Some (ArgInt 30000) ∧
     args !! "x-dead-letter-exchange" = Some (ArgStr "") ∧
     args !! "x-dead-letter-routing-key" = Some (ArgStr q)) ∧
  (q +:+ ".dlq", q +:+ ".dlx", q) ∈ bindings ch' ∧
  (∃ args, queues ch' !! q = Some args ∧
     args !! "x-dead-letter-exchange" = Some (ArgStr (q +:+ ".dlx")) ∧
     args !! "x-dead-letter-routing-key" = Some (ArgStr q)) ∧
  dead_letter ch' (q +:+ ".dlq") q = Queued q.
Proof.
  intros ch'.
  assert (q +:+ ".dlq" ≠ q) as Hne by (by apply string_app_ne).
  assert (queues ch' !! (q +:+ ".dlq") =
            Some (<["x-message-ttl" := ArgInt 30000]>
                    (<["x-dead-letter-exchange" := ArgStr ""]>
                       (<["x-dead-letter-routing-key" := ArgStr q]> ∅))))
    as Hdlq.
  { unfold ch', create_dlq_policy, queue_declare, queue_bind,
      exchange_declare. simpl.
    rewrite lookup_insert_ne by done. by rewrite lookup_insert_eq. }
  assert (queues ch' !! q =
            Some (<["x-dead-letter-exchange" := ArgStr (q +:+ ".dlx")]>
                    (<["x-dead-letter-routing-key" := ArgStr q]> ∅)))
    as Hq.
  { unfold ch', create_dlq_policy, queue_declare. simpl.
    by rewrite lookup_insert_eq. }
  split.
  { unfold ch', create_dlq_policy, queue_declare, queue_bind,
      exchange_declare. simpl. by rewrite lookup_insert_eq. }
  split.
  { eexists. split; [exact Hdlq|]. done. }
  split.
  { unfold ch', create_dlq_policy, queue_declare, queue_bind. simpl.
    set_solver. }
  split.
  { eexists. split; [exact Hq|]. done. }
  unfold dead_letter. rewrite Hdlq.
  rewrite (lookup_insert_ne _ "x-message-ttl" "x-dead-letter-exchange") by done.
  rewrite lookup_insert_eq.
  rewrite !(lookup_insert_ne _ _ "x-dead-letter-routing-key") by done.
  rewrite lookup_insert_eq.
  unfold route. rewrite String.eqb_refl. by rewrite Hq.
Qed.

(** One turn of the cycle: the failing message goes from the primary
    queue to the delay queue and comes back, redelivered once more. *)
Lemma retry_cycle (q : string) (max_retries : Z) (k : nat) :
  let ch := create_dlq_policy fresh_channel q max_retries in
  broker_step ch q (Delivery (Queued q) k) =
    Delivery (Queued (q +:+ ".dlq")) k ∧
  broker_step ch q (Delivery (Queued (q +:+ ".dlq")) k) =
    Delivery (Queued q) (S k).
Proof.
  intros ch.
  destruct (create_dlq_policy_topology fresh_channel q max_retries)
    as (Hx & (a1 & Hdlq & Httl & _) & _ & (a2 & Hq & Hdlx & Hrk) & Hback).
  fold ch in Hx, Hdlq, Hq, Hback.
  assert (q +:+ ".dlq" ≠ q) as Hne by (by apply string_app_ne).
  assert (q +:+ ".dlx" ≠ "") as Hne' by (by apply string_app_nonempty).
  split.
  - unfold broker_step. cbn [dl_location dl_redeliveries].
    rewrite String.eqb_refl.
    unfold dead_letter. rewrite Hq, Hdlx, Hrk.
    unfold route. rewrite (string_eqb_false _ _ Hne'), Hx.
    unfold ch, create_dlq_policy, queue_declare, queue_bind.
    cbn [bindings exchange_declare fresh_channel app].
    by rewrite filter_cons_True by done.
  - unfold broker_step. cbn [dl_location dl_redeliveries].
    rewrite (string_eqb_false _ _ Hne).
    rewrite Hdlq, Httl, Hback. by rewrite decide_True.
Qed.

(** C9.  Under the topology of [create_dlq_policy] a message whose
    consumer always fails is back in the primary queue after every second
    step of the broker, redelivered once more each time, for every number
    of turns and every [max_retries]: the cycle has no bound and no
    terminal queue. *)
Theorem retry_cycle_unbounded (q : string) (max_retries : Z) (n : nat) :
  broker_steps (2 * n) (create_dlq_policy fresh_channel q max_retries) q
    (Delivery (Queued q) 0) = Delivery (Queued q) n.
Proof.
  cut (∀ k, broker_steps (2 * n)
              (create_dlq_policy fresh_channel q max_retries) q
              (Delivery (Queued q) k) = Delivery (Queued q) (n + k)).
  { intros H. rewrite H. f_equal. lia. }
  induction n as [|n IH]; intros k; [done|].
  replace (2 * S n) with (S (S (2 * n))) by lia.
  simpl broker_steps.
  destruct (retry_cycle q max_retries k) as [-> _].
  destruct (retry_cycle q max_retries k) as [_ ->].
  rewrite IH. f_equal. lia.
Qed.

(** The queue ["orders"] with [max_retries = 3]: after eight steps the
    message has been redelivered four times and is in ["orders"] again. *)
Example retry_cycle_orders :
  broker_steps 8 (create_dlq_policy fresh_channel "orders" 3) "orders"
    (Delivery (Queued "orders") 0) = Delivery (Queued "orders") 4.
Proof. apply (retry_cycle_unbounded "orders" 3 4). Qed.

Example create_dlq_policy_orders :
  let ch := create_dlq_policy fresh_channel "orders" 3 in
  exchanges ch !! "orders.dlx" = Some "direct" ∧
  bindings ch = [("orders.dlq", "orders.dlx", "orders")] ∧
  dom (queues ch) = {["orders"; "orders.dlq"]}.
Proof. vm_compute. repeat split. Qed.

(* ===================================================================== *)
(** * Further properties of the three modules                             *)
(* ===================================================================== *)

(** ** Lists of spans *)

Lemma alter_at_length {A} (f : A → A) (l : list A) (x : A) (rest : list A) :
  alter f (length l) (l ++ x :: rest) = l ++ f x :: rest.
Proof. induction l as [|z l IH]; simpl; [done|]. by rewrite <- IH. Qed.


(** Marking a span does not end it. *)
Lemma span_set_status_ended (code : StatusCode) (sp : Span) :
  sp_ended (span_set_status code sp) = sp_ended sp.
Proof.
  unfold span_set_status. destruct (sp_ended sp) eqn:Hended; [done|].
  by destruct (sp_status sp), code.
Qed.

Lemma span_record_exception_ended (e : exn) (sp : Span) :
  sp_ended (span_record_exception e sp) = sp_ended sp.
Proof.
  unfold span_record_exception. by destruct (sp_ended sp) eqn:Hended.
Qed.

Lemma lookup_alter_ended (f : Span → Span) (s : nat) (l : list Span) :
  (∀ sp, sp_ended (f sp) = sp_ended sp) →
  sp_ended <$> (alter f s l !! s) = sp_ended <$> (l !! s).
Proof.
  intros Hf. rewrite list_lookup_alter_eq.
  destruct (l !! s) as [sp|]; simpl; [by rewrite Hf|done].
Qed.


Lemma span_update_set_status (code : StatusCode) :
  span_update (span_set_status code).
Proof.
  intros sp. unfold span_set_status. destruct (sp_ended sp); [done|].
  by destruct (sp_status sp), code.
Qed.

Lemma span_update_record_exception (e : exn) :
  span_update (span_record_exception e).
Proof. intros sp. unfold span_record_exception. by destruct (sp_ended sp). Qed.


Lemma span_update_compose (g h : Span → Span) :
  span_update g → span_update h → span_update (λ sp, g (h sp)).
Proof.
  intros Hg Hh sp. destruct (Hg (h sp)) as (-> & -> & -> & -> & ->).
  apply Hh.
Qed.

Section WrapperPaths.
Context `{sdk : SDK}.

(** The handler and the exits change one span object, and nothing it was
    started with. *)
Lemma handler_marks_spec {A} (s : nat) (o : outcome A) (spans : list Span) :
  length (handler_marks s o spans) = length spans ∧
  (∀ i, i ≠ s → handler_marks s o spans !! i = spans !! i) ∧
  ∃ g, span_update g ∧ handler_marks s o spans !! s = g <$> spans !! s.
Proof.
  unfold handler_marks. destruct o as [x|e]; [|destruct (exc_is_Exception e)].
  - split; [done|]. split; [done|]. exists id. split; [done|].
    by destruct (spans !! s).
  - rewrite !length_alter. split; [done|].
    split; [intros i Hi; by rewrite !list_lookup_alter_ne|].
    exists (λ sp, span_record_exception e (span_set_status ERROR sp)).
    split.
    + apply span_update_compose;
        [apply span_update_record_exception|apply span_update_set_status].
    + rewrite !list_lookup_alter_eq. by destruct (spans !! s).
  - split; [done|]. split; [done|]. exists id. split; [done|].
    by destruct (spans !! s).
Qed.

Lemma use_span_marks_spec {A} (s : nat) (o : outcome A) (spans : list Span) :
  length (use_span_marks s o spans) = length spans ∧
  (∀ i, i ≠ s → use_span_marks s o spans !! i = spans !! i) ∧
  ∃ g, span_update g ∧ use_span_marks s o spans !! s = g <$> spans !! s.
Proof.
  unfold use_span_marks.
  destruct o as [x|e]; [|destruct (exc_is_Exception e)].
  - split; [done|]. split; [done|]. exists id. split; [done|].
    by destruct (spans !! s).
  - rewrite !length_alter. split; [done|].
    split; [intros i Hi; by rewrite !list_lookup_alter_ne|].
    exists (λ sp, span_set_status ERROR (span_record_exception e sp)).
    split.
    + apply span_update_compose;
        [apply span_update_set_status|apply span_update_record_exception].
    + by rewrite !list_lookup_alter_eq.
  - split; [done|]. split; [done|]. exists id. split; [done|].
    by destruct (spans !! s).
Qed.

Lemma span_exit_marks_spec {A} (s : nat) (o : outcome A) (spans : list Span) :
  length (span_exit_marks s o spans) = length spans ∧
  (∀ i, i ≠ s → span_exit_marks s o spans !! i = spans !! i) ∧
  ∃ g, span_update g ∧ span_exit_marks s o spans !! s = g <$> spans !! s.
Proof.
  unfold span_exit_marks.
  destruct o as [x|e]; [|destruct (span_exit_records e)].
  - split; [done|]. split; [done|]. exists id. split; [done|].
    by destruct (spans !! s).
  - rewrite !length_alter. split; [done|].
    split; [intros i Hi; by rewrite !list_lookup_alter_ne|].
    exists (λ sp, span_set_status ERROR (span_record_exception e sp)).
    split.
    + apply span_update_compose;
        [apply span_update_set_status|apply span_update_record_exception].
    + by rewrite !list_lookup_alter_eq.
  - split; [done|]. split; [done|]. exists id. split; [done|].
    by destruct (spans !! s).
Qed.

(** The spans at the end of a publish, against those the delegate left. *)
Lemma publish_exit_spans {A} (s : nat) (o : outcome A) (spans : list Span) :
  let final :=
    alter span_end s (use_span_marks s o (handler_marks s o spans)) in
  length final = length spans ∧
  (∀ i, i ≠ s → final !! i = spans !! i) ∧
  ∃ g, span_update g ∧ final !! s = (λ sp, span_end (g sp)) <$> spans !! s.
Proof.
  intros final. subst final.
  destruct (handler_marks_spec s o spans) as (Hl1 & Hne1 & g1 & Hg1 & Hs1).
  destruct (use_span_marks_spec s o (handler_marks s o spans))
    as (Hl2 & Hne2 & g2 & Hg2 & Hs2).
  rewrite length_alter, Hl2, Hl1. split; [done|]. split.
  - intros i Hi. by rewrite list_lookup_alter_ne, Hne2, Hne1.
  - exists (λ sp, g2 (g1 sp)). split; [by apply span_update_compose|].
    rewrite list_lookup_alter_eq, Hs2, Hs1. by destruct (spans !! s).
Qed.

(** The spans at the end of a delivery whose callback was called, against
    those the callback left. *)
Lemma consume_exit_spans {A} (s : nat) (o : outcome A) (spans : list Span) :
  let final :=
    alter span_end s
      (span_exit_marks s o
         (handler_marks s o
            (alter span_end (S s) (span_exit_marks (S s) o spans)))) in
  length final = length spans ∧
  (∀ i, i ≠ s → i ≠ S s → final !! i = spans !! i) ∧
  (∃ g, span_update g ∧
        final !! s = (λ sp, span_end (g sp)) <$> spans !! s) ∧
  (∃ g, span_update g ∧
        final !! S s = (λ sp, span_end (g sp)) <$> spans !! S s).
Proof.
  intros final. subst final.
  destruct (span_exit_marks_spec (S s) o spans)
    as (Hl0 & Hne0 & g0 & Hg0 & Hs0).
  set (spans1 := alter span_end (S s) (span_exit_marks (S s) o spans)).
  destruct (handler_marks_spec s o spans1) as (Hl1 & Hne1 & g1 & Hg1 & Hs1).
  destruct (span_exit_marks_spec s o (handler_marks s o spans1))
    as (Hl2 & Hne2 & g2 & Hg2 & Hs2).
  rewrite length_alter, Hl2, Hl1. unfold spans1 at 1.
  rewrite length_alter, Hl0. split; [done|]. split; [|split].
  - intros i Hi Hi'. rewrite list_lookup_alter_ne, Hne2, Hne1 by done.
    unfold spans1. by rewrite list_lookup_alter_ne, Hne0.
  - exists (λ sp, g2 (g1 sp)). split; [by apply span_update_compose|].
    rewrite list_lookup_alter_eq, Hs2, Hs1. unfold spans1.
    rewrite list_lookup_alter_ne, Hne0 by lia. by destruct (spans !! s).
  - exists g0. split; [done|].
    rewrite list_lookup_alter_ne, Hne2, Hne1 by lia. unfold spans1.
    rewrite list_lookup_alter_eq, Hs0. by destruct (spans !! S s).
Qed.

(** The consume span at the end of a delivery has the parent and the
    context it was started with. *)
Lemma delivery_span_fields {Ch Method R} (q : string)
    (cb : callback_t Ch Method R) (ch : Ch) (method : Method)
    (props : BasicProperties) (body : bytes) (w : world) :
  let s := length (w_spans w) in
  let r := instrumented_callback q cb ch method props body w in
  (∀ e ms,
     record_consumed q (headers_or_empty props) body (w_metrics w)
       = (Raise e, ms) →
     ∃ sp, w_spans r.2 !! s = Some sp ∧
       sp_parent sp = sp_parent (consume_span q props w) ∧
       sp_context sp = sp_context (consume_span q props w)) ∧
  (∀ ms,
     record_consumed q (headers_or_empty props) body (w_metrics w)
       = (Return tt, ms) →
     w_spans (callback_call cb ch method props body q ms w).2 !! s
       = Some (consume_span q props w) →
     ∃ sp, w_spans r.2 !! s = Some sp ∧
       sp_parent sp = sp_parent (consume_span q props w) ∧
       sp_context sp = sp_context (consume_span q props w)).
Proof.
  intros s r. split.
  - intros e ms Hrec. subst r. rewrite instrumented_callback_run. cbv zeta.
    rewrite Hrec. cbn [fst snd w_spans]. fold s.
    set (spans := w_spans w ++ [consume_span q props w]).
    destruct (handler_marks_spec s (@Raise R e) spans)
      as (_ & _ & g1 & Hg1 & Hs1).
    destruct (span_exit_marks_spec s (@Raise R e)
                (handler_marks s (@Raise R e) spans))
      as (_ & _ & g2 & Hg2 & Hs2).
    rewrite list_lookup_alter_eq, Hs2, Hs1. unfold spans, s.
    rewrite list_lookup_middle by done. simpl.
    eexists. split; [reflexivity|]. simpl.
    destruct (Hg2 (g1 (consume_span q props w))) as (_ & _ & -> & -> & _).
    destruct (Hg1 (consume_span q props w)) as (_ & _ & -> & -> & _).
    done.
  - intros ms Hrec Hleft. subst r. rewrite instrumented_callback_run.
    cbv zeta. rewrite Hrec. cbn [fst snd w_spans]. fold s.
    set (c := callback_call cb ch method props body q ms w) in *.
    destruct (consume_exit_spans s c.1 (w_spans c.2))
      as (_ & _ & (g & Hg & Hs) & _).
    cbv zeta in Hs. rewrite Hs, Hleft. simpl.
    eexists. split; [reflexivity|]. simpl.
    destruct (Hg (consume_span q props w)) as (_ & _ & -> & -> & _).
    done.
Qed.

(** The properties the delegate receives carry the [traceparent] of the
    PRODUCER span. *)
Lemma sent_properties_traceparent (rk : string)
    (props : option BasicProperties) (w : world) :
  ∃ h',
    headers (sent_properties rk props w) = Some h' ∧
    h' !! "traceparent" =
      Some (traceparent (child_context (ctx_span (w_current w)) (w_draws w))).
Proof.
  destruct (ensure_headers_fields props) as (Hh & Hc & _).
  unfold sent_properties.
  set (p0 := ensure_headers props) in *.
  set (w1 := publish_world rk p0 w).
  assert (get_span_context (length (w_spans w)) w1
          = Some (child_context (ctx_span (w_current w)) (w_draws w))) as Hsc.
  { unfold get_span_context, w1, publish_world. simpl.
    by rewrite list_lookup_middle. }
  unfold prepare_properties. cbv zeta. rewrite Hsc. simpl.
  rewrite Hh. simpl.
  eexists. split; [by destruct (truthy (correlation_id p0))|].
  by apply inject_traceparent.
Qed.

Lemma headers_or_empty_default (p : BasicProperties) :
  headers_or_empty p = default ∅ (headers p).
Proof.
  unfold headers_or_empty. destruct (headers p) as [h|]; [|done].
  by case_decide; subst.
Qed.

Lemma instrument_eq {R} (name : option string) (kind : SpanKind)
    (attributes : option (gmap string string)) (func_name : string)
    (func : M world R) (w : world) :
  instrument name kind attributes func_name func w =
    let s := length (w_spans w) in
    let '(o, w3) :=
      func (decorated_world (span_name_or name func_name) kind attributes w) in
    (o,
     World
       match o with
       | Raise e =>
           if exc_is_Exception e
           then alter (λ sp, span_set_status ERROR
                               (span_record_exception e sp)) s
                  (alter (span_set_status ERROR) s
                     (alter (span_record_exception e) s (w_spans w3)))
           else w_spans w3
       | Return _ => w_spans w3
       end
       (w_metrics w3) (w_current w) (w_draws w3) (w_log w3)).
Proof.
  unfold instrument, span_in_context, create_span, start_span,
    get_span_context, try_except_Exception, use_span_leave.
  cbv zeta. cbn [w_spans with_spans with_draw w_current].
  rewrite list_lookup_middle by done.
  change (with_current _ (with_draw _))
    with (decorated_world (span_name_or name func_name) kind attributes w).
  destruct (func _) as [[x|e] w3]; [done|].
  unfold bind, record_exception, set_status, modify, raise.
  destruct (exc_is_Exception e) eqn:He; simpl; by rewrite He.
Qed.

Lemma instrument_function_eq {R} (span_name : string) (kind : SpanKind)
    (attributes : option (gmap string string)) (func : M world R)
    (w : world) :
  instrument_function span_name kind attributes func w =
    let s := length (w_spans w) in
    let '(o, w3) := func (decorated_world span_name kind attributes w) in
    (o,
     World
       (alter span_end s
          match o with
          | Raise e =>
              if exc_is_Exception e
              then alter (λ sp, span_set_status ERROR
                                  (span_record_exception e sp)) s
                     (alter (span_record_exception e) s
                        (alter (span_set_status ERROR) s (w_spans w3)))
              else w_spans w3
          | Return _ => w_spans w3
          end)
       (w_metrics w3) (w_current w) (w_draws w3) (w_log w3)).
Proof.
  unfold instrument_function, start_as_current_span, start_span,
    get_span_context, try_except_Exception.
  cbv zeta. cbn [w_spans with_spans with_draw w_current].
  rewrite list_lookup_middle by done.
  change (with_current _ (with_draw _))
    with (decorated_world span_name kind attributes w).
  destruct (func _) as [[x|e] w3]; [by rewrite use_span_exit_eq|].
  destruct (exc_is_Exception e) eqn:He.
  - rewrite mark_error_and_reraise_eq, use_span_exit_eq.
    unfold use_span_marks. by rewrite He.
  - rewrite use_span_exit_eq. unfold use_span_marks. by rewrite He.
Qed.

End WrapperPaths.

(** ** Queues do not share instruments *)

Section Disjoint.
Context `{sdk : SDK}.

Lemma initial_metrics_disjoint : metrics_disjoint initial_metrics.
Proof.
  intros q q' m m' h _ Hq. unfold initial_metrics in Hq. simpl in Hq.
  by rewrite lookup_empty in Hq.
Qed.

Lemma metrics_disjoint_ext (ms ms' : metrics_state) :
  metrics_by_queue ms' = metrics_by_queue ms →
  metrics_disjoint ms → metrics_disjoint ms'.
Proof. unfold metrics_disjoint. by intros ->. Qed.

Lemma queue_metrics_at_handles (n h : nat) :
  h ∈ handles (queue_metrics_at n) → n ≤ h.
Proof.
  unfold handles, queue_metrics_at. simpl. intros Hin.
  repeat (apply elem_of_cons in Hin as [->|Hin]; [lia|]).
  by apply elem_of_nil in Hin.
Qed.

Lemma handles_in_range (n : nat) (m : QueueMetrics) (h : nat) :
  queue_metrics_ok n m → h ∈ handles m → h < n.
Proof. intros [_ Hlt] Hin. by eapply Forall_forall in Hlt. Qed.

Lemma get_queue_metrics_disjoint q ms o ms' :
  metrics_wf ms → metrics_disjoint ms →
  _get_queue_metrics q ms = (o, ms') → metrics_disjoint ms'.
Proof.
  intros Hwf Hdis.
  destruct (metrics_by_queue ms !! q) as [m|] eqn:Hq.
  - rewrite (get_queue_metrics_hit q m) by done. by intros [= <- <-].
  - rewrite get_queue_metrics_miss by done.
    destruct (create_queue_metrics q ms) as [o1 ms1] eqn:Hc.
    apply create_queue_metrics_spec in Hc.
    destruct Hc as [(e & extra & -> & ->)|[-> ->]].
    + by intros [= <- <-].
    + unfold lookup_queue_metrics. simpl. rewrite lookup_insert_eq.
      intros [= <- <-]. unfold metrics_disjoint. simpl.
      intros q1 q2 m1 m2 h Hne H1 H2 Hin1 Hin2.
      destruct (decide (q1 = q)) as [->|Hq1];
        [rewrite lookup_insert_eq in H1; injection H1 as <-
        |rewrite lookup_insert_ne in H1 by done];
        (destruct (decide (q2 = q)) as [->|Hq2];
         [rewrite lookup_insert_eq in H2; injection H2 as <-
         |rewrite lookup_insert_ne in H2 by done]).
      * done.
      * apply queue_metrics_at_handles in Hin1.
        pose proof (handles_in_range _ _ _ (Hwf _ _ H2) Hin2). lia.
      * apply queue_metrics_at_handles in Hin2.
        pose proof (handles_in_range _ _ _ (Hwf _ _ H1) Hin1). lia.
      * by eapply (Hdis q1 q2).
Qed.

(** The measurements of a queue other than the one a call is for. *)
Lemma get_queue_metrics_other q q' sel ms o ms' :
  metrics_wf ms → q' ≠ q →
  (∀ m, sel m ∈ handles m) →
  _get_queue_metrics q ms = (o, ms') →
  queue_points sel q' ms' = queue_points sel q' ms.
Proof.
  intros Hwf Hne Hsel Hget.
  destruct (get_queue_metrics_spec _ _ _ _ Hget) as ([extra Hext] & _ & _ & Hother).
  unfold queue_points. rewrite (Hother q' Hne).
  destruct (metrics_by_queue ms !! q') as [m'|] eqn:Hq'; [|done].
  rewrite Hext, lookup_app_l; [done|].
  eapply handles_in_range; [exact (Hwf _ _ Hq')|apply Hsel].
Qed.

Lemma alter_other q q' sel m h v ms :
  metrics_disjoint ms → q' ≠ q →
  metrics_by_queue ms !! q = Some m → h ∈ handles m →
  (∀ m, sel m ∈ handles m) →
  queue_points sel q' (with_instruments (alter (add_point v) h) ms)
    = queue_points sel q' ms.
Proof.
  intros Hdis Hne Hq Hh Hsel. unfold queue_points. simpl.
  destruct (metrics_by_queue ms !! q') as [m'|] eqn:Hq'; [|done].
  rewrite list_lookup_alter_ne; [done|].
  intros ->. by eapply (Hdis q q' m m' (sel m')).
Qed.

Lemma record_published_other rk body q' sel ms o ms' :
  metrics_wf ms → metrics_disjoint ms → q' ≠ rk →
  (∀ m, sel m ∈ handles m) →
  record_published rk body ms = (o, ms') →
  queue_points sel q' ms' = queue_points sel q' ms.
Proof.
  intros Hwf Hdis Hne Hsel. unfold record_published, bind.
  destruct (_get_queue_metrics rk ms) as [[m|e] ms1] eqn:Hget;
    pose proof (get_queue_metrics_other _ _ sel _ _ _ Hwf Hne Hsel Hget) as H1;
    [|by intros [= <- <-]].
  pose proof (get_queue_metrics_disjoint _ _ _ _ Hwf Hdis Hget) as Hdis1.
  destruct (get_queue_metrics_spec _ _ _ _ Hget) as (_ & _ & Hret & _).
  specialize (Hret m eq_refl).
  unfold counter_add, histogram_record.
  destruct (meter_fault (CounterAdd _ _)); [by intros [= <- <-]|].
  destruct (meter_fault (HistogramRecord _ _)); intros [= <- <-].
  - rewrite (alter_other rk q' sel m); try done. set_solver.
  - assert (metrics_disjoint
              (with_instruments (alter (add_point 1) (published_counter m)) ms1))
      as Hdis2 by done.
    rewrite (alter_other rk q' sel m); try done; [|set_solver].
    rewrite (alter_other rk q' sel m); try done. set_solver.
Qed.
Lemma record_consumed_other q hdrs body q' sel ms o ms' :
  metrics_wf ms → metrics_disjoint ms → q' ≠ q →
  (∀ m, sel m ∈ handles m) →
  record_consumed q hdrs body ms = (o, ms') →
  queue_points sel q' ms' = queue_points sel q' ms.
Proof.
  intros Hwf Hdis Hne Hsel. unfold record_consumed, bind.
  destruct (_get_queue_metrics q ms) as [[m|e] ms1] eqn:Hget;
    pose proof (get_queue_metrics_other _ _ sel _ _ _ Hwf Hne Hsel Hget) as H1;
    [|by intros [= <- <-]].
  pose proof (get_queue_metrics_disjoint _ _ _ _ Hwf Hdis Hget) as Hdis1.
  destruct (get_queue_metrics_spec _ _ _ _ Hget) as (_ & _ & Hret & _).
  specialize (Hret m eq_refl).
  assert (∀ h v ms2,
            metrics_by_queue ms2 = metrics_by_queue ms1 → h ∈ handles m →
            queue_points sel q' (with_instruments (alter (add_point v) h) ms2)
            = queue_points sel q' ms2) as Hstep.
  { intros h v ms2 Hreg Hh.
    apply (alter_other q q' sel m); try done.
    - by apply (metrics_disjoint_ext ms1).
    - by rewrite Hreg. }
  unfold counter_add, histogram_record.
  destruct (meter_fault (CounterAdd _ 1)); [by intros [= <- <-]|].
  destruct (meter_fault (HistogramRecord _ _)); [intros [= <- <-]|].
  { rewrite Hstep; [done|done|set_solver]. }
  case_decide.
  - destruct (meter_fault (CounterAdd _ 1)); intros [= <- <-].
    + rewrite !Hstep; [done|done|set_solver|done|set_solver].
    + rewrite !Hstep; [done|done|set_solver|done|set_solver|done|set_solver].
  - intros [= <- <-].
    rewrite !Hstep; [done|done|set_solver|done|set_solver].
Qed.

Lemma record_published_disjoint rk body ms o ms' :
  metrics_wf ms → metrics_disjoint ms →
  record_published rk body ms = (o, ms') → metrics_disjoint ms'.
Proof.
  intros Hwf Hdis. unfold record_published, bind.
  destruct (_get_queue_metrics rk ms) as [[m|e] ms1] eqn:Hget;
    pose proof (get_queue_metrics_disjoint _ _ _ _ Hwf Hdis Hget) as Hdis1;
    [|by intros [= <- <-]].
  unfold counter_add, histogram_record.
  destruct (meter_fault (CounterAdd _ _)); [by intros [= <- <-]|].
  destruct (meter_fault (HistogramRecord _ _)); by intros [= <- <-].
Qed.

Lemma record_consumed_disjoint q hdrs body ms o ms' :
  metrics_wf ms → metrics_disjoint ms →
  record_consumed q hdrs body ms = (o, ms') → metrics_disjoint ms'.
Proof.
  intros Hwf Hdis. unfold record_consumed, bind.
  destruct (_get_queue_metrics q ms) as [[m|e] ms1] eqn:Hget;
    pose proof (get_queue_metrics_disjoint _ _ _ _ Hwf Hdis Hget) as Hdis1;
    [|by intros [= <- <-]].
  unfold counter_add, histogram_record.
  destruct (meter_fault (CounterAdd _ 1)); [by intros [= <- <-]|].
  destruct (meter_fault (HistogramRecord _ _)); [by intros [= <- <-]|].
  case_decide; [|by intros [= <- <-]].
  destruct (meter_fault (CounterAdd _ 1)); by intros [= <- <-].
Qed.

(** *** The kinds of the instruments *)

Lemma initial_metrics_kinded : metrics_kinded initial_metrics.
Proof. unfold metrics_kinded, initial_metrics. simpl. apply map_Forall_empty. Qed.

Lemma queue_metrics_kinds_app (ins extra : list Instrument)
    (m : QueueMetrics) :
  queue_metrics_kinds ins m → queue_metrics_kinds (ins ++ extra) m.
Proof.
  assert (∀ h k, inst_kind <$> ins !! h = Some k →
                 inst_kind <$> (ins ++ extra) !! h = Some k) as Happ.
  { intros h k Hk. destruct (ins !! h) as [i|] eqn:Hi; [|done].
    by rewrite (lookup_app_l_Some _ _ _ _ Hi). }
  unfold queue_metrics_kinds. intros (? & ? & ? & ? & ? & ?).
  repeat split; by apply Happ.
Qed.

Lemma queue_metrics_kinds_alter (ins : list Instrument) (m : QueueMetrics)
    (h : nat) (v : Z) :
  queue_metrics_kinds ins m →
  queue_metrics_kinds (alter (add_point v) h ins) m.
Proof.
  assert (∀ k, inst_kind <$> alter (add_point v) h ins !! k
               = inst_kind <$> ins !! k) as Halt.
  { intros k. destruct (decide (k = h)) as [->|Hne].
    - rewrite list_lookup_alter_eq. by destruct (ins !! h).
    - by rewrite list_lookup_alter_ne. }
  unfold queue_metrics_kinds. by rewrite !Halt.
Qed.

Lemma new_instruments_kinds (ins : list Instrument) (q : string) :
  queue_metrics_kinds (ins ++ new_instruments q)
    (queue_metrics_at (length ins)).
Proof.
  unfold queue_metrics_kinds, queue_metrics_at. simpl.
  rewrite !lookup_app_r by lia.
  replace (length ins - length ins) with 0 by lia.
  replace (length ins + 1 - length ins) with 1 by lia.
  replace (length ins + 2 - length ins) with 2 by lia.
  replace (length ins + 3 - length ins) with 3 by lia.
  replace (length ins + 4 - length ins) with 4 by lia.
  replace (length ins + 5 - length ins) with 5 by lia.
  done.
Qed.

Lemma get_queue_metrics_kinded q ms o ms' :
  metrics_kinded ms → _get_queue_metrics q ms = (o, ms') →
  metrics_kinded ms'.
Proof.
  intros Hk.
  destruct (metrics_by_queue ms !! q) as [m|] eqn:Hq.
  - rewrite (get_queue_metrics_hit q m) by done. by intros [= <- <-].
  - rewrite get_queue_metrics_miss by done.
    destruct (create_queue_metrics q ms) as [o1 ms1] eqn:Hc.
    apply create_queue_metrics_spec in Hc.
    destruct Hc as [(e & extra & -> & ->)|[-> ->]].
    + intros [= <- <-]. unfold metrics_kinded in *. simpl.
      eapply map_Forall_impl; [exact Hk|]. simpl. intros _ m.
      apply queue_metrics_kinds_app.
    + unfold lookup_queue_metrics. simpl. rewrite lookup_insert_eq.
      intros [= <- <-]. unfold metrics_kinded in *. simpl.
      apply map_Forall_insert_2; [apply new_instruments_kinds|].
      eapply map_Forall_impl; [exact Hk|]. simpl. intros _ m.
      apply queue_metrics_kinds_app.
Qed.

Lemma alter_kinded h v ms :
  metrics_kinded ms →
  metrics_kinded (with_instruments (alter (add_point v) h) ms).
Proof.
  unfold metrics_kinded. simpl. intros Hk.
  eapply map_Forall_impl; [exact Hk|]. simpl. intros _ m.
  apply queue_metrics_kinds_alter.
Qed.

Lemma record_published_kinded rk body ms o ms' :
  metrics_kinded ms → record_published rk body ms = (o, ms') →
  metrics_kinded ms'.
Proof.
  intros Hk. unfold record_published, bind.
  destruct (_get_queue_metrics rk ms) as [[m|e] ms1] eqn:Hget;
    pose proof (get_queue_metrics_kinded _ _ _ _ Hk Hget) as Hk1;
    [|by intros [= <- <-]].
  unfold counter_add, histogram_record.
  destruct (meter_fault (CounterAdd _ 1)); [by intros [= <- <-]|].
  destruct (meter_fault (HistogramRecord _ _)); intros [= <- <-];
    by repeat apply alter_kinded.
Qed.

Lemma record_consumed_kinded q hdrs body ms o ms' :
  metrics_kinded ms → record_consumed q hdrs body ms = (o, ms') →
  metrics_kinded ms'.
Proof.
  intros Hk. unfold record_consumed, bind.
  destruct (_get_queue_metrics q ms) as [[m|e] ms1] eqn:Hget;
    pose proof (get_queue_metrics_kinded _ _ _ _ Hk Hget) as Hk1;
    [|by intros [= <- <-]].
  unfold counter_add, histogram_record.
  destruct (meter_fault (CounterAdd _ 1)); [by intros [= <- <-]|].
  destruct (meter_fault (HistogramRecord _ _));
    [intros [= <- <-]; by repeat apply alter_kinded|].
  case_decide; [|intros [= <- <-]; by repeat apply alter_kinded].
  destruct (meter_fault (CounterAdd _ 1)); intros [= <- <-];
    by repeat apply alter_kinded.
Qed.

(** *** The invariant of the registry *)

Lemma initial_metrics_inv : metrics_inv initial_metrics.
Proof.
  split; [apply initial_metrics_wf|].
  split; [apply initial_metrics_disjoint|apply initial_metrics_kinded].
Qed.

Lemma record_published_inv rk body ms o ms' :
  metrics_inv ms → record_published rk body ms = (o, ms') → metrics_inv ms'.
Proof.
  intros (Hwf & Hdis & Hk) Hrec.
  split; [by eapply record_published_wf|].
  split; [by eapply record_published_disjoint|by eapply record_published_kinded].
Qed.

Lemma record_consumed_inv q hdrs body ms o ms' :
  metrics_inv ms → record_consumed q hdrs body ms = (o, ms') →
  metrics_inv ms'.
Proof.
  intros (Hwf & Hdis & Hk) Hrec.
  split; [by eapply record_consumed_wf|].
  split; [by eapply record_consumed_disjoint|by eapply record_consumed_kinded].
Qed.

End Disjoint.

(** ** The spans of the wrappers *)

Section MoreTheorems.
Context `{sdk : SDK}.

(** X1.  A publish starts exactly one span of its own, before the
    delegate runs: the delegate runs in a world that holds, after the
    earlier spans, the span [publish <routing key>] of kind [PRODUCER], a
    child of the span that was current, not ended, and now the current
    span.  After the delegate the wrapper starts no span and touches no
    span but its own: it changes nothing that span was started with and
    ends it on every path.  It restores the current context and logs
    nothing. *)
Theorem publish_span_discipline {R} (f : basic_publish_t R)
    (exchange rk : string) (body : bytes) (props : option BasicProperties)
    (mandatory : bool) (w : world) :
  let s := length (w_spans w) in
  let w1 := publish_world rk (ensure_headers props) w in
  let d := delegate_call f exchange rk body props mandatory w in
  let r := instrumented_publish f exchange rk body props mandatory w in
  (∃ sp,
     w_spans w1 = w_spans w ++ [sp] ∧
     sp_name sp = "publish " +:+ rk ∧ sp_kind sp = PRODUCER ∧
     sp_parent sp = ctx_span (w_current w) ∧ sp_ended sp = false ∧
     ctx_span (w_current w1) = Some (sp_context sp) ∧
     w_metrics w1 = w_metrics w ∧ w_log w1 = w_log w) ∧
  length (w_spans r.2) = length (w_spans d.2) ∧
  (∀ i, i ≠ s → w_spans r.2 !! i = w_spans d.2 !! i) ∧
  sp_name <$> (w_spans r.2 !! s) = sp_name <$> (w_spans d.2 !! s) ∧
  sp_kind <$> (w_spans r.2 !! s) = sp_kind <$> (w_spans d.2 !! s) ∧
  sp_parent <$> (w_spans r.2 !! s) = sp_parent <$> (w_spans d.2 !! s) ∧
  sp_context <$> (w_spans r.2 !! s) = sp_context <$> (w_spans d.2 !! s) ∧
  (s < length (w_spans d.2) → sp_ended <$> (w_spans r.2 !! s) = Some true) ∧
  w_current r.2 = w_current w ∧ w_draws r.2 = w_draws d.2 ∧
  w_log r.2 = w_log d.2.
Proof.
  intros s w1 d r. split.
  { eexists. split; [reflexivity|]. by repeat split. }
  subst r. rewrite instrumented_publish_run. cbv zeta. fold d s.
  cbn [fst snd w_spans w_current w_draws w_log].
  destruct (publish_exit_spans s (publish_outcome rk body d).1 (w_spans d.2))
    as (Hlen & Hne & g & Hg & Hs).
  cbv zeta in Hlen, Hne, Hs.
  split; [exact Hlen|]. split; [exact Hne|].
  rewrite Hs.
  destruct (w_spans d.2 !! s) as [sp|] eqn:Hsp; simpl.
  - destruct (Hg sp) as (-> & -> & -> & -> & _). by repeat split.
  - repeat split; try done. intros Hlt.
    apply lookup_lt_is_Some_2 in Hlt. rewrite Hsp in Hlt. by destruct Hlt.
Qed.


(** X2.  A delivery starts its spans before the callback runs, and none
    after.  When the metric calls raise, the callback is not called and
    the consume span is the only span added; it is ended.  When they
    return, the callback runs in a world that holds, after the earlier
    spans, the span [consume <queue>], whose parent is the span extracted
    from the headers, and the span [process <queue>]; neither is the
    current span.  After the callback the wrapper touches no span but
    these two, changes nothing they were started with and ends both; it
    leaves the current context and the log as the callback left them. *)
Theorem delivery_span_discipline {Ch Method R} (q : string)
    (cb : callback_t Ch Method R) (ch : Ch) (method : Method)
    (props : BasicProperties) (body : bytes) (w : world) :
  let s := length (w_spans w) in
  let r := instrumented_callback q cb ch method props body w in
  (∀ e ms,
     record_consumed q (headers_or_empty props) body (w_metrics w)
       = (Raise e, ms) →
     ∃ sp,
       w_spans r.2 = w_spans w ++ [sp] ∧
       sp_name sp = "consume " +:+ q ∧ sp_kind sp = CONSUMER ∧
       sp_parent sp = ctx_span (extract (headers_or_empty props) w) ∧
       sp_ended sp = true ∧
       w_current r.2 = w_current w ∧ w_log r.2 = w_log w) ∧
  (∀ ms,
     record_consumed q (headers_or_empty props) body (w_metrics w)
       = (Return tt, ms) →
     let cw := callback_world q props ms w in
     let c := callback_call cb ch method props body q ms w in
     (∃ consume process,
        w_spans cw = w_spans w ++ [consume; process] ∧
        sp_name consume = "consume " +:+ q ∧ sp_kind consume = CONSUMER ∧
        sp_parent consume = ctx_span (extract (headers_or_empty props) w) ∧
        sp_name process = "process " +:+ q ∧ sp_kind process = INTERNAL ∧
        sp_parent process = ctx_span (w_current w) ∧
        sp_ended consume = false ∧ sp_ended process = false ∧
        w_current cw = w_current w ∧ w_log cw = w_log w) ∧
     length (w_spans r.2) = length (w_spans c.2) ∧
     (∀ i, i ≠ s → i ≠ S s → w_spans r.2 !! i = w_spans c.2 !! i) ∧
     (∀ i, i = s ∨ i = S s →
        sp_name <$> (w_spans r.2 !! i) = sp_name <$> (w_spans c.2 !! i) ∧
        sp_kind <$> (w_spans r.2 !! i) = sp_kind <$> (w_spans c.2 !! i) ∧
        sp_parent <$> (w_spans r.2 !! i) = sp_parent <$> (w_spans c.2 !! i) ∧
        sp_context <$> (w_spans r.2 !! i)
          = sp_context <$> (w_spans c.2 !! i) ∧
        (i < length (w_spans c.2) →
         sp_ended <$> (w_spans r.2 !! i) = Some true)) ∧
     w_current r.2 = w_current c.2 ∧ w_log r.2 = w_log c.2).
Proof.
  intros s r. split.
  - intros e ms Hrec. subst r. rewrite instrumented_callback_run. cbv zeta.
    rewrite Hrec. cbn [fst snd w_spans w_current w_log]. subst s.
    unfold span_exit_marks, handler_marks.
    destruct (span_exit_records e), (exc_is_Exception e);
      rewrite ?alter_at_length;
      (eexists; split; [reflexivity|]); by repeat split.
  - intros ms Hrec cw c. split.
    { eexists _, _. split; [reflexivity|]. by repeat split. }
    subst r. rewrite instrumented_callback_run. cbv zeta. rewrite Hrec.
    fold c s. cbn [fst snd w_spans w_current w_log].
    destruct (consume_exit_spans s c.1 (w_spans c.2))
      as (Hlen & Hne & (g & Hg & Hs) & (g' & Hg' & Hs')).
    cbv zeta in Hlen, Hne, Hs, Hs'.
    split; [exact Hlen|]. split; [exact Hne|]. split; [|done].
    assert (∀ (h : Span → Span) i,
              span_update h →
              alter span_end s
                (span_exit_marks s c.1
                   (handler_marks s c.1
                      (alter span_end (S s)
                         (span_exit_marks (S s) c.1 (w_spans c.2))))) !! i
              = (λ sp, span_end (h sp)) <$> w_spans c.2 !! i →
              sp_name <$> ((λ sp, span_end (h sp)) <$> w_spans c.2 !! i)
                = sp_name <$> (w_spans c.2 !! i) ∧
              sp_kind <$> ((λ sp, span_end (h sp)) <$> w_spans c.2 !! i)
                = sp_kind <$> (w_spans c.2 !! i) ∧
              sp_parent <$> ((λ sp, span_end (h sp)) <$> w_spans c.2 !! i)
                = sp_parent <$> (w_spans c.2 !! i) ∧
              sp_context <$> ((λ sp, span_end (h sp)) <$> w_spans c.2 !! i)
                = sp_context <$> (w_spans c.2 !! i) ∧
              (i < length (w_spans c.2) →
               sp_ended <$> ((λ sp, span_end (h sp)) <$> w_spans c.2 !! i)
                 = Some true)) as Hfields.
    { intros h i Hh _.
      destruct (w_spans c.2 !! i) as [sp|] eqn:Hsp; simpl.
      - destruct (Hh sp) as (-> & -> & -> & -> & _). by repeat split.
      - repeat split; try done. intros Hlt.
        apply lookup_lt_is_Some_2 in Hlt. rewrite Hsp in Hlt.
        by destruct Hlt. }
    intros i [->| ->].
    + rewrite Hs. by apply Hfields.
    + rewrite Hs'. by apply Hfields.
Qed.


(** X3.  On a delivery whose metric calls return, the size histogram of
    the queue has got the length of the body when the callback starts,
    whatever the callback then does.  When the callback has left the two
    spans of the wrapper as they were started, both are ended: the
    process span is a child of the span that was current when the
    delivery arrived, not of the consume span, which is never made
    current; both keep status [UNSET] and hold no event when the callback
    returns; both end with status [ERROR] and hold the exception when the
    callback raises an exception that the exit of a span records. *)
Theorem delivery_spans {Ch Method R} (q : string)
    (cb : callback_t Ch Method R) (ch : Ch) (method : Method)
    (props : BasicProperties) (body : bytes) (w : world)
    (ms : metrics_state) :
  let s := length (w_spans w) in
  let c := callback_call cb ch method props body q ms w in
  let r := instrumented_callback q cb ch method props body w in
  metrics_wf (w_metrics w) →
  record_consumed q (headers_or_empty props) body (w_metrics w)
    = (Return tt, ms) →
  size_observations q ms = size_observations q (w_metrics w) ++ [len body] ∧
  w_metrics (callback_world q props ms w) = ms ∧
  (w_spans c.2 !! s = Some (consume_span q props w) →
   w_spans c.2 !! S s = Some (process_span q (consume_world q props w)) →
   ∃ consume process,
     w_spans r.2 !! s = Some consume ∧ w_spans r.2 !! S s = Some process ∧
     sp_name consume = "consume " +:+ q ∧
     sp_name process = "process " +:+ q ∧
     sp_parent consume = ctx_span (extract (headers_or_empty props) w) ∧
     sp_parent process = ctx_span (w_current w) ∧
     sp_ended consume = true ∧ sp_ended process = true ∧
     (∀ x, c.1 = Return x →
        sp_status consume = UNSET ∧ sp_exceptions consume = [] ∧
        sp_status process = UNSET ∧ sp_exceptions process = []) ∧
     (∀ e, c.1 = Raise e → span_exit_records e = true →
        sp_status consume = ERROR ∧ e ∈ sp_exceptions consume ∧
        sp_status process = ERROR ∧ e ∈ sp_exceptions process)).
Proof.
  intros s c r Hwf Hrec.
  destruct (record_consumed_returns _ _ _ _ _ Hwf Hrec)
    as (_ & _ & Hsize & _).
  split; [exact Hsize|]. split; [done|].
  intros Hs Hs1. subst r. rewrite instrumented_callback_run. cbv zeta.
  rewrite Hrec. fold c s. cbn [fst snd w_spans].
  unfold span_exit_marks, handler_marks.
  destruct c.1 as [x|e] eqn:Hc;
    [|destruct (span_exit_records e) eqn:He1,
               (exc_is_Exception e) eqn:He2];
    repeat first
      [ rewrite list_lookup_alter_eq
      | rewrite list_lookup_alter_ne by lia ];
    rewrite Hs, Hs1; simpl;
    (eexists _, _; split; [reflexivity|]; split; [reflexivity|]);
    simpl; (repeat split; try done);
    try set_solver;
    try (match goal with
         | H : Raise _ = Raise _ |- _ => injection H as <-; congruence
         end).
Qed.


(** X4.  When the delegate raises, the wrapper raises that exception and
    records nothing: the meter and [metrics_by_queue] are exactly as the
    delegate left them, hence as before the call when the delegate has
    not touched them. *)
Theorem publish_failure_records_nothing {R} (f : basic_publish_t R)
    (exchange rk : string) (body : bytes) (props : option BasicProperties)
    (mandatory : bool) (w : world) (e : exn) :
  let d := delegate_call f exchange rk body props mandatory w in
  let r := instrumented_publish f exchange rk body props mandatory w in
  d.1.1 = Raise e →
  r.1.1 = Raise e ∧ w_metrics r.2 = w_metrics d.2 ∧
  (w_metrics d.2 = w_metrics w → w_metrics r.2 = w_metrics w).
Proof.
  intros d r Hd. subst r. rewrite instrumented_publish_run. cbv zeta.
  fold d. unfold publish_outcome. rewrite Hd. cbn [fst snd w_metrics].
  done.
Qed.


(** X5.  [instrument_publisher] does not look whether the channel is
    instrumented already.  On a channel instrumented twice, when the
    delegate returns and the metric calls of both wrappers return, one
    publish adds 2 to the published counter of the routing key and
    records the size of the body twice, over what the delegate left; the
    delegate runs under two spans [publish <routing key>], the inner one
    a child of the outer one in the same trace, and both are ended when
    the delegate has not removed them; the delegate's result is
    returned. *)
Theorem publisher_instrumented_twice {R} (f : basic_publish_t R)
    (exchange rk : string) (body : bytes) (props : BasicProperties)
    (mandatory : bool) (w : world) (x : R) (ms1 ms2 : metrics_state) :
  let s := length (w_spans w) in
  let p1 := sent_properties rk (Some props) w in
  let w1 := publish_world rk (ensure_headers (Some props)) w in
  let w2 := publish_world rk (ensure_headers (Some p1)) w1 in
  let d := delegate_call f exchange rk body (Some p1) mandatory w1 in
  let r := instrument_publisher (instrument_publisher f)
             exchange rk body props mandatory w in
  d.1.1 = Return x →
  metrics_wf (w_metrics d.2) →
  record_published rk body (w_metrics d.2) = (Return tt, ms1) →
  record_published rk body ms1 = (Return tt, ms2) →
  r.1.1 = Return x ∧ w_metrics r.2 = ms2 ∧
  published_total rk ms2 = (published_total rk (w_metrics d.2) + 2)%Z ∧
  size_observations rk ms2 =
    size_observations rk (w_metrics d.2) ++ [len body; len body] ∧
  (∃ outer inner,
     w_spans w2 = w_spans w ++ [outer; inner] ∧
     sp_name outer = "publish " +:+ rk ∧ sp_name inner = "publish " +:+ rk ∧
     sp_parent inner = Some (sp_context outer) ∧
     trace_id (sp_context inner) = trace_id (sp_context outer) ∧
     ctx_span (w_current w2) = Some (sp_context inner)) ∧
  (S s < length (w_spans d.2) →
   sp_ended <$> (w_spans r.2 !! s) = Some true ∧
   sp_ended <$> (w_spans r.2 !! S s) = Some true).
Proof.
  intros s p1 w1 w2 d r Hx Hwf Hrec1 Hrec2.
  assert (length (w_spans w1) = S s) as Hlen1.
  { unfold w1, publish_world. cbn [w_spans]. rewrite length_app. simpl.
    unfold s. lia. }
  assert (instrumented_publish f exchange rk body (Some p1) mandatory w1 =
            (Return x, d.1.2,
             World (alter span_end (S s) (w_spans d.2)) ms1 (w_current w1)
               (w_draws d.2) (w_log d.2))) as Hin.
  { rewrite instrumented_publish_run. cbv zeta. fold d.
    unfold publish_outcome. rewrite Hx, Hrec1. cbn [fst snd].
    by rewrite Hlen1. }
  destruct (record_published_returns _ _ _ _ Hwf Hrec1)
    as (Hwf1 & Hpub1 & Hsize1 & _).
  destruct (record_published_returns _ _ _ _ Hwf1 Hrec2)
    as (_ & Hpub2 & Hsize2 & _).
  assert (r = (Return x, d.1.2,
               World (alter span_end s (alter span_end (S s) (w_spans d.2)))
                 ms2 (w_current w) (w_draws d.2) (w_log d.2))) as ->.
  { assert (delegate_call (instrument_publisher f) exchange rk body
              (Some props) mandatory w =
              (Return x, d.1.2,
               World (alter span_end (S s) (w_spans d.2)) ms1 (w_current w1)
                 (w_draws d.2) (w_log d.2))) as Hout by exact Hin.
    subst r. unfold instrument_publisher at 1.
    rewrite instrumented_publish_run. cbv zeta. rewrite Hout.
    unfold publish_outcome.
    cbn [fst snd w_metrics w_spans w_draws w_log]. by rewrite Hrec2. }
  cbn [fst snd w_metrics w_spans].
  split; [done|]. split; [done|].
  split; [rewrite Hpub2, Hpub1; lia|].
  split; [rewrite Hsize2, Hsize1, <- (assoc_L (++)); done|].
  split.
  { unfold w2, w1, publish_world. cbn [w_spans w_current ctx_span].
    rewrite <- (assoc_L (++)). cbn [app].
    eexists _, _. split; [reflexivity|]. by repeat split. }
  intros Hlt.
  rewrite list_lookup_alter_eq, list_lookup_alter_ne by lia.
  rewrite list_lookup_alter_ne, list_lookup_alter_eq by lia.
  destruct (lookup_lt_is_Some_2 (w_spans d.2) s ltac:(lia)) as [sp0 ->].
  destruct (lookup_lt_is_Some_2 (w_spans d.2) (S s) Hlt) as [sp1 ->].
  done.
Qed.


(** ** Propagation *)

(** X6.  A delivery of the properties that a publish has handed to its
    delegate continues the producer's trace, provided the SDK's parser
    reads the [traceparent] that the publish wrote: the consume span has
    the PRODUCER span as its remote parent and carries its trace id, and
    is found right after the earlier spans when the callback has left it
    there. *)
Theorem trace_continues_across_queue {Ch Method R}
    (rk : string) (props : option BasicProperties) (w : world)
    (q : string) (cb : callback_t Ch Method R) (ch : Ch) (method : Method)
    (body' : bytes) (w' : world) (parsed : SpanContext) :
  let producer := child_context (ctx_span (w_current w)) (w_draws w) in
  let sent := sent_properties rk props w in
  let r := instrumented_callback q cb ch method sent body' w' in
  parse_traceparent (traceparent producer) = Some parsed →
  trace_id parsed = trace_id producer → span_id parsed = span_id producer →
  is_valid parsed = true →
  (∀ ms,
     record_consumed q (headers_or_empty sent) body' (w_metrics w')
       = (Return tt, ms) →
     w_spans (callback_call cb ch method sent body' q ms w').2
       !! length (w_spans w') = Some (consume_span q sent w')) →
  sp_context (publish_span rk (ensure_headers props) w) = producer ∧
  ∃ consume parent,
    w_spans r.2 !! length (w_spans w') = Some consume ∧
    sp_parent consume = Some parent ∧
    trace_id parent = trace_id producer ∧
    span_id parent = span_id producer ∧
    is_remote parent = true ∧
    trace_id (sp_context consume) = trace_id producer.
Proof.
  intros producer sent r Hparse Htid Hsid Hvalid Hleft.
  split; [done|].
  destruct (sent_properties_traceparent rk props w) as (h' & Hh & Htp).
  fold sent in Hh. fold producer in Htp.
  set (parent := {| trace_id := trace_id parsed; span_id := span_id parsed;
                    trace_flags := trace_flags parsed;
                    trace_state := default "" (h' !! "tracestate");
                    is_remote := true |}).
  assert (ctx_span (extract (headers_or_empty sent) w') = Some parent)
    as Hextract.
  { rewrite headers_or_empty_default, Hh. simpl.
    unfold extract, baggage_extract, tracecontext_extract. simpl.
    rewrite Htp, Hparse, Hvalid.
    by destruct (h' !! "baggage"). }
  assert (sp_parent (consume_span q sent w') = Some parent ∧
          trace_id (sp_context (consume_span q sent w')) = trace_id producer)
    as [Hparent Htrace].
  { unfold consume_span. cbv zeta. rewrite Hextract. done. }
  destruct (delivery_span_fields q cb ch method sent body' w') as [Hraise Hret].
  destruct (record_consumed q (headers_or_empty sent) body' (w_metrics w'))
    as [[[]|e] ms] eqn:Hrec.
  - destruct (Hret ms eq_refl (Hleft ms eq_refl))
      as (consume & Hl & Hp & Hc).
    exists consume, parent. rewrite Hp, Hc, Hparent, Htrace.
    by repeat split.
  - destruct (Hraise e ms eq_refl) as (consume & Hl & Hp & Hc).
    exists consume, parent. rewrite Hp, Hc, Hparent, Htrace.
    by repeat split.
Qed.


(** What [propagate_context_to_rabbitmq] returns. *)
Lemma propagate_context_to_rabbitmq_eq (p : BasicProperties) (w : world) :
  let r := propagate_context_to_rabbitmq p w in
  ∃ p',
    r.1 = Return p' ∧
    headers p' = Some (inject (default ∅ (headers p)) w) ∧
    (∀ k, k ∉ propagation_keys →
       default ∅ (headers p') !! k = default ∅ (headers p) !! k) ∧
    correlation_id p' = correlation_id p ∧
    content_type p' = content_type p ∧
    content_encoding p' = content_encoding p ∧
    delivery_mode p' = delivery_mode p ∧ priority p' = priority p ∧
    reply_to p' = reply_to p ∧ expiration p' = expiration p ∧
    message_id p' = message_id p ∧ timestamp p' = timestamp p ∧
    type p' = type p ∧ user_id p' = user_id p ∧ app_id p' = app_id p ∧
    cluster_id p' = cluster_id p ∧
    w_spans r.2 = w_spans w ∧ w_current r.2 = w_current w.
Proof.
  intros r. subst r. unfold propagate_context_to_rabbitmq, bind, gets, modify,
    ret. cbn [fst snd].
  eexists. split; [reflexivity|].
  destruct (headers p) as [h|] eqn:Hh; simpl; rewrite ?Hh; simpl;
    (split; [done|]); (split; [intros k Hk; by apply inject_frame|]);
    by repeat split.
Qed.

(** X7.  [propagate_context_to_rabbitmq] returns the properties with a
    headers map into which the context is injected: every header other
    than the propagation keys and every other field of the properties is
    unchanged; no span is started and the current context is kept. *)
Theorem propagate_keeps_properties (p : BasicProperties) (w : world) :
  let r := propagate_context_to_rabbitmq p w in
  ∃ p',
    r.1 = Return p' ∧
    is_Some (headers p') ∧
    (∀ k, k ∉ propagation_keys →
       default ∅ (headers p') !! k = default ∅ (headers p) !! k) ∧
    (∀ sc, ctx_span (w_current w) = Some sc →
       default ∅ (headers p') !! "traceparent" = Some (traceparent sc)) ∧
    correlation_id p' = correlation_id p ∧
    content_type p' = content_type p ∧
    content_encoding p' = content_encoding p ∧
    delivery_mode p' = delivery_mode p ∧ priority p' = priority p ∧
    reply_to p' = reply_to p ∧ expiration p' = expiration p ∧
    message_id p' = message_id p ∧ timestamp p' = timestamp p ∧
    type p' = type p ∧ user_id p' = user_id p ∧ app_id p' = app_id p ∧
    cluster_id p' = cluster_id p ∧
    w_spans r.2 = w_spans w ∧ w_current r.2 = w_current w.
Proof.
  intros r.
  destruct (propagate_context_to_rabbitmq_eq p w)
    as (p' & Hr & Hh & Hframe & Hrest).
  exists p'. split; [exact Hr|]. split; [rewrite Hh; eauto|].
  split; [exact Hframe|]. split; [|exact Hrest].
  intros sc Hsc. rewrite Hh. simpl. by apply inject_traceparent.
Qed.

(** X8.  What [propagate_context_to_rabbitmq] writes,
    [extract_context_from_rabbitmq] reads back, provided the SDK's parser
    reads the [traceparent] of the current span: the extracted context
    carries a remote span with the trace id and the span id of the span
    that was current, and the baggage when the SDK decodes what it
    encoded. *)
Theorem rabbitmq_context_roundtrip (p : BasicProperties) (w w' : world)
    (sc parsed : SpanContext) :
  ctx_span (w_current w) = Some sc →
  parse_traceparent (traceparent sc) = Some parsed →
  trace_id parsed = trace_id sc → span_id parsed = span_id sc →
  is_valid parsed = true →
  ∃ p' ctx sc',
    (propagate_context_to_rabbitmq p w).1 = Return p' ∧
    (extract_context_from_rabbitmq p' w').1 = Return ctx ∧
    ctx_span ctx = Some sc' ∧
    trace_id sc' = trace_id sc ∧ span_id sc' = span_id sc ∧
    is_remote sc' = true ∧
    (ctx_baggage (w_current w) ≠ ∅ →
     decode_baggage (encode_baggage (ctx_baggage (w_current w)))
       = ctx_baggage (w_current w) →
     ctx_baggage ctx = ctx_baggage (w_current w)).
Proof.
  intros Hsc Hparse Htid Hsid Hvalid.
  destruct (propagate_context_to_rabbitmq_eq p w)
    as (p' & Hp' & Hh & _).
  cbv zeta in Hp'.
  exists p'. rewrite extract_context_from_rabbitmq_eq. cbn [fst].
  eexists _, _. split; [exact Hp'|]. split; [reflexivity|].
  assert (headers_or_empty p' = inject (default ∅ (headers p)) w) as ->.
  { unfold headers_or_empty. rewrite Hh. by case_decide. }
  unfold extract, baggage_extract, tracecontext_extract. cbn [default].
  rewrite (inject_traceparent _ _ _ Hsc), Hparse, Hvalid.
  set (h' := inject (default ∅ (headers p)) w).
  assert (ctx_baggage (w_current w) ≠ ∅ →
          h' !! "baggage" = Some (encode_baggage (ctx_baggage (w_current w))))
    as Hbag.
  { intros Hne. unfold h', inject, baggage_inject.
    rewrite decide_False by done. apply lookup_insert_eq. }
  destruct (h' !! "baggage") as [hb|] eqn:Hb; cbn [ctx_span ctx_baggage].
  - split; [reflexivity|]. split; [done|]. split; [done|]. split; [done|].
    intros Hne Hdec. specialize (Hbag Hne). injection Hbag as ->.
    rewrite Hdec. simpl. by rewrite (right_id_L ∅ (∪)).
  - split; [reflexivity|]. split; [done|]. split; [done|]. split; [done|].
    intros Hne _. by specialize (Hbag Hne).
Qed.

(** X9.  [HomelabTelemetry.inject_context] leaves the carrier as it is
    when no span is current and there is no baggage; injecting a second
    time changes nothing more; keys other than the propagation keys are
    never changed. *)
Theorem inject_context_idle_and_idempotent (carrier : gmap string string)
    (w : world) :
  (ctx_span (w_current w) = None → ctx_baggage (w_current w) = ∅ →
     inject_context carrier w = carrier) ∧
  inject_context (inject_context carrier w) w = inject_context carrier w ∧
  (∀ k, k ∉ propagation_keys → inject_context carrier w !! k = carrier !! k).
Proof.
  split; [|split].
  - intros Hs Hb. unfold inject_context, baggage_inject, tracecontext_inject.
    rewrite Hs, Hb. by rewrite decide_True.
  - unfold inject_context, baggage_inject, tracecontext_inject.
    destruct (ctx_span (w_current w)) as [sc|];
      [destruct (String.eqb (trace_state sc) "")|];
      case_decide; try done; apply map_eq; intros k;
      rewrite !lookup_insert; repeat case_decide; congruence.
  - intros k Hk. by apply inject_frame.
Qed.

(** X10.  [inject_context_to_headers] returns the given headers with the
    context injected: every other key is kept, and the [traceparent] of
    the current span is there.  Called without headers, or with an empty
    dict, it returns propagation keys only. *)
Theorem inject_context_to_headers_keys (hdrs : option (gmap string string))
    (w : world) :
  let r := inject_context_to_headers hdrs w in
  ∃ h',
    r.1 = Return h' ∧
    (∀ k, k ∉ propagation_keys → h' !! k = default ∅ hdrs !! k) ∧
    (default ∅ hdrs = ∅ → ∀ k, is_Some (h' !! k) → k ∈ propagation_keys) ∧
    (∀ sc, ctx_span (w_current w) = Some sc →
       h' !! "traceparent" = Some (traceparent sc)) ∧
    w_spans r.2 = w_spans w ∧ w_current r.2 = w_current w.
Proof.
  intros r. subst r.
  unfold inject_context_to_headers, bind, gets, modify, ret. cbn [fst snd].
  eexists. split; [reflexivity|].
  split; [intros k Hk; by apply inject_frame|].
  split.
  { intros Hempty k Hk.
    destruct (decide (k ∈ propagation_keys)) as [|Hnot]; [done|].
    rewrite inject_frame, Hempty, lookup_empty in Hk by done.
    by destruct Hk. }
  split; [intros sc Hsc; by apply inject_traceparent|done].
Qed.

(** X11.  What [inject_context_to_headers] writes,
    [extract_context_from_request] reads back, provided the SDK's parser
    reads the [traceparent] of the current span: the extracted context
    carries a remote span with the trace id and the span id of the span
    that was current on the sending side.  The extraction returns the
    context without making it current. *)
Theorem http_context_roundtrip (hdrs : option (gmap string string))
    (w w' : world) (sc parsed : SpanContext) :
  ctx_span (w_current w) = Some sc →
  parse_traceparent (traceparent sc) = Some parsed →
  trace_id parsed = trace_id sc → span_id parsed = span_id sc →
  is_valid parsed = true →
  ∃ h' ctx sc',
    (inject_context_to_headers hdrs w).1 = Return h' ∧
    (extract_context_from_request h' w').1 = Return ctx ∧
    ctx_span ctx = Some sc' ∧
    trace_id sc' = trace_id sc ∧ span_id sc' = span_id sc ∧
    is_remote sc' = true ∧
    w_current (extract_context_from_request h' w').2 = w_current w' ∧
    w_spans (extract_context_from_request h' w').2 = w_spans w'.
Proof.
  intros Hsc Hparse Htid Hsid Hvalid.
  unfold inject_context_to_headers, extract_context_from_request,
    bind, gets, modify, ret. cbn [fst snd].
  eexists _, _, _. split; [reflexivity|]. split; [reflexivity|].
  unfold extract, baggage_extract, tracecontext_extract. cbn [default].
  rewrite (inject_traceparent _ _ _ Hsc), Hparse, Hvalid.
  destruct (inject (default ∅ hdrs) w !! "baggage");
    cbn [ctx_span ctx_baggage]; (split; [reflexivity|]); by repeat split.
Qed.

(** ** The decorators *)

(** X12.  [HomelabTelemetry.instrument]: the wrapper returns or raises
    what [func] does, [func] runs with the new span current, and the
    current context is restored afterwards; the wrapper never ends the
    span: a span that [func] leaves alone is still not ended when the
    wrapper is left, on every path. *)
Theorem instrument_leaves_span_open {R} (name : option string)
    (kind : SpanKind) (attributes : option (gmap string string))
    (func_name : string) (func : M world R) (w : world) :
  let w2 := decorated_world (span_name_or name func_name) kind attributes w in
  let r := instrument name kind attributes func_name func w in
  let s := length (w_spans w) in
  r.1 = (func w2).1 ∧
  w_current r.2 = w_current w ∧
  w_metrics r.2 = w_metrics (func w2).2 ∧ w_log r.2 = w_log (func w2).2 ∧
  length (w_spans r.2) = length (w_spans (func w2).2) ∧
  sp_ended <$> (w_spans r.2 !! s) = sp_ended <$> (w_spans (func w2).2 !! s) ∧
  (w_spans (func w2).2 !! s = w_spans w2 !! s →
   sp_ended <$> (w_spans r.2 !! s) = Some false).
Proof.
  intros w2 r s. subst r. rewrite instrument_eq. cbv zeta. fold w2.
  destruct (func w2) as [o w3]. cbn [fst snd w_spans w_current w_metrics w_log].
  assert (sp_ended <$> (w_spans w2 !! s) = Some false) as Hopen.
  { subst s w2. unfold decorated_world. cbn [w_spans].
    by rewrite list_lookup_middle. }
  assert (∀ e sp, sp_ended (span_set_status ERROR
                              (span_record_exception e sp)) = sp_ended sp)
    as Hlib.
  { intros e sp.
    by rewrite span_set_status_ended, span_record_exception_ended. }
  assert (length match o with
                 | Raise e =>
                     if exc_is_Exception e
                     then alter (λ sp, span_set_status ERROR
                                         (span_record_exception e sp))
                            (length (w_spans w))
                            (alter (span_set_status ERROR)
                               (length (w_spans w))
                               (alter (span_record_exception e)
                                  (length (w_spans w)) (w_spans w3)))
                     else w_spans w3
                 | Return _ => w_spans w3
                 end = length (w_spans w3)) as Hlen.
  { destruct o as [x|e]; [done|]. destruct (exc_is_Exception e); [|done].
    by rewrite !length_alter. }
  assert (sp_ended <$>
            (match o with
             | Raise e =>
                 if exc_is_Exception e
                 then alter (λ sp, span_set_status ERROR
                                     (span_record_exception e sp))
                        (length (w_spans w))
                        (alter (span_set_status ERROR)
                           (length (w_spans w))
                           (alter (span_record_exception e)
                              (length (w_spans w)) (w_spans w3)))
                 else w_spans w3
             | Return _ => w_spans w3
             end !! s) = sp_ended <$> (w_spans w3 !! s)) as Hsame.
  { destruct o as [x|e]; [done|]. destruct (exc_is_Exception e); [|done].
    subst s.
    rewrite !lookup_alter_ended;
      [done|apply span_record_exception_ended|apply span_set_status_ended
      |apply Hlib]. }
  repeat split; try done.
  intros Heq. by rewrite Hsame, Heq.
Qed.

(** X13.  [TracingHelper.instrument_function]: the wrapper returns or
    raises what [func] does and restores the current context; the span
    is ended on every path; when [func] leaves the span alone, its status
    is [UNSET] after [func] has returned, and [ERROR], with the exception
    recorded, after [func] has raised an exception deriving from
    [Exception]. *)
Theorem instrument_function_ends_span {R} (span_name : string)
    (kind : SpanKind) (attributes : option (gmap string string))
    (func : M world R) (w : world) :
  let w2 := decorated_world span_name kind attributes w in
  let r := instrument_function span_name kind attributes func w in
  let s := length (w_spans w) in
  r.1 = (func w2).1 ∧
  w_current r.2 = w_current w ∧
  w_metrics r.2 = w_metrics (func w2).2 ∧ w_log r.2 = w_log (func w2).2 ∧
  (s < length (w_spans (func w2).2) →
   sp_ended <$> (w_spans r.2 !! s) = Some true) ∧
  (w_spans (func w2).2 !! s = w_spans w2 !! s →
   (∀ x, r.1 = Return x → sp_status <$> (w_spans r.2 !! s) = Some UNSET) ∧
   ∀ e, r.1 = Raise e → exc_is_Exception e = true →
     ∃ sp, w_spans r.2 !! s = Some sp ∧
           sp_status sp = ERROR ∧ e ∈ sp_exceptions sp).
Proof.
  intros w2 r s. subst r. rewrite instrument_function_eq. cbv zeta. fold w2.
  destruct (func w2) as [o w3]. cbn [fst snd w_spans w_current w_metrics w_log].
  assert (w_spans w2 !! s = Some (decorated_span span_name kind attributes w))
    as Hopen.
  { subst s w2. unfold decorated_world. cbn [w_spans].
    by rewrite list_lookup_middle. }
  split; [done|]. split; [done|]. split; [done|]. split; [done|]. split.
  - intros Hs. subst s. rewrite list_lookup_alter_eq.
    destruct o as [x|e]; [|destruct (exc_is_Exception e)].
    + destruct (lookup_lt_is_Some_2 _ _ Hs) as [sp ->]. done.
    + rewrite !list_lookup_alter_eq.
      destruct (lookup_lt_is_Some_2 _ _ Hs) as [sp ->]. done.
    + destruct (lookup_lt_is_Some_2 _ _ Hs) as [sp ->]. done.
  - intros Heq. subst s. split.
    + intros x ->. by rewrite list_lookup_alter_eq, Heq, Hopen.
    + intros e -> He. rewrite He.
      rewrite !list_lookup_alter_eq, Heq, Hopen. simpl.
      eexists. split; [reflexivity|]. simpl. split; [done|set_solver].
Qed.

(** X14.  [_setup_auto_instrumentation] attempts every instrumentor: when
    the exceptions they raise derive from [Exception] it returns, and the
    log gets one line per failing instrumentor, in order; nothing else of
    the world changes. *)
Theorem auto_instrumentation_swallows (instrumentors : list (string * outcome unit))
    (w : world) :
  Forall (λ i, ∀ e, i.2 = Raise e → exc_is_Exception e = true) instrumentors →
  _setup_auto_instrumentation instrumentors w =
    (Return tt,
     World (w_spans w) (w_metrics w) (w_current w) (w_draws w)
           (w_log w ++ failure_lines instrumentors)).
Proof.
  intros Hall. revert w.
  induction Hall as [|[name o] rest Ho Hrest IH]; intros w.
  - simpl. unfold ret, failure_lines. simpl. rewrite app_nil_r.
    by destruct w.
  - simpl. unfold bind, try_except_Exception, call.
    destruct o as [[]|e].
    + rewrite IH. done.
    + simpl in Ho. rewrite (Ho e eq_refl). unfold modify.
      rewrite IH. unfold failure_lines. simpl.
      by rewrite <- (assoc_L (++)).
Qed.

(** X15.  An exception that does not derive from [Exception] stops
    [_setup_auto_instrumentation]: it is raised to the caller, the
    instrumentors after it are not attempted, and the log holds the lines
    of the failures before it. *)
Theorem auto_instrumentation_aborts (done' rest : list (string * outcome unit))
    (name : string) (e : exn) (w : world) :
  Forall (λ i, ∀ e, i.2 = Raise e → exc_is_Exception e = true) done' →
  exc_is_Exception e = false →
  _setup_auto_instrumentation (done' ++ (name, Raise e) :: rest) w =
    (Raise e,
     World (w_spans w) (w_metrics w) (w_current w) (w_draws w)
           (w_log w ++ failure_lines done')).
Proof.
  intros Hall He. revert w.
  induction Hall as [|[name' o] done' Ho Hdone IH]; intros w.
  - simpl. unfold bind, try_except_Exception, call. rewrite He.
    unfold failure_lines. simpl. rewrite app_nil_r. by destruct w.
  - simpl. unfold bind, try_except_Exception, call.
    destruct o as [[]|e'].
    + by rewrite IH.
    + simpl in Ho. rewrite (Ho e' eq_refl). unfold modify.
      rewrite IH. unfold failure_lines. simpl.
      by rewrite <- (assoc_L (++)).
Qed.

(** X16.  [TelemetryTestMixin.get_spans]: with [None] or the empty name it
    returns the recorded spans; with a non-empty name it returns the
    recorded spans of that name, in the order they were recorded and each
    as often as it was recorded: the result is a sublist of the recorded
    spans whose spans all have that name, and every such sublist is a
    sublist of the result. *)
Theorem get_spans_spec (spans : list Span) (name : option string) :
  (truthy name = false → get_spans spans name = spans) ∧
  (∀ n, name = Some n → n ≠ "" →
     get_spans spans name `sublist_of` spans ∧
     Forall (λ sp, sp_name sp = n) (get_spans spans name) ∧
     (∀ l, l `sublist_of` spans → Forall (λ sp, sp_name sp = n) l →
           l `sublist_of` get_spans spans name)).
Proof.
  unfold get_spans. split.
  - by intros ->.
  - intros n -> Hn. simpl.
    rewrite (string_eqb_false n "" Hn). simpl.
    split; [apply sublist_filter|].
    split; [apply Forall_forall; intros sp Hsp;
            by apply list_elem_of_filter in Hsp as [? _]|].
    intros l Hsub. induction Hsub as [|x l1 l2 Hsub IH|x l1 l2 Hsub IH];
      intros Hall.
    + constructor.
    + apply Forall_cons in Hall as [Hx Hall].
      rewrite filter_cons_True by done.
      apply sublist_skip, IH, Hall.
    + rewrite filter_cons. case_decide.
      * apply sublist_cons, IH, Hall.
      * apply IH, Hall.
Qed.


(** X17.  [TracingHelper.create_span] starts a span that is neither
    ended nor made current.  Its attribute [service.name] is the helper's
    service name, whatever the caller passed under that key; the caller's
    other attributes are kept.  A parent context that is [None] or empty
    (falsy) is replaced by the current context. *)
Theorem helper_create_span_spec (service_name name : string) (kind : SpanKind)
    (attributes : option (gmap string string))
    (parent_context : option Context) (w : world) :
  let r := helper_create_span service_name name kind attributes
             parent_context w in
  ∃ sp,
    r.1 = Return (length (w_spans w)) ∧
    w_spans r.2 = w_spans w ++ [sp] ∧
    sp_name sp = name ∧ sp_kind sp = kind ∧ sp_ended sp = false ∧
    w_current r.2 = w_current w ∧
    (("service.name", Some service_name) ∈ sp_attributes sp) ∧
    (∀ k v, k ≠ "service.name" →
       ((k, Some v) ∈ sp_attributes sp ↔ default ∅ attributes !! k = Some v)) ∧
    (∀ v, ("service.name", Some v) ∈ sp_attributes sp → v = service_name) ∧
    sp_parent sp =
      match parent_context with
      | Some c => if context_truthy c then ctx_span c
                  else ctx_span (w_current w)
      | None => ctx_span (w_current w)
      end.
Proof.
  intros r. subst r. unfold helper_create_span, start_span. cbv zeta.
  cbn [fst snd w_spans w_current with_log with_draw with_spans].
  eexists. split; [reflexivity|]. split; [reflexivity|].
  cbn [sp_name sp_kind sp_ended sp_attributes sp_parent new_span].
  assert (∀ k v, (k, Some v) ∈ attributes_of
                   (helper_span_attributes service_name attributes)
                 ↔ helper_span_attributes service_name attributes !! k
                   = Some v) as Hin.
  { intros k v. unfold attributes_of. rewrite list_elem_of_fmap. split.
    - intros ([k' v'] & [= -> ->] & Hin). by apply elem_of_map_to_list.
    - intros Hl. exists (k, v). split; [done|]. by apply elem_of_map_to_list. }
  split; [done|]. split; [done|]. split; [done|]. split; [done|].
  split; [apply Hin; unfold helper_span_attributes; apply lookup_insert_eq|].
  split.
  { intros k v Hk. rewrite Hin. unfold helper_span_attributes.
    by rewrite lookup_insert_ne. }
  split.
  { intros v Hv%Hin. unfold helper_span_attributes in Hv.
    rewrite lookup_insert_eq in Hv. congruence. }
  destruct parent_context as [c|]; [|done]. by destruct (context_truthy c).
Qed.


(** X18.  [correlate_with_logs] returns the caller's attributes with the
    five keys [message], [trace_id], [span_id], [trace_flags] and
    [service.name] set, overriding the caller's values for them; the
    ids are those of the current span, all zeros when no span is
    current, and the trace id has 32 characters for a 128-bit id; one
    record is logged. *)
Theorem correlate_with_logs_keys (json_dumps : gmap string json_value → string)
    (service_name log_message : string)
    (additional_attributes : option (gmap string json_value)) (w : world) :
  let r := correlate_with_logs json_dumps service_name log_message
             additional_attributes w in
  let sc := current_span_context w in
  ∃ d,
    r.1 = Return d ∧
    d !! "message" = Some (JStr log_message) ∧
    d !! "trace_id" = Some (JStr (format_hex 32 (trace_id sc))) ∧
    d !! "span_id" = Some (JStr (format_hex 16 (span_id sc))) ∧
    d !! "trace_flags" = Some (JInt (trace_flags sc)) ∧
    d !! "service.name" = Some (JStr service_name) ∧
    (∀ k, k ∉ ["message"; "trace_id"; "span_id"; "trace_flags";
               "service.name"] →
       d !! k = default ∅ additional_attributes !! k) ∧
    (ctx_span (w_current w) = None →
       d !! "trace_id" = Some (JStr "00000000000000000000000000000000") ∧
       d !! "span_id" = Some (JStr "0000000000000000")) ∧
    ((0 ≤ trace_id sc < 2 ^ 128)%Z →
       String.length (format_hex 32 (trace_id sc)) = 32) ∧
    w_log r.2 = w_log w ++ ["INFO " +:+ json_dumps d] ∧
    w_spans r.2 = w_spans w.
Proof.
  intros r sc. subst r.
  unfold correlate_with_logs, bind, gets, modify, ret. cbn [fst snd].
  fold sc. eexists. split; [reflexivity|].
  split; [by rewrite !lookup_insert_ne, lookup_insert_eq by done|].
  split; [by rewrite !lookup_insert_ne, lookup_insert_eq by done|].
  split; [by rewrite !lookup_insert_ne, lookup_insert_eq by done|].
  split; [by rewrite !lookup_insert_ne, lookup_insert_eq by done|].
  split; [by rewrite lookup_insert_eq|].
  split.
  { intros k Hk. rewrite !lookup_insert_ne; [done|set_solver..]. }
  split.
  { intros Hnone. unfold sc, current_span_context. rewrite Hnone. simpl.
    split; by rewrite !lookup_insert_ne, lookup_insert_eq by done. }
  split.
  { intros Hrange. apply format_hex_length; [lia|]. simpl. lia. }
  done.
Qed.

(** X19.  [correlate_with_metrics] returns the caller's attributes with
    [trace_id], [span_id] and [service.name] set, overriding the caller's
    values for them; spans and metrics are not touched. *)
Theorem correlate_with_metrics_keys (service_name metric_name : string)
    (attributes : option (gmap string json_value)) (w : world) :
  let r := correlate_with_metrics service_name metric_name attributes w in
  let sc := current_span_context w in
  ∃ d,
    r.1 = Return d ∧
    d !! "trace_id" = Some (JStr (format_hex 32 (trace_id sc))) ∧
    d !! "span_id" = Some (JStr (format_hex 16 (span_id sc))) ∧
    d !! "service.name" = Some (JStr service_name) ∧
    (∀ k, k ∉ ["trace_id"; "span_id"; "service.name"] →
       d !! k = default ∅ attributes !! k) ∧
    w_spans r.2 = w_spans w ∧ w_metrics r.2 = w_metrics w.
Proof.
  intros r sc. subst r.
  unfold correlate_with_metrics, bind, gets, modify, ret. cbn [fst snd].
  fold sc. eexists. split; [reflexivity|].
  split; [by rewrite !lookup_insert_ne, lookup_insert_eq by done|].
  split; [by rewrite !lookup_insert_ne, lookup_insert_eq by done|].
  split; [by rewrite lookup_insert_eq|].
  split; [|done].
  intros k Hk. rewrite !lookup_insert_ne; [done|set_solver..].
Qed.

(** ** The metric registry *)

Lemma selectors_in_handles :
  (∀ m, published_counter m ∈ handles m) ∧
  (∀ m, consumed_counter m ∈ handles m) ∧
  (∀ m, message_size m ∈ handles m) ∧
  (∀ m, retry_counter m ∈ handles m).
Proof. unfold handles. repeat split; intros m; set_solver. Qed.

(** X20.  Both wrappers keep the invariant of the metric registry: every
    entry of [metrics_by_queue] refers to six different existing
    instruments, counters and histograms as the fields of [QueueMetrics]
    are given them, and no instrument belongs to the entries of two
    queue names.  A publish keeps it over what the delegate left,
    whether the metric calls return or raise.  On a delivery the metric
    calls keep it, whether they return or raise, so the callback starts
    with it; the wrapper touches no metric after the callback. *)
Theorem metrics_invariants_kept {Ch Method R R'}
    (f : basic_publish_t R) (exchange rk : string) (body : bytes)
    (props : option BasicProperties) (mandatory : bool)
    (q : string) (cb : callback_t Ch Method R') (ch : Ch) (method : Method)
    (cprops : BasicProperties) (cbody : bytes) (w : world) :
  let d := delegate_call f exchange rk body props mandatory w in
  let r1 := instrumented_publish f exchange rk body props mandatory w in
  let r2 := instrumented_callback q cb ch method cprops cbody w in
  (metrics_inv (w_metrics d.2) → metrics_inv (w_metrics r1.2)) ∧
  (metrics_inv (w_metrics w) →
   ∀ o ms,
     record_consumed q (headers_or_empty cprops) cbody (w_metrics w)
       = (o, ms) →
     metrics_inv ms ∧
     w_metrics r2.2 =
       match o with
       | Return _ =>
           w_metrics (callback_call cb ch method cprops cbody q ms w).2
       | Raise _ => ms
       end) ∧
  (metrics_inv (w_metrics w) →
   (∀ ms, metrics_inv ms →
      metrics_inv
        (w_metrics (callback_call cb ch method cprops cbody q ms w).2)) →
   metrics_inv (w_metrics r2.2)).
Proof.
  intros d r1 r2.
  assert (metrics_inv (w_metrics w) →
          ∀ o ms,
            record_consumed q (headers_or_empty cprops) cbody (w_metrics w)
              = (o, ms) →
            metrics_inv ms ∧
            w_metrics r2.2 =
              match o with
              | Return _ =>
                  w_metrics
                    (callback_call cb ch method cprops cbody q ms w).2
              | Raise _ => ms
              end) as Hdel.
  { intros Hinv o ms Hrec.
    split; [by eapply record_consumed_inv|].
    subst r2. rewrite instrumented_callback_run. cbv zeta. rewrite Hrec.
    by destruct o as [[]|e]. }
  split; [|split; [exact Hdel|]].
  - intros Hinv. subst r1. rewrite instrumented_publish_run. cbv zeta.
    fold d. cbn [snd w_metrics]. unfold publish_outcome.
    destruct d.1.1 as [x|e]; [|done].
    destruct (record_published rk body (w_metrics d.2)) as [o ms] eqn:Hrec.
    pose proof (record_published_inv _ _ _ _ _ Hinv Hrec).
    by destruct o.
  - intros Hinv Hcb.
    destruct (record_consumed q (headers_or_empty cprops) cbody (w_metrics w))
      as [o ms] eqn:Hrec.
    destruct (Hdel Hinv o ms eq_refl) as [Hms ->].
    destruct o; [by apply Hcb|done].
Qed.


(** X21.  The metric calls of a publish to one routing key and of a
    delivery from one queue leave the counters and the size histogram of
    every other queue name as they were: after a publish they are as the
    delegate left them, and the callback of a delivery starts with them
    as they were before the delivery. *)
Theorem wrappers_leave_other_queues {Ch Method R R'}
    (f : basic_publish_t R) (exchange rk : string) (body : bytes)
    (props : option BasicProperties) (mandatory : bool)
    (q : string) (cb : callback_t Ch Method R') (ch : Ch) (method : Method)
    (cprops : BasicProperties) (cbody : bytes) (w : world)
    (other : string) :
  let d := delegate_call f exchange rk body props mandatory w in
  let r1 := instrumented_publish f exchange rk body props mandatory w in
  let r2 := instrumented_callback q cb ch method cprops cbody w in
  (metrics_wf (w_metrics d.2) → metrics_disjoint (w_metrics d.2) →
   other ≠ rk →
   published_total other (w_metrics r1.2)
     = published_total other (w_metrics d.2) ∧
   consumed_total other (w_metrics r1.2)
     = consumed_total other (w_metrics d.2) ∧
   retry_total other (w_metrics r1.2) = retry_total other (w_metrics d.2) ∧
   size_observations other (w_metrics r1.2)
     = size_observations other (w_metrics d.2)) ∧
  (metrics_wf (w_metrics w) → metrics_disjoint (w_metrics w) →
   other ≠ q →
   ∀ o ms,
     record_consumed q (headers_or_empty cprops) cbody (w_metrics w)
       = (o, ms) →
     published_total other ms = published_total other (w_metrics w) ∧
     consumed_total other ms = consumed_total other (w_metrics w) ∧
     retry_total other ms = retry_total other (w_metrics w) ∧
     size_observations other ms = size_observations other (w_metrics w) ∧
     w_metrics (callback_world q cprops ms w) = ms ∧
     w_metrics r2.2 =
       match o with
       | Return _ =>
           w_metrics (callback_call cb ch method cprops cbody q ms w).2
       | Raise _ => ms
       end).
Proof.
  intros d r1 r2.
  destruct selectors_in_handles as (Hp & Hc & Hs & Hr).
  unfold published_total, consumed_total, retry_total, size_observations.
  split.
  - intros Hwf Hdis Hrk. subst r1. rewrite instrumented_publish_run.
    cbv zeta. fold d. cbn [snd w_metrics]. unfold publish_outcome.
    destruct d.1.1 as [x|e]; [|done].
    destruct (record_published rk body (w_metrics d.2)) as [o ms] eqn:Hrec.
    assert ((match o with
             | Return _ => (Return x, ms)
             | Raise e => (@Raise R e, ms)
             end).2 = ms) as -> by (by destruct o).
    by rewrite (record_published_other rk body other _ _ _ _ Hwf Hdis Hrk Hp Hrec),
      (record_published_other rk body other _ _ _ _ Hwf Hdis Hrk Hc Hrec),
      (record_published_other rk body other _ _ _ _ Hwf Hdis Hrk Hs Hrec),
      (record_published_other rk body other _ _ _ _ Hwf Hdis Hrk Hr Hrec).
  - intros Hwf Hdis Hq o ms Hrec.
    rewrite (record_consumed_other q _ cbody other _ _ _ _ Hwf Hdis Hq Hp Hrec),
      (record_consumed_other q _ cbody other _ _ _ _ Hwf Hdis Hq Hc Hrec),
      (record_consumed_other q _ cbody other _ _ _ _ Hwf Hdis Hq Hs Hrec),
      (record_consumed_other q _ cbody other _ _ _ _ Hwf Hdis Hq Hr Hrec).
    split; [done|]. split; [done|]. split; [done|]. split; [done|].
    split; [done|].
    subst r2. rewrite instrumented_callback_run. cbv zeta. rewrite Hrec.
    by destruct o as [[]|e].
Qed.


(** X22.  When [_get_queue_metrics] raises, nothing is stored:
    [metrics_by_queue] is unchanged and still lacks the name, so the next
    call starts the creation again; the instruments created before the
    failure stay in the meter. *)
Theorem failed_creation_stores_nothing (q : string) (ms ms' : metrics_state)
    (e : exn) :
  _get_queue_metrics q ms = (Raise e, ms') →
  metrics_by_queue ms' = metrics_by_queue ms ∧
  metrics_by_queue ms !! q = None ∧
  ∃ extra, instruments ms' = instruments ms ++ extra.
Proof.
  intros Hget.
  destruct (metrics_by_queue ms !! q) as [m|] eqn:Hq.
  - rewrite (get_queue_metrics_hit q m) in Hget by done. discriminate.
  - rewrite get_queue_metrics_miss in Hget by done.
    destruct (create_queue_metrics q ms) as [o1 ms1] eqn:Hc.
    apply create_queue_metrics_spec in Hc.
    destruct Hc as [(e' & extra & -> & ->)|[-> ->]].
    + injection Hget as <- <-. simpl. split; [done|]. split; [done|].
      by exists extra.
    + unfold lookup_queue_metrics in Hget. simpl in Hget.
      rewrite lookup_insert_eq in Hget. discriminate.
Qed.

End MoreTheorems.

(** ** The retry topology and the formatting of ids *)

(** X23.  [create_dlq_policy] touches nothing but its own three names:
    every other exchange and queue is as before, and exactly one binding
    is added; declaring the policy a second time leaves the exchanges and
    the queues as the first time. *)
Theorem create_dlq_policy_frame (ch : channel) (q : string) (max_retries : Z) :
  let ch' := create_dlq_policy ch q max_retries in
  (∀ x, x ≠ q +:+ ".dlx" → exchanges ch' !! x = exchanges ch !! x) ∧
  (∀ n, n ≠ q → n ≠ q +:+ ".dlq" → queues ch' !! n = queues ch !! n) ∧
  bindings ch' = bindings ch ++ [(q +:+ ".dlq", q +:+ ".dlx", q)] ∧
  exchanges (create_dlq_policy ch' q max_retries) = exchanges ch' ∧
  queues (create_dlq_policy ch' q max_retries) = queues ch'.
Proof.
  intros ch'. unfold ch', create_dlq_policy, queue_declare, queue_bind,
    exchange_declare. simpl.
  split; [intros x Hx; by rewrite lookup_insert_ne|].
  split; [intros n Hn Hn'; by rewrite !lookup_insert_ne|].
  split; [done|].
  split; [by rewrite insert_insert_eq|].
  assert (q +:+ ".dlq" ≠ q) as Hne by (by apply string_app_ne).
  apply map_eq. intros k. rewrite !lookup_insert.
  repeat case_decide; congruence.
Qed.

(** X24.  The correlation id determines the span id it was derived
    from: reading [format(n, "016x")] as a hexadecimal number gives [n]
    back, so two span ids with the same correlation id are equal. *)
Theorem correlation_id_recovers_span_id (a b : Z) :
  (0 ≤ a)%Z → (0 ≤ b)%Z →
  parse_hex_from 0 (list_ascii_of_string (format_hex 16 a)) = Some a ∧
  (format_hex 16 a = format_hex 16 b → a = b).
Proof.
  intros Ha Hb. split; [by apply format_hex_roundtrip|].
  intros Heq.
  pose proof (format_hex_roundtrip 16 a Ha) as H1.
  pose proof (format_hex_roundtrip 16 b Hb) as H2.
  rewrite Heq in H1. congruence.
Qed.

(** ** The theorems above at sample inputs *)

Lemma initial_world_wf : metrics_wf (w_metrics initial_world).
Proof. unfold metrics_wf. simpl. apply map_Forall_empty. Qed.

Lemma publish_span_discipline_witness :
  let d := @delegate_call plain_sdk unit publish_fails "" "orders"
             body_120 None false initial_world in
  let r := @instrumented_publish plain_sdk unit publish_fails "" "orders"
             body_120 None false initial_world in
  0 < length (w_spans d.2) ∧
  length (w_spans r.2) = 1 ∧
  sp_name <$> (w_spans r.2 !! 0) = Some "publish orders" ∧
  sp_ended <$> (w_spans r.2 !! 0) = Some true ∧
  w_current r.2 = empty_context.
Proof.
  intros d r.
  pose proof (@publish_span_discipline plain_sdk unit publish_fails ""
                "orders" body_120 None false initial_world) as H.
  cbv zeta in H.
  destruct H as (_ & Hlen & _ & Hname & _ & _ & _ & Hended & Hcur & _).
  assert (0 < length (w_spans d.2)) as Hlt by (simpl; lia).
  split; [exact Hlt|]. split; [exact Hlen|]. split; [exact Hname|].
  split; [exact (Hended Hlt)|exact Hcur].
Defined.

Lemma delivery_span_discipline_witness :
  let r1 := @instrumented_callback strict_sdk unit unit unit
              "orders created" callback_ok tt tt first_delivery_properties
              body_120 initial_world in
  let r2 := @instrumented_callback plain_sdk unit unit unit "orders"
              callback_fails tt tt first_delivery_properties body_120
              initial_world in
  (@record_consumed strict_sdk "orders created"
     (headers_or_empty first_delivery_properties) body_120
     (w_metrics initial_world)).1
    = Raise (invalid_name_error "rabbitmq.orders created.published") ∧
  (@record_consumed plain_sdk "orders"
     (headers_or_empty first_delivery_properties) body_120
     (w_metrics initial_world)).1 = Return tt ∧
  (∃ sp, w_spans r1.2 = [sp] ∧ sp_ended sp = true) ∧
  length (w_spans r2.2) = 2 ∧
  sp_ended <$> (w_spans r2.2 !! 0) = Some true ∧
  sp_ended <$> (w_spans r2.2 !! 1) = Some true.
Proof.
  intros r1 r2.
  pose proof (@delivery_span_discipline strict_sdk unit unit unit
                "orders created" callback_ok tt tt
                first_delivery_properties body_120 initial_world) as H1.
  pose proof (@delivery_span_discipline plain_sdk unit unit unit
                "orders" callback_fails tt tt
                first_delivery_properties body_120 initial_world) as H2.
  cbv zeta in H1, H2. destruct H1 as [Hraise _]. destruct H2 as [_ Hret].
  destruct (Hraise (invalid_name_error "rabbitmq.orders created.published")
              (@record_consumed strict_sdk "orders created"
                 (headers_or_empty first_delivery_properties) body_120
                 (w_metrics initial_world)).2
              ltac:(vm_compute; reflexivity))
    as (sp & Hspans & _ & _ & _ & Hended & _).
  destruct (Hret (@record_consumed plain_sdk "orders"
                    (headers_or_empty first_delivery_properties) body_120
                    (w_metrics initial_world)).2
              ltac:(vm_compute; reflexivity))
    as (_ & Hlen & _ & Hfields & _).
  destruct (Hfields 0 (or_introl eq_refl)) as (_ & _ & _ & _ & Hended0).
  destruct (Hfields 1 (or_intror eq_refl)) as (_ & _ & _ & _ & Hended1).
  split; [vm_compute; reflexivity|]. split; [vm_compute; reflexivity|].
  split; [exists sp; split; [exact Hspans|exact Hended]|].
  split; [exact Hlen|].
  split; [apply Hended0; simpl; lia|apply Hended1; simpl; lia].
Defined.

Lemma get_spans_spec_witness :
  let a := new_span "publish orders" PRODUCER INVALID_SPAN_CONTEXT None [] in
  let b := new_span "consume orders" CONSUMER INVALID_SPAN_CONTEXT None [] in
  truthy (Some "") = false ∧ "publish orders" ≠ "" ∧
  get_spans [a; b; a] (Some "") = [a; b; a] ∧
  [a; a] `sublist_of` get_spans [a; b; a] (Some "publish orders") ∧
  get_spans [a; b; a] (Some "publish orders") `sublist_of` [a; b; a].
Proof.
  intros a b.
  destruct (get_spans_spec [a; b; a] (Some "")) as [Hall _].
  destruct (get_spans_spec [a; b; a] (Some "publish orders")) as [_ Hname].
  assert ("publish orders" ≠ "") as Hne by discriminate.
  destruct (Hname "publish orders" eq_refl Hne) as (Hsub & _ & Hmax).
  split; [reflexivity|]. split; [exact Hne|]. split; [exact (Hall eq_refl)|].
  split; [|exact Hsub].
  apply Hmax.
  - apply sublist_skip, sublist_cons, sublist_skip. constructor.
  - repeat constructor.
Defined.

Lemma delivery_spans_witness :
  let ms := (@record_consumed plain_sdk "orders"
               (headers_or_empty first_delivery_properties) body_120
               initial_metrics).2 in
  let r := @instrumented_callback plain_sdk unit unit unit "orders"
             callback_fails tt tt first_delivery_properties body_120
             initial_world in
  metrics_wf (w_metrics initial_world) ∧
  @record_consumed plain_sdk "orders"
    (headers_or_empty first_delivery_properties) body_120
    (w_metrics initial_world) = (Return tt, ms) ∧
  size_observations "orders" ms = [120%Z] ∧
  sp_name <$> w_spans r.2 = ["consume orders"; "process orders"] ∧
  ∃ process,
    w_spans r.2 !! 1 = Some process ∧ sp_parent process = None ∧
    sp_status process = ERROR ∧ sp_ended process = true.
Proof.
  intros ms r.
  assert (@record_consumed plain_sdk "orders"
            (headers_or_empty first_delivery_properties) body_120
            (w_metrics initial_world) = (Return tt, ms)) as Hrec
    by (vm_compute; reflexivity).
  pose proof (@delivery_spans plain_sdk unit unit unit "orders"
                callback_fails tt tt first_delivery_properties body_120
                initial_world ms) as H.
  cbv zeta in H.
  destruct (H initial_world_wf Hrec) as (Hsize & _ & Hspans).
  destruct (Hspans eq_refl eq_refl)
    as (consume & process & _ & Hl & _ & _ & _ & Hparent & _ & Hended & _
        & Hraise).
  destruct (Hraise (ValueError "bad payload") eq_refl eq_refl)
    as (_ & _ & Hstatus & _).
  split; [exact initial_world_wf|]. split; [exact Hrec|].
  split; [exact Hsize|]. split; [reflexivity|].
  exists process. split; [exact Hl|]. split; [exact Hparent|].
  split; [exact Hstatus|exact Hended].
Defined.

Lemma publish_failure_records_nothing_witness :
  let d := @delegate_call plain_sdk unit publish_fails "" "orders"
             body_120 None false initial_world in
  let r := @instrumented_publish plain_sdk unit publish_fails "" "orders"
             body_120 None false initial_world in
  d.1.1 = Raise (Exn "AMQPConnectionError" "connection lost" true) ∧
  r.1.1 = Raise (Exn "AMQPConnectionError" "connection lost" true) ∧
  w_metrics r.2 = initial_metrics.
Proof.
  intros d r. split; [reflexivity|].
  destruct (@publish_failure_records_nothing plain_sdk unit publish_fails ""
              "orders" body_120 None false initial_world
              (Exn "AMQPConnectionError" "connection lost" true) eq_refl)
    as (Ho & _ & Hm).
  split; [exact Ho|exact (Hm eq_refl)].
Defined.

Lemma publisher_instrumented_twice_witness :
  let ms1 := (@record_published plain_sdk "orders" body_120
                initial_metrics).2 in
  let ms2 := (@record_published plain_sdk "orders" body_120 ms1).2 in
  let r := @instrument_publisher plain_sdk unit
             (@instrument_publisher plain_sdk unit publish_ok)
             "" "orders" body_120 caller_properties false initial_world in
  @record_published plain_sdk "orders" body_120 initial_metrics
    = (Return tt, ms1) ∧
  @record_published plain_sdk "orders" body_120 ms1 = (Return tt, ms2) ∧
  r.1.1 = Return tt ∧
  published_total "orders" (w_metrics r.2) = 2%Z ∧
  size_observations "orders" (w_metrics r.2) = [120%Z; 120%Z] ∧
  sp_ended <$> w_spans r.2 = [true; true].
Proof.
  intros ms1 ms2 r.
  assert (@record_published plain_sdk "orders" body_120 initial_metrics
          = (Return tt, ms1)) as Hrec1 by (vm_compute; reflexivity).
  assert (@record_published plain_sdk "orders" body_120 ms1
          = (Return tt, ms2)) as Hrec2 by (vm_compute; reflexivity).
  pose proof (@publisher_instrumented_twice plain_sdk unit publish_ok ""
                "orders" body_120 caller_properties false initial_world tt
                ms1 ms2) as H.
  cbv zeta in H.
  destruct (H eq_refl initial_world_wf Hrec1 Hrec2)
    as (Ho & Hm & Hpub & Hsize & _).
  split; [exact Hrec1|]. split; [exact Hrec2|]. split; [exact Ho|].
  fold r in Hm. rewrite Hm.
  split; [exact Hpub|]. split; [exact Hsize|]. reflexivity.
Defined.

Lemma trace_continues_across_queue_witness :
  let parsed := {| trace_id := 2748; span_id := 1; trace_flags := 1;
                   trace_state := ""; is_remote := true |} in
  let producer := @child_context w3c_sdk (ctx_span (w_current active_world))
                    (w_draws active_world) in
  let sent := @sent_properties w3c_sdk "orders" None active_world in
  let r := @instrumented_callback w3c_sdk unit unit unit "orders"
             callback_ok tt tt sent body_120 initial_world in
  @parse_traceparent w3c_sdk (traceparent producer) = Some parsed ∧
  trace_id parsed = trace_id producer ∧ span_id parsed = span_id producer ∧
  is_valid parsed = true ∧
  ∃ consume parent,
    w_spans r.2 !! 0 = Some consume ∧
    sp_parent consume = Some parent ∧
    trace_id parent = 2748%Z ∧ span_id parent = 1%Z ∧
    is_remote parent = true ∧
    trace_id (sp_context consume) = 2748%Z.
Proof.
  intros parsed producer sent r.
  assert (@parse_traceparent w3c_sdk (traceparent producer) = Some parsed)
    as Hparse by (vm_compute; reflexivity).
  split; [exact Hparse|]. split; [reflexivity|]. split; [reflexivity|].
  split; [reflexivity|].
  exact (proj2 (@trace_continues_across_queue w3c_sdk unit unit unit
                  "orders" None active_world
                  "orders" callback_ok tt tt body_120 initial_world parsed
                  Hparse eq_refl eq_refl eq_refl
                  (λ ms _, eq_refl))).
Defined.

Lemma rabbitmq_context_roundtrip_witness :
  let sc := {| trace_id := 2748; span_id := 77; trace_flags := 1;
               trace_state := ""; is_remote := false |} in
  let parsed := {| trace_id := 2748; span_id := 77; trace_flags := 1;
                   trace_state := ""; is_remote := true |} in
  ctx_span (w_current active_world) = Some sc ∧
  @parse_traceparent w3c_sdk (traceparent sc) = Some parsed ∧
  trace_id parsed = trace_id sc ∧ span_id parsed = span_id sc ∧
  is_valid parsed = true ∧
  ∃ p' ctx sc',
    (@propagate_context_to_rabbitmq w3c_sdk caller_properties
       active_world).1 = Return p' ∧
    (@extract_context_from_rabbitmq w3c_sdk p' initial_world).1
      = Return ctx ∧
    ctx_span ctx = Some sc' ∧
    trace_id sc' = 2748%Z ∧ span_id sc' = 77%Z ∧ is_remote sc' = true.
Proof.
  intros sc parsed.
  assert (@parse_traceparent w3c_sdk (traceparent sc) = Some parsed)
    as Hparse by (vm_compute; reflexivity).
  split; [reflexivity|]. split; [exact Hparse|]. split; [reflexivity|].
  split; [reflexivity|]. split; [reflexivity|].
  destruct (@rabbitmq_context_roundtrip w3c_sdk caller_properties
              active_world initial_world sc parsed
              eq_refl Hparse eq_refl eq_refl eq_refl)
    as (p' & ctx & sc' & Hp & He & Hc & Ht & Hs & Hr & _).
  exists p', ctx, sc'. repeat (split; [assumption|]). assumption.
Defined.

Lemma auto_instrumentation_swallows_witness :
  Forall (λ i : string * outcome unit,
            ∀ e, i.2 = Raise e → exc_is_Exception e = true)
         sample_instrumentors ∧
  @_setup_auto_instrumentation sample_instrumentors initial_world =
    (Return tt,
     World [] initial_metrics (w_current initial_world) 0
       ["DEBUG Failed to initialize FlaskInstrumentor: No module named flask";
        "DEBUG Failed to initialize DjangoInstrumentor: settings are not configured"]).
Proof.
  assert (Forall (λ i : string * outcome unit,
                    ∀ e, i.2 = Raise e → exc_is_Exception e = true)
                 sample_instrumentors) as Hall.
  { unfold sample_instrumentors.
    repeat (apply Forall_cons; split;
            [simpl; intros e He; inversion He; reflexivity|]).
    apply Forall_nil_2. }
  split; [exact Hall|].
  exact (auto_instrumentation_swallows sample_instrumentors initial_world
           Hall).
Defined.

Lemma auto_instrumentation_aborts_witness :
  let interrupt := Exn "KeyboardInterrupt" "" false in
  Forall (λ i : string * outcome unit,
            ∀ e, i.2 = Raise e → exc_is_Exception e = true)
         (take 2 sample_instrumentors) ∧
  exc_is_Exception interrupt = false ∧
  _setup_auto_instrumentation
    (take 2 sample_instrumentors
       ++ ("FastAPIInstrumentor", Raise interrupt)
       :: drop 3 sample_instrumentors) initial_world =
    (Raise interrupt,
     World [] initial_metrics (w_current initial_world) 0
       ["DEBUG Failed to initialize FlaskInstrumentor: No module named flask"]).
Proof.
  intros interrupt.
  assert (Forall (λ i : string * outcome unit,
                    ∀ e, i.2 = Raise e → exc_is_Exception e = true)
                 (take 2 sample_instrumentors)) as Hall.
  { unfold sample_instrumentors. simpl.
    repeat (apply Forall_cons; split;
            [simpl; intros e He; inversion He; reflexivity|]).
    apply Forall_nil_2. }
  split; [exact Hall|]. split; [reflexivity|].
  exact (auto_instrumentation_aborts (take 2 sample_instrumentors)
           (drop 3 sample_instrumentors) "FastAPIInstrumentor" interrupt
           initial_world Hall eq_refl).
Defined.

Lemma metrics_invariants_kept_witness :
  let r1 := @instrumented_publish plain_sdk unit publish_ok "" "orders"
              body_120 None false initial_world in
  let r2 := @instrumented_callback plain_sdk unit unit unit "invoices"
              callback_fails tt tt first_delivery_properties body_120 r1.2 in
  metrics_inv (w_metrics initial_world) ∧
  metrics_inv (w_metrics r1.2) ∧ metrics_inv (w_metrics r2.2) ∧
  length (instruments (w_metrics r2.2)) = 12.
Proof.
  intros r1 r2.
  pose proof (@metrics_invariants_kept plain_sdk unit unit unit unit
                publish_ok "" "orders" body_120 None false
                "invoices" callback_fails tt tt first_delivery_properties
                body_120 initial_world) as H1.
  cbv zeta in H1. destruct H1 as [Hpub _].
  pose proof (Hpub initial_metrics_inv) as Hinv1.
  fold r1 in Hinv1.
  pose proof (@metrics_invariants_kept plain_sdk unit unit unit unit
                publish_ok "" "orders" body_120 None false
                "invoices" callback_fails tt tt first_delivery_properties
                body_120 r1.2) as H2.
  cbv zeta in H2. destruct H2 as (_ & _ & Hdel).
  split; [exact initial_metrics_inv|]. split; [exact Hinv1|].
  split; [exact (Hdel Hinv1 (λ ms Hms, Hms))|reflexivity].
Defined.

Lemma published_world_invariants (rk : string) :
  let w := (@instrumented_publish plain_sdk unit publish_ok "" rk
              body_120 None false initial_world).2 in
  metrics_wf (w_metrics w) ∧ metrics_disjoint (w_metrics w).
Proof.
  intros w. subst w. rewrite instrumented_publish_run. cbv zeta.
  cbn [snd w_metrics]. unfold publish_outcome.
  change (delegate_call publish_ok "" rk body_120 None false initial_world).1.1
    with (@Return unit tt).
  change (w_metrics
            (delegate_call publish_ok "" rk body_120 None false
               initial_world).2)
    with initial_metrics.
  destruct (@record_published plain_sdk rk body_120 initial_metrics)
    as [o ms] eqn:Hrec.
  destruct (record_published_inv _ _ _ _ _ initial_metrics_inv
              Hrec) as (Hwf & Hdis & _).
  by destruct o.
Qed.

Lemma wrappers_leave_other_queues_witness :
  let w := (@instrumented_publish plain_sdk unit publish_ok "" "invoices"
              body_120 None false initial_world).2 in
  let r1 := @instrumented_publish plain_sdk unit publish_ok "" "orders"
              body_120 None false w in
  let r2 := @instrumented_callback plain_sdk unit unit unit "orders"
              callback_ok tt tt first_delivery_properties body_120 w in
  metrics_wf (w_metrics w) ∧ metrics_disjoint (w_metrics w) ∧
  "invoices" ≠ "orders" ∧
  published_total "invoices" (w_metrics r1.2) = 1%Z ∧
  size_observations "invoices" (w_metrics r1.2) = [120%Z] ∧
  published_total "orders" (w_metrics r1.2) = 1%Z ∧
  published_total "invoices" (w_metrics r2.2) = 1%Z ∧
  consumed_total "invoices" (w_metrics r2.2) = 0%Z ∧
  consumed_total "orders" (w_metrics r2.2) = 1%Z.
Proof.
  intros w r1 r2.
  destruct (published_world_invariants "invoices") as [Hwf Hdis].
  fold w in Hwf, Hdis.
  assert ("invoices" ≠ "orders") as Hne by discriminate.
  pose proof (@wrappers_leave_other_queues plain_sdk unit unit unit unit
                publish_ok "" "orders" body_120 None false
                "orders" callback_ok tt tt first_delivery_properties
                body_120 w "invoices")
    as H.
  cbv zeta in H. destruct H as [Hpub Hdel].
  destruct (Hpub Hwf Hdis Hne) as (Hp1 & _ & _ & Hs1).
  destruct (Hdel Hwf Hdis Hne _ _ eq_refl) as (Hp2 & Hc2 & _).
  split; [exact Hwf|]. split; [exact Hdis|]. split; [exact Hne|].
  fold r1 in Hp1, Hs1.
  split; [rewrite Hp1; reflexivity|]. split; [rewrite Hs1; reflexivity|].
  split; [reflexivity|].
  split; [etransitivity; [|exact Hp2]; reflexivity|].
  split; [etransitivity; [|exact Hc2]; reflexivity|reflexivity].
Defined.

Lemma failed_creation_stores_nothing_witness :
  let r := @_get_queue_metrics strict_sdk long_queue_name initial_metrics in
  r = (Raise (invalid_name_error
                ("rabbitmq." +:+ long_queue_name +:+ ".processing_time")),
       r.2) ∧
  metrics_by_queue r.2 = ∅ ∧
  length (instruments r.2) = 2 ∧
  length (instruments (@_get_queue_metrics strict_sdk long_queue_name r.2).2)
    = 4.
Proof.
  intros r.
  assert (r = (Raise (invalid_name_error
                        ("rabbitmq." +:+ long_queue_name
                           +:+ ".processing_time")), r.2)) as Hr
    by (vm_compute; reflexivity).
  destruct (@failed_creation_stores_nothing strict_sdk long_queue_name
              initial_metrics r.2 _ Hr) as (Hreg & _ & _).
  split; [exact Hr|]. split; [exact Hreg|].
  split; vm_compute; reflexivity.
Defined.

Lemma correlation_id_recovers_span_id_witness :
  (0 ≤ 255)%Z ∧ (0 ≤ 4096)%Z ∧
  format_hex 16 255 = "00000000000000ff" ∧
  parse_hex_from 0 (list_ascii_of_string "00000000000000ff") = Some 255%Z ∧
  format_hex 16 255 ≠ format_hex 16 4096.
Proof.
  assert (0 ≤ 255)%Z as Ha by lia.
  assert (0 ≤ 4096)%Z as Hb by lia.
  destruct (correlation_id_recovers_span_id 255 4096 Ha Hb) as [Hparse Hinj].
  split; [exact Ha|]. split; [exact Hb|]. split; [reflexivity|].
  split; [exact Hparse|].
  intros Heq. specialize (Hinj Heq). lia.
Defined.

Lemma http_context_roundtrip_witness :
  let sc := {| trace_id := 2748; span_id := 77; trace_flags := 1;
               trace_state := ""; is_remote := false |} in
  let parsed := {| trace_id := 2748; span_id := 77; trace_flags := 1;
                   trace_state := ""; is_remote := true |} in
  ctx_span (w_current active_world) = Some sc ∧
  @parse_traceparent w3c_sdk (traceparent sc) = Some parsed ∧
  trace_id parsed = trace_id sc ∧ span_id parsed = span_id sc ∧
  is_valid parsed = true ∧
  ∃ h' ctx sc',
    (@inject_context_to_headers w3c_sdk None active_world).1 = Return h' ∧
    (@extract_context_from_request w3c_sdk h' initial_world).1
      = Return ctx ∧
    ctx_span ctx = Some sc' ∧
    trace_id sc' = 2748%Z ∧ span_id sc' = 77%Z ∧ is_remote sc' = true.
Proof.
  intros sc parsed.
  assert (@parse_traceparent w3c_sdk (traceparent sc) = Some parsed)
    as Hparse by (vm_compute; reflexivity).
  split; [reflexivity|]. split; [exact Hparse|]. split; [reflexivity|].
  split; [reflexivity|]. split; [reflexivity|].
  destruct (@http_context_roundtrip w3c_sdk None active_world initial_world
              sc parsed eq_refl Hparse eq_refl eq_refl eq_refl)
    as (h' & ctx & sc' & Hp & He & Hc & Ht & Hs & Hr & _).
  exists h', ctx, sc'. repeat (split; [assumption|]). assumption.
Defined.

Lemma instrument_leaves_span_open_witness :
  let r := @instrument plain_sdk Z None INTERNAL None "process_data"
             func_fails initial_world in
  r.1 = Raise (ValueError "bad input") ∧
  w_current r.2 = w_current initial_world ∧
  sp_name <$> (w_spans r.2 !! 0) = Some "process_data" ∧
  sp_ended <$> (w_spans r.2 !! 0) = Some false.
Proof.
  intros r.
  pose proof (@instrument_leaves_span_open plain_sdk Z None INTERNAL None
                "process_data" func_fails initial_world) as H.
  cbv zeta in H. fold r in H.
  destruct H as (Ho & Hcur & _ & _ & _ & _ & Hopen).
  split; [exact Ho|]. split; [exact Hcur|]. split; [reflexivity|].
  exact (Hopen eq_refl).
Defined.

Lemma instrument_function_ends_span_witness :
  let r1 := @instrument_function plain_sdk Z "process-item" INTERNAL None
              func_ok initial_world in
  let r2 := @instrument_function plain_sdk Z "process-item" INTERNAL None
              func_fails initial_world in
  r1.1 = Return 42%Z ∧
  sp_ended <$> (w_spans r1.2 !! 0) = Some true ∧
  sp_status <$> (w_spans r1.2 !! 0) = Some UNSET ∧
  r2.1 = Raise (ValueError "bad input") ∧
  sp_ended <$> (w_spans r2.2 !! 0) = Some true ∧
  ∃ sp, w_spans r2.2 !! 0 = Some sp ∧ sp_status sp = ERROR ∧
        ValueError "bad input" ∈ sp_exceptions sp.
Proof.
  intros r1 r2.
  pose proof (@instrument_function_ends_span plain_sdk Z "process-item"
                INTERNAL None func_ok initial_world) as H1.
  pose proof (@instrument_function_ends_span plain_sdk Z "process-item"
                INTERNAL None func_fails initial_world) as H2.
  cbv zeta in H1, H2. fold r1 in H1. fold r2 in H2.
  destruct H1 as (Ho1 & _ & _ & _ & Hend1 & Hst1).
  destruct H2 as (Ho2 & _ & _ & _ & Hend2 & Hst2).
  split; [exact Ho1|].
  split; [apply Hend1; simpl; lia|].
  split; [exact (proj1 (Hst1 eq_refl) 42%Z Ho1)|].
  split; [exact Ho2|].
  split; [apply Hend2; simpl; lia|].
  exact (proj2 (Hst2 eq_refl) (ValueError "bad input") Ho2 eq_refl).
Defined.
